(** * xml-invoice-builder: totals, validation schema and line-item editor

    A shallow embedding of [src/components/InvoiceForm.tsx]:

    - the [totals] reduction over the watched line items (lines 122-136),
    - the [invoiceSchema] validation schema (lines 16-64),
    - the line-item editor: [addLineItem] (lines 147-155), the guarded
      remove button (lines 655-664) and the default values (lines 93-111),
    - the running form: the watched array, the memo around [totals] and the
      amounts the rows and the summary show (lines 119-136, 765, 785-794).

    JavaScript numbers are IEEE 754 binary64 values; they are modelled by
    [spec_float] with the operations of [SpecFloat] at precision 53 and
    maximal exponent 1024.  The arithmetic the code uses is collected in the
    class [JsNumber], so that the same [totals] can also be read over the
    rationals, the "exact arithmetic" the specification refers to.  [B2Q]
    gives the rational a binary64 number stands for, so that the totals in
    binary64 can be compared with the exact ones. *)

From Stdlib Require Import ZArith QArith Qfield Qpower Qabs Lqa List String Ascii Bool Lia.
From Stdlib Require Import Permutation.
From Stdlib Require Import SpecFloat.
Import ListNotations.

Set Implicit Arguments.

(** ** JavaScript values met in a numeric field *)

(** A numeric field of a line item holds a number, or is [undefined] while the
    user is still editing, or [null]. *)
Inductive jsval (num : Type) : Type :=
| JsUndefined
| JsNull
| JsNum (x : num).

Arguments JsUndefined {num}.
Arguments JsNull {num}.
Arguments JsNum {num} x.

(** The arithmetic [totals] and [addLineItem] use on numbers. *)
Class JsNumber (num : Type) : Type := {
  num_of_Z : Z -> num;            (* an integer literal *)
  num_add : num -> num -> num;    (* [+] *)
  num_mul : num -> num -> num;    (* [*] *)
  num_div : num -> num -> num;    (* [/] *)
  num_truthy : num -> bool        (* ToBoolean *)
}.

(** ** Binary64 *)

Module Binary64.

Definition prec : Z := 53.
Definition emax : Z := 1024.

Definition add : spec_float -> spec_float -> spec_float := SFadd prec emax.
Definition mul : spec_float -> spec_float -> spec_float := SFmul prec emax.
Definition div : spec_float -> spec_float -> spec_float := SFdiv prec emax.

(** Number(z) for an integer z: the nearest binary64, ties to even. *)
Definition of_Z (z : Z) : spec_float := binary_normalize prec emax z 0 false.

(** The decimal literal with digits [m] and exponent [e]: the nearest
    binary64 to m * 10^e.  For a negative exponent the quotient of two
    integers is rounded once, which is the literal's value as long as [m] and
    the power of ten are below 2^53. *)
Definition decimal (m : Z) (e : Z) : spec_float :=
  match e with
  | Zneg p => div (of_Z m) (of_Z (10 ^ Zpos p))
  | _ => of_Z (m * 10 ^ e)
  end.

(** ToBoolean on a number: [+0], [-0] and [NaN] are falsy. *)
Definition truthy (x : spec_float) : bool :=
  match x with
  | S754_zero _ | S754_nan => false
  | _ => true
  end.

Definition is_nan (x : spec_float) : bool :=
  match x with S754_nan => true | _ => false end.

(** Number.isFinite *)
Definition is_finite (x : spec_float) : bool :=
  match x with
  | S754_zero _ | S754_finite _ _ _ => true
  | _ => false
  end.

(** [x >= y] and [x <= y]; both are false when either side is NaN. *)
Definition geb (x y : spec_float) : bool := SFleb y x.
Definition leb (x y : spec_float) : bool := SFleb x y.
Definition ltb (x y : spec_float) : bool := SFltb x y.
Definition gtb (x y : spec_float) : bool := SFltb y x.

End Binary64.

#[export] Instance binary64_number : JsNumber spec_float := {
  num_of_Z := Binary64.of_Z;
  num_add := Binary64.add;
  num_mul := Binary64.mul;
  num_div := Binary64.div;
  num_truthy := Binary64.truthy
}.

(** ** Exact arithmetic *)

#[export] Instance exact_number : JsNumber Q := {
  num_of_Z := inject_Z;
  num_add := Qplus;
  num_mul := Qmult;
  num_div := Qdiv;
  num_truthy := fun x => negb (Qeq_bool x 0)
}.

(** ** Line items *)

Section LineItems.

Context {num : Type} `{JsNumber num}.

(** An entry of [lineItems] as the running form holds it. *)
Record LineItem : Type := {
  id : string;
  description : string;
  quantity : jsval num;
  unitPrice : jsval num;
  vatRate : jsval num;
  vatNature : option string
}.

Record Totals : Type := {
  subtotal : num;
  vatTotal : num;
  total : num
}.

(** [v || 0] *)
Definition or_zero (v : jsval num) : num :=
  match v with
  | JsNum x => if num_truthy x then x else num_of_Z 0
  | JsUndefined | JsNull => num_of_Z 0
  end.

(** The reducer of [totals], lines 124-133. *)
Definition totals_step (acc : Totals) (item : LineItem) : Totals :=
  let lineTotal := num_mul (or_zero (quantity item)) (or_zero (unitPrice item)) in
  let vatAmount := num_mul lineTotal (num_div (or_zero (vatRate item)) (num_of_Z 100)) in
  {| subtotal := num_add (subtotal acc) lineTotal;
     vatTotal := num_add (vatTotal acc) vatAmount;
     total := num_add (total acc) (num_add lineTotal vatAmount) |}.

Definition totals_init : Totals :=
  {| subtotal := num_of_Z 0; vatTotal := num_of_Z 0; total := num_of_Z 0 |}.

(** [watchedLineItems.reduce(..., { subtotal: 0, vatTotal: 0, total: 0 })]:
    the function [React.useMemo] is given, as a function of the array it
    reads.  At which renders the form calls it is modelled in [Form]. *)
Definition totals (watchedLineItems : list LineItem) : Totals :=
  fold_left totals_step watchedLineItems totals_init.

(** The object literal of [defaultValues.lineItems] and of [addLineItem];
    [uuid] is what [crypto.randomUUID()] returned for it. *)
Definition defaultLineItem (uuid : string) : LineItem :=
  {| id := uuid;
     description := EmptyString;
     quantity := JsNum (num_of_Z 1);
     unitPrice := JsNum (num_of_Z 0);
     vatRate := JsNum (num_of_Z 22);
     vatNature := None |}.

End LineItems.

Arguments LineItem num : clear implicits.
Arguments Totals num : clear implicits.

(** ** Regular expressions

    The patterns of the validation library are regular expressions; they are
    matched here with Brzozowski derivatives.  [And] and [Neg] express the
    negative look-aheads anchored at the start of a pattern. *)

Module Regex.

Inductive re : Type :=
| Void
| Eps
| Class (p : ascii -> bool)
| Seq (a b : re)
| Alt (a b : re)
| Star (a : re)
| And (a b : re)
| Neg (a : re).

Fixpoint nullable (r : re) : bool :=
  match r with
  | Void => false
  | Eps => true
  | Class _ => false
  | Seq a b => nullable a && nullable b
  | Alt a b => nullable a || nullable b
  | Star _ => true
  | And a b => nullable a && nullable b
  | Neg a => negb (nullable a)
  end.

Definition seq (a b : re) : re :=
  match a, b with
  | Void, _ | _, Void => Void
  | Eps, _ => b
  | _, _ => Seq a b
  end.

Definition alt (a b : re) : re :=
  match a, b with
  | Void, _ => b
  | _, Void => a
  | _, _ => Alt a b
  end.

Fixpoint deriv (c : ascii) (r : re) : re :=
  match r with
  | Void | Eps => Void
  | Class p => if p c then Eps else Void
  | Seq a b =>
      alt (seq (deriv c a) b) (if nullable a then deriv c b else Void)
  | Alt a b => alt (deriv c a) (deriv c b)
  | Star a => seq (deriv c a) (Star a)
  | And a b => And (deriv c a) (deriv c b)
  | Neg a => Neg (deriv c a)
  end.

(** The whole string is in the language of [r]. *)
Fixpoint matches (r : re) (s : string) : bool :=
  match s with
  | EmptyString => nullable r
  | String c s' => matches (deriv c r) s'
  end.

Definition plus (a : re) : re := Seq a (Star a).

Definition in_range (lo hi c : ascii) : bool :=
  (nat_of_ascii lo <=? nat_of_ascii c)%nat && (nat_of_ascii c <=? nat_of_ascii hi)%nat.

Definition alpha (c : ascii) : bool :=
  in_range "A"%char "Z"%char c || in_range "a"%char "z"%char c.
Definition digit (c : ascii) : bool := in_range "0"%char "9"%char c.
Definition alnum (c : ascii) : bool := alpha c || digit c.
Definition one_of (cs : list ascii) (c : ascii) : bool := existsb (Ascii.eqb c) cs.
Definition any (_ : ascii) : bool := true.
(** [.] : any character but a line terminator *)
Definition dot (c : ascii) : bool := negb (one_of ["010"; "013"]%char c).

End Regex.

(** ** The length of a JavaScript string

    A string of the model holds the UTF-8 bytes of the text; the [length] of
    a JavaScript string counts its UTF-16 code units: one for a character of
    one, two or three bytes, two for a character of four bytes.  A byte that
    does not belong to a well-formed character stands for one unit, as the
    replacement character does. *)

Module Utf16.

Definition is_continuation (c : ascii) : bool :=
  (128 <=? nat_of_ascii c)%nat && (nat_of_ascii c <? 192)%nat.

(** The code units of the character a byte starts, and the continuation
    bytes that belong to it. *)
Definition lead (c : ascii) : nat * nat :=
  let n := nat_of_ascii c in
  if (n <? 192)%nat then (1, 0)%nat
  else if (n <? 224)%nat then (1, 1)%nat
  else if (n <? 240)%nat then (1, 2)%nat
  else if (n <? 248)%nat then (2, 3)%nat
  else (1, 0)%nat.

(** [pending] continuation bytes of the current character are still due. *)
Fixpoint length_from (pending : nat) (s : string) : nat :=
  match s with
  | EmptyString => 0
  | String c s' =>
      match pending with
      | S p => if is_continuation c then length_from p s'
               else (fst (lead c) + length_from (snd (lead c)) s')%nat
      | O => (fst (lead c) + length_from (snd (lead c)) s')%nat
      end
  end.

(** [s.length] *)
Definition length (s : string) : nat := length_from 0 s.

End Utf16.

(** ** The validation library

    [invoiceSchema] is built from the combinators of zod (version 3), an
    external dependency.  What follows is the part of their behaviour the
    schema relies on: each schema maps an input to the list of the failures
    it reports, and an input is accepted when the list is empty. *)

Module Zod.

Inductive issue_code : Type :=
| invalid_type
| invalid_string
| invalid_enum_value
| too_small
| too_big.

(** [message] is the text the schema passes to the check, if any; the
    library's own default text applies otherwise. *)
Record failure : Type := {
  code : issue_code;
  message : option string
}.

Inductive path_elem : Type :=
| Key (k : string)
| Index (i : nat).

Record issue : Type := {
  path : list path_elem;
  why : failure
}.

Definition schema (A : Type) : Type := A -> list failure.

Definition fail (c : issue_code) (m : option string) : list failure :=
  [ {| code := c; message := m |} ].

(** The pattern of [.email()], case-insensitive, written here with spaces
    between its parts:
    ^  (?!\.)  (?!.*\.\.)  ( [A-Z0-9_+.-] or the apostrophe )*  [A-Z0-9_+-]
    @  ( [A-Z0-9] [A-Z0-9-]* \. )+  [A-Z]{2,}  $ *)
Definition emailRegex : Regex.re :=
  let chr c := Regex.Class (Ascii.eqb c) in
  let local c := Regex.alnum c || Regex.one_of ["_"; "'"; "+"; "-"; "."]%char c in
  let local_end c := Regex.alnum c || Regex.one_of ["_"; "+"; "-"]%char c in
  let label_rest c := Regex.alnum c || Ascii.eqb c "-"%char in
  let no_leading_dot :=
    Regex.Neg (Regex.Seq (chr "."%char) (Regex.Star (Regex.Class Regex.any))) in
  let no_double_dot :=
    Regex.Neg (Regex.Seq (Regex.Star (Regex.Class Regex.dot))
                (Regex.Seq (chr "."%char)
                   (Regex.Seq (chr "."%char) (Regex.Star (Regex.Class Regex.any))))) in
  let label :=
    Regex.Seq (Regex.Class Regex.alnum)
      (Regex.Seq (Regex.Star (Regex.Class label_rest)) (chr "."%char)) in
  let body :=
    Regex.Seq (Regex.Star (Regex.Class local))
      (Regex.Seq (Regex.Class local_end)
         (Regex.Seq (chr "@"%char)
            (Regex.Seq (Regex.plus label)
               (Regex.Seq (Regex.Class Regex.alpha)
                  (Regex.Seq (Regex.Class Regex.alpha)
                     (Regex.Star (Regex.Class Regex.alpha))))))) in
  Regex.And no_leading_dot (Regex.And no_double_dot body).

Inductive string_check : Type :=
| SMin (n : nat) (msg : string)
| SLength (n : nat) (msg : string)
| SEmail.

Definition run_string_check (s : string) (c : string_check) : list failure :=
  match c with
  | SMin n msg =>
      if (Utf16.length s <? n)%nat then fail too_small (Some msg) else []
  | SLength n msg =>
      if (n <? Utf16.length s)%nat then fail too_big (Some msg)
      else if (Utf16.length s <? n)%nat then fail too_small (Some msg)
      else []
  | SEmail =>
      if Regex.matches emailRegex s then [] else fail invalid_string None
  end.

(** [z.string()] followed by its checks; [None] is [undefined]. *)
Definition z_string (checks : list string_check) : schema (option string) :=
  fun v =>
    match v with
    | None => fail invalid_type None
    | Some s => flat_map (run_string_check s) checks
    end.

Inductive number_check : Type :=
| NMin (bound : spec_float) (msg : option string)
| NMax (bound : spec_float) (msg : option string).

Definition run_number_check (x : spec_float) (c : number_check) : list failure :=
  match c with
  | NMin bound msg => if Binary64.ltb x bound then fail too_small msg else []
  | NMax bound msg => if Binary64.gtb x bound then fail too_big msg else []
  end.

(** [z.number()] followed by its checks: [undefined], [null] and [NaN] are
    not of the number type. *)
Definition z_number (checks : list number_check) : schema (jsval spec_float) :=
  fun v =>
    match v with
    | JsUndefined | JsNull => fail invalid_type None
    | JsNum x =>
        if Binary64.is_nan x then fail invalid_type None
        else flat_map (run_number_check x) checks
    end.

(** [z.enum([...])] *)
Definition z_enum (values : list string) : schema (option string) :=
  fun v =>
    match v with
    | None => fail invalid_type None
    | Some s =>
        if existsb (String.eqb s) values then [] else fail invalid_enum_value None
    end.

(** [.optional()] *)
Definition optional {A : Type} (inner : schema (option A)) : schema (option A) :=
  fun v => match v with None => [] | Some _ => inner v end.

(** [.default(d)] *)
Definition default {A : Type} (d : A) (inner : schema (option A)) : schema (option A) :=
  fun v => match v with None => inner (Some d) | Some _ => inner v end.

(** The issues of one property of an object, or of one element of an array. *)
Definition at_path (p : list path_elem) (fs : list failure) : list issue :=
  map (fun f => {| path := p; why := f |}) fs.

Fixpoint z_array_from {A : Type} (element : list path_elem -> A -> list issue)
    (p : list path_elem) (i : nat) (xs : list A) : list issue :=
  match xs with
  | [] => []
  | x :: xs' => element (p ++ [Index i]) x ++ z_array_from element p (S i) xs'
  end.

(** [z.array(element).min(n, msg)] *)
Definition z_array_min {A : Type} (element : list path_elem -> A -> list issue)
    (n : nat) (msg : string) (p : list path_elem) (xs : list A) : list issue :=
  at_path p (if (List.length xs <? n)%nat then fail too_small (Some msg) else [])
  ++ z_array_from element p 0 xs.

Definition path_elem_eqb (a b : path_elem) : bool :=
  match a, b with
  | Key k, Key k' => String.eqb k k'
  | Index i, Index i' => Nat.eqb i i'
  | _, _ => false
  end.

Fixpoint path_eqb (p q : list path_elem) : bool :=
  match p, q with
  | [], [] => true
  | a :: p', b :: q' => path_elem_eqb a b && path_eqb p' q'
  | _, _ => false
  end.

(** The failures reported for the field at path [p]. *)
Definition errors_at (p : list path_elem) (issues : list issue) : list failure :=
  map why (filter (fun i => path_eqb (path i) p) issues).

End Zod.

(** ** The schema of the form: [invoiceSchema], lines 16-64 *)

Import Zod.

(** The candidate record handed to the resolver; [None] is a property that
    is [undefined]. *)
Record InvoiceFormData : Type := {
  progressivoInvio : option string;
  codiceDestinatario : option string;
  pecDestinatario : option string;
  supplierCountry : option string;
  supplierVatNumber : option string;
  supplierFiscalCode : option string;
  supplierCompanyName : option string;
  supplierFirstName : option string;
  supplierLastName : option string;
  supplierRegime : option string;
  supplierAddress : option string;
  supplierCivicNumber : option string;
  supplierPostalCode : option string;
  supplierCity : option string;
  supplierProvince : option string;
  supplierCountryCode : option string;
  customerFiscalCode : option string;
  customerCompanyName : option string;
  customerFirstName : option string;
  customerLastName : option string;
  customerAddress : option string;
  customerCivicNumber : option string;
  customerPostalCode : option string;
  customerCity : option string;
  customerProvince : option string;
  customerCountryCode : option string;
  documentType : option string;
  currency : option string;
  documentDate : option string;
  documentNumber : option string;
  lineItems : list (LineItem spec_float)
}.

Definition regimeCodes : list string :=
  ["RF01"; "RF02"; "RF04"; "RF05"; "RF06"; "RF07"; "RF08"; "RF09"; "RF10";
   "RF11"; "RF12"; "RF13"; "RF14"; "RF15"; "RF16"; "RF17"; "RF18"; "RF19"]%string.

Definition documentTypeCodes : list string := ["TD07"; "TD08"; "TD09"]%string.

Definition vatNatureCodes : list string :=
  ["N1"; "N2"; "N3"; "N4"; "N5"; "N6"; "N7"]%string.

(** The issues of property [k] of the object at path [p]. *)
Definition prop (p : list path_elem) (k : string) (fs : list failure) : list issue :=
  at_path (p ++ [Key k]) fs.

Definition quantitySchema : schema (jsval spec_float) :=
  z_number [NMin (Binary64.decimal 1 (-2)) (Some "Quantity must be greater than 0"%string)].

Definition unitPriceSchema : schema (jsval spec_float) :=
  z_number [NMin (Binary64.of_Z 0) (Some "Unit price must be positive"%string)].

Definition vatRateSchema : schema (jsval spec_float) :=
  z_number [NMin (Binary64.of_Z 0) None;
            NMax (Binary64.of_Z 100) (Some "VAT rate must be between 0 and 100"%string)].

Definition vatNatureSchema : schema (option string) :=
  optional (z_enum vatNatureCodes).

(** The object schema of one entry of [lineItems], lines 56-63. *)
Definition lineItemSchema (p : list path_elem) (item : LineItem spec_float) : list issue :=
  prop p "id" (z_string [] (Some (id item)))
  ++ prop p "description"
       (z_string [SMin 1 "Description is required"] (Some (description item)))
  ++ prop p "quantity" (quantitySchema (quantity item))
  ++ prop p "unitPrice" (unitPriceSchema (unitPrice item))
  ++ prop p "vatRate" (vatRateSchema (vatRate item))
  ++ prop p "vatNature" (vatNatureSchema (vatNature item)).

Definition pecDestinatarioSchema : schema (option string) :=
  optional (z_string [SEmail]).

Definition lineItemsSchema : list (LineItem spec_float) -> list issue :=
  z_array_min lineItemSchema 1 "At least one line item is required" [Key "lineItems"].

(** The issues of the properties that come before [lineItems]. *)
Definition headerSchema (r : InvoiceFormData) : list issue :=
  let country := z_string [SLength 2 "Country code must be 2 characters"] in
  let postal := z_string [SMin 5 "Postal code is required"] in
  let city := z_string [SMin 1 "City is required"] in
  let free := optional (z_string []) in
  prop [] "progressivoInvio"
    (z_string [SMin 1 "Progressive number is required"] (progressivoInvio r))
  ++ prop [] "codiceDestinatario" (free (codiceDestinatario r))
  ++ prop [] "pecDestinatario" (pecDestinatarioSchema (pecDestinatario r))
  ++ prop [] "supplierCountry" (country (supplierCountry r))
  ++ prop [] "supplierVatNumber"
       (z_string [SMin 11 "VAT number must be at least 11 characters"]
          (supplierVatNumber r))
  ++ prop [] "supplierFiscalCode" (free (supplierFiscalCode r))
  ++ prop [] "supplierCompanyName" (free (supplierCompanyName r))
  ++ prop [] "supplierFirstName" (free (supplierFirstName r))
  ++ prop [] "supplierLastName" (free (supplierLastName r))
  ++ prop [] "supplierRegime" (z_enum regimeCodes (supplierRegime r))
  ++ prop [] "supplierAddress"
       (z_string [SMin 1 "Address is required"] (supplierAddress r))
  ++ prop [] "supplierCivicNumber" (free (supplierCivicNumber r))
  ++ prop [] "supplierPostalCode" (postal (supplierPostalCode r))
  ++ prop [] "supplierCity" (city (supplierCity r))
  ++ prop [] "supplierProvince" (free (supplierProvince r))
  ++ prop [] "supplierCountryCode" (country (supplierCountryCode r))
  ++ prop [] "customerFiscalCode" (free (customerFiscalCode r))
  ++ prop [] "customerCompanyName" (free (customerCompanyName r))
  ++ prop [] "customerFirstName" (free (customerFirstName r))
  ++ prop [] "customerLastName" (free (customerLastName r))
  ++ prop [] "customerAddress"
       (z_string [SMin 1 "Customer address is required"] (customerAddress r))
  ++ prop [] "customerCivicNumber" (free (customerCivicNumber r))
  ++ prop [] "customerPostalCode" (postal (customerPostalCode r))
  ++ prop [] "customerCity" (city (customerCity r))
  ++ prop [] "customerProvince" (free (customerProvince r))
  ++ prop [] "customerCountryCode" (country (customerCountryCode r))
  ++ prop [] "documentType" (z_enum documentTypeCodes (documentType r))
  ++ prop [] "currency" (default "EUR"%string (z_string []) (currency r))
  ++ prop [] "documentDate"
       (z_string [SMin 1 "Document date is required"] (documentDate r))
  ++ prop [] "documentNumber"
       (z_string [SMin 1 "Document number is required"] (documentNumber r)).

Definition invoiceSchema (r : InvoiceFormData) : list issue :=
  headerSchema r ++ lineItemsSchema (lineItems r).

(** The resolver lets the record through when no issue is reported. *)
Definition accepted (r : InvoiceFormData) : bool :=
  match invoiceSchema r with
  | [] => true
  | _ :: _ => false
  end.

(** ** The line-item editor *)

Module Editor.
Section Editor.

Context {num : Type} `{JsNumber num}.

(** [append] and [remove] of the field array. *)
Definition append (fields : list (LineItem num)) (item : LineItem num) :
    list (LineItem num) :=
  fields ++ [item].

Definition remove (index : nat) (fields : list (LineItem num)) :
    list (LineItem num) :=
  firstn index fields ++ skipn (S index) fields.

(** [defaultValues.lineItems], lines 102-110. *)
Definition initialLineItems (uuid : string) : list (LineItem num) :=
  [defaultLineItem uuid].

(** [addLineItem], lines 147-155. *)
Definition addLineItem (uuid : string) (fields : list (LineItem num)) :
    list (LineItem num) :=
  append fields (defaultLineItem uuid).

(** The remove button of row [index] is rendered for each row of
    [fields.map], and only when [fields.length > 1] (line 655). *)
Definition removeButtonRendered (fields : list (LineItem num)) (index : nat) : bool :=
  (index <? List.length fields)%nat && (1 <? List.length fields)%nat.

(** What the user can do to the list; [Add] carries the identifier
    [crypto.randomUUID()] returns for the new row. *)
Inductive transition : Type :=
| Add (uuid : string)
| Remove (index : nat).

Definition step (fields : list (LineItem num)) (t : transition) :
    list (LineItem num) :=
  match t with
  | Add uuid => addLineItem uuid fields
  | Remove index =>
      if removeButtonRendered fields index then remove index fields else fields
  end.

Definition run (uuid0 : string) (ts : list transition) : list (LineItem num) :=
  fold_left step ts (initialLineItems uuid0).

End Editor.
End Editor.

(** ** Sample inputs *)

(** The line item of the end-to-end example of the specification. *)
Definition consulenza {num : Type} `{JsNumber num} : LineItem num :=
  {| id := "7d3f0c1e-58a2-4c55-9a57-0d1f6a3b2c41";
     description := "Consulenza";
     quantity := JsNum (num_of_Z 2);
     unitPrice := JsNum (num_of_Z 100);
     vatRate := JsNum (num_of_Z 22);
     vatNature := None |}.

(** A record filled in as the form's defaults suggest, with [items] as
    its line items and [pec] as its certified e-mail address. *)
Definition sampleInvoice (pec : option string) (items : list (LineItem spec_float)) :
    InvoiceFormData :=
  {| progressivoInvio := Some "00001"%string;
     codiceDestinatario := None;
     pecDestinatario := pec;
     supplierCountry := Some "IT"%string;
     supplierVatNumber := Some "01234567890"%string;
     supplierFiscalCode := None;
     supplierCompanyName := Some "Studio Rossi"%string;
     supplierFirstName := None;
     supplierLastName := None;
     supplierRegime := Some "RF01"%string;
     supplierAddress := Some "Via Roma"%string;
     supplierCivicNumber := None;
     supplierPostalCode := Some "00100"%string;
     supplierCity := Some "Roma"%string;
     supplierProvince := None;
     supplierCountryCode := Some "IT"%string;
     customerFiscalCode := None;
     customerCompanyName := None;
     customerFirstName := None;
     customerLastName := None;
     customerAddress := Some "Corso Italia"%string;
     customerCivicNumber := None;
     customerPostalCode := Some "20100"%string;
     customerCity := Some "Milano"%string;
     customerProvince := None;
     customerCountryCode := Some "IT"%string;
     documentType := Some "TD07"%string;
     currency := Some "EUR"%string;
     documentDate := Some "2024-01-15"%string;
     documentNumber := Some "1"%string;
     lineItems := items |}.

(** [item] with another quantity, unit price and VAT rate. *)
Definition priced {num : Type} (item : LineItem num) (q p v : jsval num) : LineItem num :=
  {| id := id item;
     description := description item;
     quantity := q;
     unitPrice := p;
     vatRate := v;
     vatNature := vatNature item |}.

(** ** Reference quantities for the totals *)

(** A field left [undefined] filled in with the number 0. *)
Definition fill_missing {num : Type} `{JsNumber num} (v : jsval num) : jsval num :=
  match v with
  | JsUndefined => JsNum (num_of_Z 0)
  | _ => v
  end.

Definition fill_missing_item {num : Type} `{JsNumber num} (item : LineItem num) :
    LineItem num :=
  priced item (fill_missing (quantity item)) (fill_missing (unitPrice item))
    (fill_missing (vatRate item)).

(** A field holding [null] or [NaN] turned into a missing one. *)
Definition drop_invalid (v : jsval spec_float) : jsval spec_float :=
  match v with
  | JsNull => JsUndefined
  | JsNum x => if Binary64.is_nan x then JsUndefined else v
  | JsUndefined => v
  end.

Definition drop_invalid_item (item : LineItem spec_float) : LineItem spec_float :=
  priced item (drop_invalid (quantity item)) (drop_invalid (unitPrice item))
    (drop_invalid (vatRate item)).

(** The amounts of one line, as the reducer of [totals] computes them. *)
Definition lineTotal {num : Type} `{JsNumber num} (item : LineItem num) : num :=
  num_mul (or_zero (quantity item)) (or_zero (unitPrice item)).

Definition vatAmount {num : Type} `{JsNumber num} (item : LineItem num) : num :=
  num_mul (lineTotal item) (num_div (or_zero (vatRate item)) (num_of_Z 100)).

(** No amount of the line has overflowed to an infinity. *)
Definition line_in_range (item : LineItem spec_float) : bool :=
  Binary64.is_finite (lineTotal item)
  && Binary64.is_finite (vatAmount item)
  && Binary64.is_finite (Binary64.add (lineTotal item) (vatAmount item)).

(** A defined numeric field is a finite number. *)
Definition finite_field (v : jsval spec_float) : bool :=
  match v with
  | JsNum x => Binary64.is_finite x
  | JsUndefined | JsNull => true
  end.

(** The value of a field in exact arithmetic, a missing one counting as 0. *)
Definition field_value (v : jsval Q) : Q :=
  match v with
  | JsNum x => x
  | JsUndefined | JsNull => 0
  end.

(** The sum of [f] over the items. *)
Definition sigma (f : LineItem Q -> Q) (items : list (LineItem Q)) : Q :=
  fold_right (fun item rest => f item + rest) 0 items.

(** ** What the rules of the schema ask of a value *)

(** A text that is present and takes at least [n] bytes of UTF-8.  It is
    used with [n] = 1, where it says that the text is not empty, as
    [length >= 1] does; see [length_at_least] for the other bounds. *)
Definition text_at_least (n : nat) (v : option string) : Prop :=
  exists s, v = Some s /\ (n <= String.length s)%nat.

(** A text that is present and whose [length], counted in UTF-16 code
    units as JavaScript does, is exactly [n]. *)
Definition text_of_length (n : nat) (v : option string) : Prop :=
  exists s, v = Some s /\ Utf16.length s = n.

(** A text that is present and whose [length], counted in UTF-16 code
    units, is at least [n]. *)
Definition length_at_least (n : nat) (v : option string) : Prop :=
  exists s, v = Some s /\ (n <= Utf16.length s)%nat.

(** A text that is present and is one of [codes]. *)
Definition one_of_codes (codes : list string) (v : option string) : Prop :=
  exists s, v = Some s /\ In s codes.

(** A number that is at least [lo]. *)
Definition number_from (lo : spec_float) (v : jsval spec_float) : Prop :=
  exists x, v = JsNum x /\ Binary64.geb x lo = true.

(** A number between [lo] and [hi], both included. *)
Definition number_between (lo hi : spec_float) (v : jsval spec_float) : Prop :=
  exists x, v = JsNum x /\ Binary64.geb x lo = true /\ Binary64.leb x hi = true.

(** What the schema asks of the properties that come before [lineItems]. *)
Definition header_ok (r : InvoiceFormData) : Prop :=
  text_at_least 1 (progressivoInvio r)
  /\ (pecDestinatario r = None
      \/ exists s, pecDestinatario r = Some s /\ Regex.matches emailRegex s = true)
  /\ text_of_length 2 (supplierCountry r)
  /\ length_at_least 11 (supplierVatNumber r)
  /\ one_of_codes regimeCodes (supplierRegime r)
  /\ text_at_least 1 (supplierAddress r)
  /\ length_at_least 5 (supplierPostalCode r)
  /\ text_at_least 1 (supplierCity r)
  /\ text_of_length 2 (supplierCountryCode r)
  /\ text_at_least 1 (customerAddress r)
  /\ length_at_least 5 (customerPostalCode r)
  /\ text_at_least 1 (customerCity r)
  /\ text_of_length 2 (customerCountryCode r)
  /\ one_of_codes documentTypeCodes (documentType r)
  /\ text_at_least 1 (documentDate r)
  /\ text_at_least 1 (documentNumber r).

(** What the schema asks of one line item. *)
Definition line_ok (item : LineItem spec_float) : Prop :=
  (1 <= String.length (description item))%nat
  /\ number_from (Binary64.decimal 1 (-2)) (quantity item)
  /\ number_from (Binary64.of_Z 0) (unitPrice item)
  /\ number_between (Binary64.of_Z 0) (Binary64.of_Z 100) (vatRate item)
  /\ (vatNature item = None
      \/ exists s, vatNature item = Some s /\ In s vatNatureCodes).

(** [r] with another [supplierCountry]. *)
Definition withSupplierCountry (v : option string) (r : InvoiceFormData) :
    InvoiceFormData :=
  {| progressivoInvio := progressivoInvio r;
     codiceDestinatario := codiceDestinatario r;
     pecDestinatario := pecDestinatario r;
     supplierCountry := v;
     supplierVatNumber := supplierVatNumber r;
     supplierFiscalCode := supplierFiscalCode r;
     supplierCompanyName := supplierCompanyName r;
     supplierFirstName := supplierFirstName r;
     supplierLastName := supplierLastName r;
     supplierRegime := supplierRegime r;
     supplierAddress := supplierAddress r;
     supplierCivicNumber := supplierCivicNumber r;
     supplierPostalCode := supplierPostalCode r;
     supplierCity := supplierCity r;
     supplierProvince := supplierProvince r;
     supplierCountryCode := supplierCountryCode r;
     customerFiscalCode := customerFiscalCode r;
     customerCompanyName := customerCompanyName r;
     customerFirstName := customerFirstName r;
     customerLastName := customerLastName r;
     customerAddress := customerAddress r;
     customerCivicNumber := customerCivicNumber r;
     customerPostalCode := customerPostalCode r;
     customerCity := customerCity r;
     customerProvince := customerProvince r;
     customerCountryCode := customerCountryCode r;
     documentType := documentType r;
     currency := currency r;
     documentDate := documentDate r;
     documentNumber := documentNumber r;
     lineItems := lineItems r |}.

(** [r] with another [customerPostalCode]. *)
Definition withCustomerPostalCode (v : option string) (r : InvoiceFormData) :
    InvoiceFormData :=
  {| progressivoInvio := progressivoInvio r;
     codiceDestinatario := codiceDestinatario r;
     pecDestinatario := pecDestinatario r;
     supplierCountry := supplierCountry r;
     supplierVatNumber := supplierVatNumber r;
     supplierFiscalCode := supplierFiscalCode r;
     supplierCompanyName := supplierCompanyName r;
     supplierFirstName := supplierFirstName r;
     supplierLastName := supplierLastName r;
     supplierRegime := supplierRegime r;
     supplierAddress := supplierAddress r;
     supplierCivicNumber := supplierCivicNumber r;
     supplierPostalCode := supplierPostalCode r;
     supplierCity := supplierCity r;
     supplierProvince := supplierProvince r;
     supplierCountryCode := supplierCountryCode r;
     customerFiscalCode := customerFiscalCode r;
     customerCompanyName := customerCompanyName r;
     customerFirstName := customerFirstName r;
     customerLastName := customerLastName r;
     customerAddress := customerAddress r;
     customerCivicNumber := customerCivicNumber r;
     customerPostalCode := v;
     customerCity := customerCity r;
     customerProvince := customerProvince r;
     customerCountryCode := customerCountryCode r;
     documentType := documentType r;
     currency := currency r;
     documentDate := documentDate r;
     documentNumber := documentNumber r;
     lineItems := lineItems r |}.

(** [r] with another list of line items. *)
Definition withLineItems (items : list (LineItem spec_float)) (r : InvoiceFormData) :
    InvoiceFormData :=
  {| progressivoInvio := progressivoInvio r;
     codiceDestinatario := codiceDestinatario r;
     pecDestinatario := pecDestinatario r;
     supplierCountry := supplierCountry r;
     supplierVatNumber := supplierVatNumber r;
     supplierFiscalCode := supplierFiscalCode r;
     supplierCompanyName := supplierCompanyName r;
     supplierFirstName := supplierFirstName r;
     supplierLastName := supplierLastName r;
     supplierRegime := supplierRegime r;
     supplierAddress := supplierAddress r;
     supplierCivicNumber := supplierCivicNumber r;
     supplierPostalCode := supplierPostalCode r;
     supplierCity := supplierCity r;
     supplierProvince := supplierProvince r;
     supplierCountryCode := supplierCountryCode r;
     customerFiscalCode := customerFiscalCode r;
     customerCompanyName := customerCompanyName r;
     customerFirstName := customerFirstName r;
     customerLastName := customerLastName r;
     customerAddress := customerAddress r;
     customerCivicNumber := customerCivicNumber r;
     customerPostalCode := customerPostalCode r;
     customerCity := customerCity r;
     customerProvince := customerProvince r;
     customerCountryCode := customerCountryCode r;
     documentType := documentType r;
     currency := currency r;
     documentDate := documentDate r;
     documentNumber := documentNumber r;
     lineItems := items |}.

(** The identifiers the generator handed out for the Add transitions of a
    sequence, in order. *)
Fixpoint issued (ts : list Editor.transition) : list string :=
  match ts with
  | [] => []
  | Editor.Add uuid :: ts' => uuid :: issued ts'
  | Editor.Remove _ :: ts' => issued ts'
  end.

(** [defaultValues], lines 93-111: the properties it does not list are
    [undefined]; [today] is the date part of [new Date().toISOString()] and
    [uuid] what [crypto.randomUUID()] returned. *)
Definition defaultValues (today uuid : string) : InvoiceFormData :=
  {| progressivoInvio := Some EmptyString;
     codiceDestinatario := None;
     pecDestinatario := None;
     supplierCountry := Some "IT"%string;
     supplierVatNumber := None;
     supplierFiscalCode := None;
     supplierCompanyName := None;
     supplierFirstName := None;
     supplierLastName := None;
     supplierRegime := Some "RF01"%string;
     supplierAddress := None;
     supplierCivicNumber := None;
     supplierPostalCode := None;
     supplierCity := None;
     supplierProvince := None;
     supplierCountryCode := Some "IT"%string;
     customerFiscalCode := None;
     customerCompanyName := None;
     customerFirstName := None;
     customerLastName := None;
     customerAddress := None;
     customerCivicNumber := None;
     customerPostalCode := None;
     customerCity := None;
     customerProvince := None;
     customerCountryCode := Some "IT"%string;
     documentType := Some "TD07"%string;
     currency := Some "EUR"%string;
     documentDate := Some today;
     documentNumber := None;
     lineItems := Editor.initialLineItems uuid |}.

(** ** Reference notions for binary64 totals *)

(** [x === y], or both are NaN. *)
Definition same_number (x y : spec_float) : bool :=
  (Binary64.is_nan x && Binary64.is_nan y) || SFeqb x y.

(** NaN, or a number whose sign is not negative: [+0], a positive finite
    number or [+Infinity]. *)
Definition nan_or_unsigned (x : spec_float) : bool :=
  match x with
  | S754_nan => true
  | S754_zero s | S754_infinity s | S754_finite s _ _ => negb s
  end.

(** ** What the rows and the inputs of the form compute *)

Section Rows.

Context {num : Type} `{JsNumber num}.



End Rows.

(** The value the [onChange] of a numeric input hands to the form, lines
    694, 712 and 730: [parseFloat(e.target.value) || 0], where [parsed] is
    what [parseFloat] returned. *)
Definition numberInputChange (parsed : spec_float) : jsval spec_float :=
  JsNum (or_zero (JsNum parsed)).

(** ** Submission *)

(** What the schema hands on for an accepted record: the record with the
    default of [currency] filled in. *)
Definition parsedData (values : InvoiceFormData) : InvoiceFormData :=
  {| progressivoInvio := progressivoInvio values;
     codiceDestinatario := codiceDestinatario values;
     pecDestinatario := pecDestinatario values;
     supplierCountry := supplierCountry values;
     supplierVatNumber := supplierVatNumber values;
     supplierFiscalCode := supplierFiscalCode values;
     supplierCompanyName := supplierCompanyName values;
     supplierFirstName := supplierFirstName values;
     supplierLastName := supplierLastName values;
     supplierRegime := supplierRegime values;
     supplierAddress := supplierAddress values;
     supplierCivicNumber := supplierCivicNumber values;
     supplierPostalCode := supplierPostalCode values;
     supplierCity := supplierCity values;
     supplierProvince := supplierProvince values;
     supplierCountryCode := supplierCountryCode values;
     customerFiscalCode := customerFiscalCode values;
     customerCompanyName := customerCompanyName values;
     customerFirstName := customerFirstName values;
     customerLastName := customerLastName values;
     customerAddress := customerAddress values;
     customerCivicNumber := customerCivicNumber values;
     customerPostalCode := customerPostalCode values;
     customerCity := customerCity values;
     customerProvince := customerProvince values;
     customerCountryCode := customerCountryCode values;
     documentType := documentType values;
     currency := match currency values with
                 | None => Some "EUR"%string
                 | Some c => Some c
                 end;
     documentDate := documentDate values;
     documentNumber := documentNumber values;
     lineItems := lineItems values |}.

(** What a submission does to the outside. *)
Inductive effect : Type :=
| ConsoleLog (label : string) (data : InvoiceFormData)
| CustomOnSubmit (data : InvoiceFormData)
| ToastSuccess (text : string).

(** [onSubmit], lines 138-145; [customOnSubmit] tells whether the caller
    passed a handler. *)
Definition onSubmit (customOnSubmit : bool) (data : InvoiceFormData) : list effect :=
  ConsoleLog "Invoice data:" data
  :: (if customOnSubmit then [CustomOnSubmit data]
      else [ToastSuccess "Fattura generata con successo!"]).

(** [form.handleSubmit(onSubmit)] with the resolver of [invoiceSchema],
    lines 91-92 and 165: [onSubmit] runs on the parsed record when the
    resolver reports no error, and not at all otherwise. *)
Definition handleSubmit (customOnSubmit : bool) (values : InvoiceFormData) : list effect :=
  if accepted values then onSubmit customOnSubmit (parsedData values) else [].

(** ** The options of the selects, lines 66-88 *)

Record selectOption : Type := {
  value : string;
  label : string
}.

Definition documentTypes : list selectOption :=
  [ {| value := "TD07"; label := "Fattura semplificata" |};
    {| value := "TD08"; label := "Nota di credito semplificata" |};
    {| value := "TD09"; label := "Nota di debito semplificata" |} ].

Definition fiscalRegimes : list selectOption :=
  [ {| value := "RF01"; label := "Regime ordinario" |};
    {| value := "RF02"; label := "Regime contribuenti minimi" |};
    {| value := "RF04"; label := "Agricoltura e attività connesse" |};
    {| value := "RF19"; label := "Regime forfettario" |};
    {| value := "RF18"; label := "Altro" |} ].

Definition vatNatures : list selectOption :=
  [ {| value := "N1"; label := "Escluse ex art. 15" |};
    {| value := "N2"; label := "Non soggette" |};
    {| value := "N3"; label := "Non soggette - altri casi" |};
    {| value := "N4"; label := "Non imponibili" |};
    {| value := "N5"; label := "Non imponibili - esportazioni" |};
    {| value := "N6"; label := "Non imponibili - cessioni intracomunitarie" |};
    {| value := "N7"; label := "Esenti" |} ].

(** ** The form while it runs

    [form.watch("lineItems")], line 119, hands out the array the form values
    hold under [lineItems].  An input writes its field into that array in
    place; [append] and [remove] of the field array put a new array in its
    stead.  [React.useMemo(..., [watchedLineItems])], lines 122-136, calls
    the totals calculator at the first render and, at a later render, only
    when the array is not the one it was called for last; every event is
    followed by a render. *)

Module Form.

(** What an input of a row writes: the text of the description, the value
    [parseFloat] read in a numeric input, the code chosen for the VAT
    nature. *)
Inductive input : Type :=
| Description (text : string)
| Quantity (parsed : spec_float)
| UnitPrice (parsed : spec_float)
| VatRate (parsed : spec_float)
| VatNature (code : string).

Inductive event : Type :=
| Edit (index : nat) (i : input)
| ClickAdd (uuid : string)
| ClickRemove (index : nat).

Record state : Type := {
  arrayId : nat;                        (* which array [lineItems] holds *)
  rows : list (LineItem spec_float);    (* what the array contains *)
  memoDep : nat;                        (* the array the memo was computed for *)
  memoValue : Totals spec_float         (* what [totals] is at this render *)
}.

Definition write (i : input) (item : LineItem spec_float) : LineItem spec_float :=
  match i with
  | Description text =>
      {| id := id item; description := text; quantity := quantity item;
         unitPrice := unitPrice item; vatRate := vatRate item;
         vatNature := vatNature item |}
  | Quantity parsed =>
      priced item (numberInputChange parsed) (unitPrice item) (vatRate item)
  | UnitPrice parsed =>
      priced item (quantity item) (numberInputChange parsed) (vatRate item)
  | VatRate parsed =>
      priced item (quantity item) (unitPrice item) (numberInputChange parsed)
  | VatNature code =>
      {| id := id item; description := description item; quantity := quantity item;
         unitPrice := unitPrice item; vatRate := vatRate item;
         vatNature := Some code |}
  end.

(** The array with the row at [index] written in place; the form has no
    input for a row the array does not have. *)
Fixpoint write_at (index : nat) (i : input) (items : list (LineItem spec_float)) :
    list (LineItem spec_float) :=
  match items, index with
  | [], _ => []
  | item :: rest, O => write i item :: rest
  | item :: rest, S index' => item :: write_at index' i rest
  end.

(** What an event does to the form values. *)
Definition apply (st : state) (ev : event) : state :=
  match ev with
  | Edit index i =>
      {| arrayId := arrayId st; rows := write_at index i (rows st);
         memoDep := memoDep st; memoValue := memoValue st |}
  | ClickAdd uuid =>
      {| arrayId := S (arrayId st); rows := Editor.addLineItem uuid (rows st);
         memoDep := memoDep st; memoValue := memoValue st |}
  | ClickRemove index =>
      if Editor.removeButtonRendered (rows st) index
      then {| arrayId := S (arrayId st); rows := Editor.remove index (rows st);
              memoDep := memoDep st; memoValue := memoValue st |}
      else st
  end.

(** A render: the memo keeps its value unless the array has changed. *)
Definition render (st : state) : state :=
  if Nat.eqb (memoDep st) (arrayId st) then st
  else {| arrayId := arrayId st; rows := rows st;
          memoDep := arrayId st; memoValue := totals (rows st) |}.

Definition step (st : state) (ev : event) : state := render (apply st ev).

(** The form after its first render. *)
Definition initial (uuid : string) : state :=
  {| arrayId := 0; rows := Editor.initialLineItems uuid;
     memoDep := 0; memoValue := totals (Editor.initialLineItems uuid) |}.

Definition run (uuid0 : string) (evs : list event) : state :=
  fold_left step evs (initial uuid0).

(** The totals of the summary, lines 785-794, and the amount of a row, line
    765, before they are formatted. *)
Definition shownTotals (st : state) : Totals spec_float := memoValue st.



Definition is_edit (ev : event) : bool :=
  match ev with
  | Edit _ _ => true
  | _ => false
  end.

(** The event puts a new array in the form values. *)
Definition replaces (st : state) (ev : event) : bool :=
  match ev with
  | Edit _ _ => false
  | ClickAdd _ => true
  | ClickRemove index => Editor.removeButtonRendered (rows st) index
  end.

(** The totals shown are those of the rows as they stand. *)
Definition fresh (st : state) : Prop :=
  shownTotals st = totals (rows st).

End Form.

(** ** The rational value of a binary64 number and the error of a rounding *)

(** The power of two with exponent [e], as a rational. *)
Definition pow2 (e : Z) : Q := (2 ^ e)%Q.

(** The rational a binary64 number stands for; the zeros stand for 0, and
    so do, for want of a value, the infinities and NaN. *)
Definition B2Q (x : spec_float) : Q :=
  match x with
  | S754_finite s m e =>
      (if s then - inject_Z (Zpos m) else inject_Z (Zpos m)) * pow2 e
  | _ => 0
  end.

(** Half a unit, or nothing. *)
Definition half_if (b : bool) : Q := if b then 1 # 2 else 0.

(** The record of a right shift stands for [X]: its mantissa is the whole
    part of [X], its round bit tells whether the rest reaches a half, its
    sticky bit whether anything is left beyond that. *)
Definition represents (X : Q) (mrs : shr_record) : Prop :=
  (0 <= shr_m mrs)%Z
  /\ exists t : Q,
       0 <= t /\ t < 1 # 2
       /\ X == inject_Z (shr_m mrs) + half_if (shr_r mrs) + t
       /\ (shr_s mrs = false -> t == 0)
       /\ (shr_s mrs = true -> 0 < t).

(** The error bound of a binary64 rounding, relative and absolute. *)
Definition eps : Q := 1 # 9007199254740992.
Definition eta : Q := pow2 (-1075).

(** [x] is within one rounding of [y]. *)
Definition within (x y : Q) : Prop := Qabs (x - y) <= eps * Qabs y + eta.

(** [x] with the sign [s]: negated when [s] is set. *)
Definition signed (s : bool) (x : Q) : Q := if s then - x else x.

(** The factor by which [k] roundings in a row can be off: (1 + eps)^k - 1. *)
Definition gamma (k : nat) : Q := (1 + eps) ^ Z.of_nat k - 1.

(** The least positive normal number, 2^-1022; [eta] is [eps] times it. *)
Definition tiny : Q := pow2 (-1022).

(** The sum of [f] over the items. *)
Definition sum_of {T : Type} (f : T -> Q) (items : list T) : Q :=
  fold_right (fun item rest => f item + rest) 0 items.

(** ** The totals in exact arithmetic of binary64 line items *)

(** A field of a binary64 line item read in exact arithmetic.  [NaN], which
    [|| 0] turns into 0, stands for 0. *)
Definition exact_field (v : jsval spec_float) : jsval Q :=
  match v with
  | JsNum x => JsNum (B2Q x)
  | JsUndefined => JsUndefined
  | JsNull => JsNull
  end.

Definition exact_item (item : LineItem spec_float) : LineItem Q :=
  {| id := id item;
     description := description item;
     quantity := exact_field (quantity item);
     unitPrice := exact_field (unitPrice item);
     vatRate := exact_field (vatRate item);
     vatNature := vatNature item |}.

(** quantity * unitPrice and quantity * unitPrice * vatRate / 100 of a line,
    in exact arithmetic. *)
Definition exact_lineTotal (item : LineItem Q) : Q :=
  field_value (quantity item) * field_value (unitPrice item).

Definition exact_vatAmount (item : LineItem Q) : Q :=
  field_value (quantity item) * field_value (unitPrice item)
  * field_value (vatRate item) / 100.

(** What an underflow in the line total or in vatRate / 100 can add to the
    error of the VAT amount of a line. *)
Definition underflow_slack (item : LineItem Q) : Q :=
  2 * eta * (Qabs (exact_lineTotal item) + Qabs (field_value (vatRate item) / 100) + 1).

(** The tolerance on the binary64 sum of [n] amounts that are each the
    outcome of [k] roundings: [magnitude] is the sum of the magnitudes of the
    exact amounts, [slack] the sum of what underflow can add to the amounts. *)
Definition tolerance (k n : nat) (magnitude slack : Q) : Q :=
  gamma (n + k) * magnitude + (1 + gamma n) * slack + gamma n * tiny.

(** The magnitudes of the binary64 amounts of the lines, added up. *)
Definition amounts_magnitude (items : list (LineItem spec_float)) : Q :=
  sum_of (fun item => Qabs (B2Q (lineTotal item)) + Qabs (B2Q (vatAmount item))) items.

(** ** Sample line items for the rounding of the totals *)

(** Two lines at the top of the binary64 range: the unit price is
    (2^53 - 1) * 2^970 and the first line carries a VAT rate of 1e-14. *)
Definition overflowing : list (LineItem spec_float) :=
  [ {| id := "0b0f7f0a-6f0e-4a53-8d0b-1c5a1f6e2a01";
       description := "Fornitura";
       quantity := JsNum (Binary64.of_Z 1);
       unitPrice := JsNum (Binary64.of_Z ((2 ^ 53 - 1) * 2 ^ 970));
       vatRate := JsNum (Binary64.decimal 1 (-14));
       vatNature := None |};
    {| id := "0b0f7f0a-6f0e-4a53-8d0b-1c5a1f6e2a02";
       description := "Fornitura";
       quantity := JsNum (Binary64.of_Z 1);
       unitPrice := JsNum (Binary64.of_Z ((2 ^ 53 - 1) * 2 ^ 970));
       vatRate := JsNum (Binary64.of_Z 0);
       vatNature := None |} ].

(** A line of 2^53 with a VAT amount of 1, and the line that takes the
    2^53 back. *)
Definition cancelling : list (LineItem spec_float) :=
  [ {| id := "0b0f7f0a-6f0e-4a53-8d0b-1c5a1f6e2a03";
       description := "Addebito";
       quantity := JsNum (Binary64.of_Z 1);
       unitPrice := JsNum (Binary64.of_Z (2 ^ 53));
       vatRate := JsNum (Binary64.div (Binary64.of_Z 100) (Binary64.of_Z (2 ^ 53)));
       vatNature := None |};
    {| id := "0b0f7f0a-6f0e-4a53-8d0b-1c5a1f6e2a04";
       description := "Storno";
       quantity := JsNum (Binary64.of_Z (-1));
       unitPrice := JsNum (Binary64.of_Z (2 ^ 53));
       vatRate := JsNum (Binary64.of_Z 0);
       vatNature := None |} ].

(** The consultancy line and a line of 3 pieces at 19.99. *)
Definition twoLines : list (LineItem spec_float) :=
  [ consulenza;
    {| id := "0b0f7f0a-6f0e-4a53-8d0b-1c5a1f6e2a05";
       description := "Materiale";
       quantity := JsNum (Binary64.of_Z 3);
       unitPrice := JsNum (Binary64.decimal 1999 (-2));
       vatRate := JsNum (Binary64.of_Z 22);
       vatNature := None |} ].

(** * Properties *)

(** ** Where the issues of the schema are reported *)

Section IssuePaths.

Lemma errors_at_app (q : list path_elem) (xs ys : list issue) :
  errors_at q (xs ++ ys) = errors_at q xs ++ errors_at q ys.
Proof.
  unfold errors_at. now rewrite filter_app, map_app.
Qed.

Lemma errors_at_at_path (q p : list path_elem) (fs : list failure) :
  errors_at q (at_path p fs) = if path_eqb p q then fs else [].
Proof.
  unfold errors_at, at_path.
  induction fs as [|f fs IH]; simpl.
  - now destruct (path_eqb p q).
  - destruct (path_eqb p q) eqn:E; simpl; now rewrite IH.
Qed.

Lemma path_eqb_length (p q : list path_elem) :
  path_eqb p q = true -> List.length p = List.length q.
Proof.
  revert q. induction p as [|a p IH]; intros [|b q]; simpl; try discriminate; auto.
  intros E. apply andb_true_iff in E. destruct E as [_ E]. f_equal. now apply IH.
Qed.

Lemma errors_at_other_length (n : nat) (q : list path_elem) (xs : list issue) :
  Forall (fun i => List.length (path i) = n) xs ->
  List.length q <> n ->
  errors_at q xs = [].
Proof.
  intros Hall Hq. unfold errors_at.
  induction Hall as [|i xs Hi _ IH]; simpl; auto.
  destruct (path_eqb (path i) q) eqn:E; auto.
  apply path_eqb_length in E. congruence.
Qed.

Lemma prop_length (p : list path_elem) (k : string) (fs : list failure) :
  Forall (fun i => List.length (path i) = S (List.length p)) (prop p k fs).
Proof.
  unfold prop, at_path. apply Forall_forall. intros i Hi.
  apply in_map_iff in Hi. destruct Hi as [f [<- _]]. simpl.
  rewrite length_app. simpl. lia.
Qed.

Lemma headerSchema_length (r : InvoiceFormData) :
  Forall (fun i => List.length (path i) = 1%nat) (headerSchema r).
Proof.
  unfold headerSchema.
  repeat (apply Forall_app; split); apply (prop_length []).
Qed.

Lemma lineItemSchema_row (i j : nat) (k : string) (item : LineItem spec_float) :
  errors_at [Key "lineItems"; Index i; Key k]
    (lineItemSchema [Key "lineItems"; Index j] item)
  = if Nat.eqb j i then errors_at [Key k] (lineItemSchema [] item) else [].
Proof.
  unfold lineItemSchema, prop.
  rewrite !errors_at_app, !errors_at_at_path. simpl.
  destruct (Nat.eqb j i); reflexivity.
Qed.

Lemma z_array_from_row (i k0 : nat) (k : string) (xs : list (LineItem spec_float)) :
  errors_at [Key "lineItems"; Index i; Key k]
    (z_array_from lineItemSchema [Key "lineItems"] k0 xs)
  = if (k0 <=? i)%nat then
      match nth_error xs (i - k0) with
      | Some item => errors_at [Key k] (lineItemSchema [] item)
      | None => []
      end
    else [].
Proof.
  revert k0. induction xs as [|x xs IH]; intros k0; simpl.
  - destruct (k0 <=? i)%nat; [destruct (i - k0)%nat|]; reflexivity.
  - rewrite errors_at_app, lineItemSchema_row, IH.
    destruct (Nat.eqb_spec k0 i) as [->|Hne].
    + rewrite Nat.leb_refl, Nat.sub_diag.
      replace (S i <=? i)%nat with false by (symmetry; apply Nat.leb_gt; lia).
      cbn [nth_error]. now rewrite app_nil_r.
    + cbn [app]. destruct (Nat.leb_spec k0 i) as [Hle|Hgt].
      * replace (S k0 <=? i)%nat with true by (symmetry; apply Nat.leb_le; lia).
        replace (i - k0)%nat with (S (i - S k0)) by lia. reflexivity.
      * replace (S k0 <=? i)%nat with false by (symmetry; apply Nat.leb_gt; lia).
        reflexivity.
Qed.

(** The failures reported for property [k] of row [i] are those the row's
    own schema reports for [k]. *)
Lemma invoiceSchema_row (r : InvoiceFormData) (i : nat) (k : string) :
  errors_at [Key "lineItems"; Index i; Key k] (invoiceSchema r)
  = match nth_error (lineItems r) i with
    | Some item => errors_at [Key k] (lineItemSchema [] item)
    | None => []
    end.
Proof.
  unfold invoiceSchema, lineItemsSchema, z_array_min.
  rewrite !errors_at_app.
  rewrite (@errors_at_other_length 1 _ _ (headerSchema_length r)) by (simpl; lia).
  rewrite errors_at_at_path, z_array_from_row. simpl.
  now rewrite Nat.sub_0_r.
Qed.

Lemma row_quantity (item : LineItem spec_float) :
  errors_at [Key "quantity"] (lineItemSchema [] item)
  = quantitySchema (quantity item).
Proof.
  unfold lineItemSchema, prop.
  rewrite !errors_at_app, !errors_at_at_path. simpl.
  now rewrite app_nil_r.
Qed.

Lemma row_vatNature (item : LineItem spec_float) :
  errors_at [Key "vatNature"] (lineItemSchema [] item)
  = vatNatureSchema (vatNature item).
Proof.
  unfold lineItemSchema, prop.
  rewrite !errors_at_app, !errors_at_at_path. reflexivity.
Qed.

(** The failures reported for [pecDestinatario] are those of its rule. *)
Lemma invoiceSchema_pecDestinatario (r : InvoiceFormData) :
  errors_at [Key "pecDestinatario"] (invoiceSchema r)
  = pecDestinatarioSchema (pecDestinatario r).
Proof.
  unfold invoiceSchema, lineItemsSchema, z_array_min, headerSchema, prop.
  rewrite !errors_at_app, !errors_at_at_path. simpl.
  rewrite app_nil_r.
  assert (Hrows : forall xs k0,
    errors_at [Key "pecDestinatario"]
      (z_array_from lineItemSchema [Key "lineItems"] k0 xs) = []).
  { induction xs as [|x xs IH]; intros k0; simpl; auto.
    rewrite errors_at_app, IH, app_nil_r.
    apply (@errors_at_other_length 3); [|simpl; lia].
    unfold lineItemSchema.
    repeat (apply Forall_app; split);
      apply (prop_length [Key "lineItems"; Index k0]). }
  now rewrite Hrows, app_nil_r.
Qed.

End IssuePaths.

(** ** Comparison of binary64 numbers *)

Section Comparison.

Lemma SFcompare_swap (x y : spec_float) :
  SFcompare y x = option_map CompOpp (SFcompare x y).
Proof.
  destruct x as [sx|sx| |sx mx ex], y as [sy|sy| |sy my ey]; simpl;
    try reflexivity;
    try (destruct sx; reflexivity);
    try (destruct sy; reflexivity);
    try (destruct sx, sy; reflexivity).
  destruct sx, sy; simpl; try reflexivity;
    rewrite (Z.compare_antisym ex ey);
    destruct (ex ?= ey)%Z; simpl; try reflexivity;
    now rewrite (Pos.compare_cont_antisym mx my Eq).
Qed.

Lemma SFcompare_defined (x y : spec_float) :
  Binary64.is_nan x = false -> Binary64.is_nan y = false ->
  exists c, SFcompare x y = Some c.
Proof.
  destruct x, y; simpl; intros; try discriminate; eauto.
Qed.

(** For numbers, [x < y] fails exactly when [x >= y] holds. *)
Lemma ltb_false_geb (x y : spec_float) :
  Binary64.is_nan x = false -> Binary64.is_nan y = false ->
  Binary64.ltb x y = false <-> Binary64.geb x y = true.
Proof.
  intros Hx Hy. unfold Binary64.ltb, Binary64.geb, SFltb, SFleb.
  rewrite (SFcompare_swap x y).
  destruct (SFcompare_defined x y Hx Hy) as [c ->]. simpl.
  destruct c; simpl; split; congruence.
Qed.

Lemma geb_number (x y : spec_float) :
  Binary64.geb x y = true -> Binary64.is_nan x = false.
Proof.
  unfold Binary64.geb, SFleb. destruct x; simpl; auto.
  destruct y; simpl; discriminate.
Qed.

(** Anything at most zero is below a positive number. *)
Lemma leb_zero_ltb_pos (x : spec_float) (m : positive) (e : Z) :
  Binary64.leb x (Binary64.of_Z 0) = true ->
  Binary64.ltb x (S754_finite false m e) = true.
Proof.
  unfold Binary64.leb, Binary64.ltb, SFleb, SFltb.
  destruct x as [s|s| |s mx ex]; simpl; try discriminate; auto;
    destruct s; simpl; auto; discriminate.
Qed.

End Comparison.

(** ** The validation schema *)

Lemma accepted_no_errors (r : InvoiceFormData) (p : list path_elem) :
  accepted r = true -> errors_at p (invoiceSchema r) = [].
Proof.
  unfold accepted. destruct (invoiceSchema r); [reflexivity | discriminate].
Qed.

Lemma errors_not_accepted (r : InvoiceFormData) (p : list path_elem) :
  errors_at p (invoiceSchema r) <> [] -> accepted r = false.
Proof.
  intros Herr. destruct (accepted r) eqn:E; auto.
  now rewrite (accepted_no_errors r p E) in Herr.
Qed.

Lemma quantity_bound_value :
  Binary64.decimal 1 (-2) = S754_finite false 5764607523034235 (-59).
Proof. vm_compute. reflexivity. Qed.

(** The quantity rule on a number: it passes from 0.01 upwards. *)
Lemma quantitySchema_number (q : spec_float) :
  quantitySchema (JsNum q) = [] <-> Binary64.geb q (Binary64.decimal 1 (-2)) = true.
Proof.
  unfold quantitySchema, z_number.
  destruct (Binary64.is_nan q) eqn:Hnan.
  - split; [discriminate|]. intros Hge. apply geb_number in Hge. congruence.
  - cbn [flat_map run_number_check]. rewrite app_nil_r.
    rewrite <- (ltb_false_geb q (Binary64.decimal 1 (-2)) Hnan)
      by (rewrite quantity_bound_value; reflexivity).
    destruct (Binary64.ltb q (Binary64.decimal 1 (-2))); split;
      intros; try discriminate; reflexivity.
Qed.

Lemma quantitySchema_nonpositive (q : spec_float) :
  Binary64.leb q (Binary64.of_Z 0) = true ->
  quantitySchema (JsNum q)
  = fail too_small (Some "Quantity must be greater than 0"%string).
Proof.
  intros Hle. unfold quantitySchema, z_number.
  assert (Hnan : Binary64.is_nan q = false)
    by (destruct q; simpl in *; auto; discriminate).
  rewrite Hnan. cbn [flat_map run_number_check]. rewrite app_nil_r.
  rewrite quantity_bound_value, (leb_zero_ltb_pos q _ _ Hle). reflexivity.
Qed.

(** C2, as the code has it: for every candidate record and every line item
    in it, the quantity rule reports no error if and only if the quantity is
    a number greater than or equal to 0.01; in particular every quantity that
    is zero or negative is reported with the message of the rule. *)
Theorem quantity_rule_threshold
    (r : InvoiceFormData) (i : nat) (item : LineItem spec_float) :
  nth_error (lineItems r) i = Some item ->
  (errors_at [Key "lineItems"; Index i; Key "quantity"] (invoiceSchema r) = []
   <-> exists q, quantity item = JsNum q
              /\ Binary64.geb q (Binary64.decimal 1 (-2)) = true)
  /\ (forall q, quantity item = JsNum q ->
        Binary64.leb q (Binary64.of_Z 0) = true ->
        errors_at [Key "lineItems"; Index i; Key "quantity"] (invoiceSchema r)
        = fail too_small (Some "Quantity must be greater than 0"%string)).
Proof.
  intros Hitem. rewrite invoiceSchema_row, Hitem, row_quantity. split.
  - split.
    + destruct (quantity item) as [| |q] eqn:Hq; try discriminate.
      intros Hok. exists q. split; [reflexivity|]. now apply quantitySchema_number.
    + intros [q [-> Hge]]. now apply quantitySchema_number.
  - intros q -> Hle. now apply quantitySchema_nonpositive.
Qed.

Lemma quantity_rule_threshold_witness :
  nth_error (lineItems (sampleInvoice None [consulenza])) 0 = Some consulenza
  /\ ((errors_at [Key "lineItems"; Index 0; Key "quantity"]
         (invoiceSchema (sampleInvoice None [consulenza])) = []
       <-> exists q, quantity (consulenza (num := spec_float)) = JsNum q
                  /\ Binary64.geb q (Binary64.decimal 1 (-2)) = true)
      /\ (forall q, quantity (consulenza (num := spec_float)) = JsNum q ->
            Binary64.leb q (Binary64.of_Z 0) = true ->
            errors_at [Key "lineItems"; Index 0; Key "quantity"]
              (invoiceSchema (sampleInvoice None [consulenza]))
            = fail too_small (Some "Quantity must be greater than 0"%string))).
Proof.
  split; [reflexivity|].
  apply (quantity_rule_threshold (sampleInvoice None [consulenza]) 0).
  reflexivity.
Defined.

(** C2, as the claim words it, fails: the quantity 0.005 is strictly greater
    than 0, yet the quantity rule reports it and the record is refused. *)
Lemma quantity_rule_rejects_small_positive :
  Binary64.gtb (Binary64.decimal 5 (-3)) (Binary64.of_Z 0) = true
  /\ errors_at [Key "lineItems"; Index 0; Key "quantity"]
       (invoiceSchema
          (sampleInvoice None
             [priced consulenza (JsNum (Binary64.decimal 5 (-3)))
                (unitPrice consulenza) (vatRate consulenza)]))
     = fail too_small (Some "Quantity must be greater than 0"%string)
  /\ accepted
       (sampleInvoice None
          [priced consulenza (JsNum (Binary64.decimal 5 (-3)))
             (unitPrice consulenza) (vatRate consulenza)]) = false.
Proof. vm_compute. auto. Qed.

Lemma vatNatureSchema_spec (v : option string) :
  vatNatureSchema v = []
  <-> v = None \/ exists s, v = Some s /\ In s vatNatureCodes.
Proof.
  unfold vatNatureSchema, optional, z_enum. destruct v as [s|].
  - destruct (existsb (String.eqb s) vatNatureCodes) eqn:E.
    + split; [|reflexivity]. intros _. right. exists s. split; [reflexivity|].
      apply existsb_exists in E. destruct E as [c [Hin Heq]].
      apply String.eqb_eq in Heq. now subst.
    + split; [discriminate|]. intros [Hnone|[s' [Hs Hin]]]; [discriminate|].
      injection Hs as <-.
      assert (existsb (String.eqb s) vatNatureCodes = true).
      { apply existsb_exists. exists s. split; [assumption|apply String.eqb_refl]. }
      congruence.
  - split; auto.
Qed.

(** C3, as the code has it: [vatNature] is never required.  For every line
    item submitted to validation, whatever its VAT rate, no [vatNature] error
    is reported exactly when [vatNature] is missing or is one of the seven
    codes N1..N7. *)
Theorem vatNature_always_optional
    (r : InvoiceFormData) (i : nat) (item : LineItem spec_float) :
  nth_error (lineItems r) i = Some item ->
  (errors_at [Key "lineItems"; Index i; Key "vatNature"] (invoiceSchema r) = []
   <-> vatNature item = None
       \/ exists s, vatNature item = Some s /\ In s vatNatureCodes).
Proof.
  intros Hitem. rewrite invoiceSchema_row, Hitem, row_vatNature.
  apply vatNatureSchema_spec.
Qed.

Lemma vatNature_always_optional_witness :
  nth_error
    (lineItems
       (sampleInvoice None
          [priced consulenza (quantity consulenza) (unitPrice consulenza)
             (JsNum (Binary64.of_Z 0))])) 0
  = Some (priced consulenza (quantity consulenza) (unitPrice consulenza)
            (JsNum (Binary64.of_Z 0)))
  /\ (errors_at [Key "lineItems"; Index 0; Key "vatNature"]
        (invoiceSchema
           (sampleInvoice None
              [priced consulenza (quantity consulenza) (unitPrice consulenza)
                 (JsNum (Binary64.of_Z 0))])) = []
      <-> vatNature
            (priced (consulenza (num := spec_float)) (quantity consulenza)
               (unitPrice consulenza) (JsNum (Binary64.of_Z 0))) = None
          \/ exists s,
               vatNature
                 (priced (consulenza (num := spec_float)) (quantity consulenza)
                    (unitPrice consulenza) (JsNum (Binary64.of_Z 0))) = Some s
               /\ In s vatNatureCodes).
Proof.
  split; [reflexivity|].
  apply (vatNature_always_optional
           (sampleInvoice None
              [priced consulenza (quantity consulenza) (unitPrice consulenza)
                 (JsNum (Binary64.of_Z 0))]) 0).
  reflexivity.
Defined.

(** C3, as the claim words it, fails: a line item with VAT rate 0 and no
    [vatNature] raises no error and the record holding it is accepted. *)
Lemma zero_rate_without_vatNature_accepted :
  vatRate
    (priced (consulenza (num := spec_float)) (quantity consulenza)
       (unitPrice consulenza) (JsNum (Binary64.of_Z 0)))
  = JsNum (S754_zero false)
  /\ vatNature
       (priced (consulenza (num := spec_float)) (quantity consulenza)
          (unitPrice consulenza) (JsNum (Binary64.of_Z 0))) = None
  /\ invoiceSchema
       (sampleInvoice None
          [priced consulenza (quantity consulenza) (unitPrice consulenza)
             (JsNum (Binary64.of_Z 0))]) = []
  /\ accepted
       (sampleInvoice None
          [priced consulenza (quantity consulenza) (unitPrice consulenza)
             (JsNum (Binary64.of_Z 0))]) = true.
Proof. vm_compute. auto. Qed.

Lemma pecDestinatarioSchema_invalid (s : string) :
  Regex.matches emailRegex s = false ->
  pecDestinatarioSchema (Some s) = fail invalid_string None.
Proof.
  intros Hs. unfold pecDestinatarioSchema, optional, z_string.
  cbn [flat_map run_string_check]. now rewrite Hs.
Qed.

(** C7: a record whose [pecDestinatario] is present but is not a
    syntactically valid e-mail address is rejected with an error on that
    field, as is the case for "not-an-email"; a record that leaves
    [pecDestinatario] out raises no error on that field. *)
Theorem pecDestinatario_rule (r : InvoiceFormData) :
  (forall s, pecDestinatario r = Some s ->
     Regex.matches emailRegex s = false ->
     errors_at [Key "pecDestinatario"] (invoiceSchema r) = fail invalid_string None
     /\ accepted r = false)
  /\ (pecDestinatario r = Some "not-an-email"%string ->
      errors_at [Key "pecDestinatario"] (invoiceSchema r) = fail invalid_string None
      /\ accepted r = false)
  /\ (pecDestinatario r = None ->
      errors_at [Key "pecDestinatario"] (invoiceSchema r) = []).
Proof.
  assert (Hbad : forall s, pecDestinatario r = Some s ->
            Regex.matches emailRegex s = false ->
            errors_at [Key "pecDestinatario"] (invoiceSchema r)
            = fail invalid_string None /\ accepted r = false).
  { intros s Hpec Hs.
    assert (Herr : errors_at [Key "pecDestinatario"] (invoiceSchema r)
                   = fail invalid_string None)
      by (rewrite invoiceSchema_pecDestinatario, Hpec;
          now apply pecDestinatarioSchema_invalid).
    split; [exact Herr|].
    apply (errors_not_accepted r [Key "pecDestinatario"]).
    rewrite Herr. discriminate. }
  split; [exact Hbad|]. split.
  - intros Hpec. apply (Hbad _ Hpec). vm_compute. reflexivity.
  - intros Hpec. now rewrite invoiceSchema_pecDestinatario, Hpec.
Qed.

Lemma pecDestinatario_rule_witness :
  (pecDestinatario (sampleInvoice (Some "not-an-email"%string) [consulenza])
   = Some "not-an-email"%string
   /\ errors_at [Key "pecDestinatario"]
        (invoiceSchema (sampleInvoice (Some "not-an-email"%string) [consulenza]))
      = fail invalid_string None
   /\ accepted (sampleInvoice (Some "not-an-email"%string) [consulenza]) = false)
  /\ (pecDestinatario (sampleInvoice None [consulenza]) = None
      /\ errors_at [Key "pecDestinatario"]
           (invoiceSchema (sampleInvoice None [consulenza])) = []
      /\ accepted (sampleInvoice None [consulenza]) = true).
Proof.
  split.
  - split; [reflexivity|].
    apply (pecDestinatario_rule
             (sampleInvoice (Some "not-an-email"%string) [consulenza])).
    reflexivity.
  - split; [reflexivity|]. split.
    + apply (pecDestinatario_rule (sampleInvoice None [consulenza])).
      reflexivity.
    + vm_compute. reflexivity.
Defined.

(** C10: a record whose [pecDestinatario] is the empty string is rejected:
    the empty string is a present value, and it is not a syntactically valid
    e-mail address; only a field left [undefined] skips the e-mail rule. *)
Theorem pecDestinatario_empty_string_rejected (r : InvoiceFormData) :
  pecDestinatario r = Some EmptyString ->
  errors_at [Key "pecDestinatario"] (invoiceSchema r) = fail invalid_string None
  /\ accepted r = false.
Proof.
  intros Hpec.
  assert (Herr : errors_at [Key "pecDestinatario"] (invoiceSchema r)
                 = fail invalid_string None)
    by (rewrite invoiceSchema_pecDestinatario, Hpec;
        apply pecDestinatarioSchema_invalid; vm_compute; reflexivity).
  split; [exact Herr|].
  apply (errors_not_accepted r [Key "pecDestinatario"]).
  rewrite Herr. discriminate.
Qed.

Lemma pecDestinatario_empty_string_rejected_witness :
  pecDestinatario (sampleInvoice (Some EmptyString) [consulenza]) = Some EmptyString
  /\ errors_at [Key "pecDestinatario"]
       (invoiceSchema (sampleInvoice (Some EmptyString) [consulenza]))
     = fail invalid_string None
  /\ accepted (sampleInvoice (Some EmptyString) [consulenza]) = false.
Proof.
  split; [reflexivity|].
  apply (pecDestinatario_empty_string_rejected
           (sampleInvoice (Some EmptyString) [consulenza])).
  reflexivity.
Defined.

(** ** The line-item editor *)

Section EditorProperties.

Context {num : Type} `{JsNumber num}.

Lemma step_nonempty (fields : list (LineItem num)) (t : Editor.transition) :
  (1 <= List.length fields)%nat ->
  (1 <= List.length (Editor.step fields t))%nat.
Proof.
  intros Hlen. destruct t as [uuid|index]; simpl.
  - unfold Editor.addLineItem, Editor.append. rewrite length_app. simpl. lia.
  - unfold Editor.removeButtonRendered.
    destruct (Nat.ltb_spec index (List.length fields)) as [Hin|Hout];
      destruct (Nat.ltb_spec 1 (List.length fields)) as [Hmany|Hone];
      simpl; try assumption.
    unfold Editor.remove.
    rewrite length_app, length_firstn, length_skipn. lia.
Qed.

Lemma fold_step_nonempty (ts : list Editor.transition) (fields : list (LineItem num)) :
  (1 <= List.length fields)%nat ->
  (1 <= List.length (fold_left Editor.step ts fields))%nat.
Proof.
  revert fields. induction ts as [|t ts IH]; intros fields Hlen; simpl.
  - assumption.
  - apply IH. now apply step_nonempty.
Qed.

End EditorProperties.

(** C4: starting from the one default item, every sequence of Add and
    Remove(index) transitions leaves a non-empty list; Remove changes
    nothing when exactly one item remains, and where it is allowed it takes
    away exactly one item. *)
Theorem editor_never_empty {num : Type} `{JsNumber num}
    (uuid0 : string) (ts : list Editor.transition) :
  (1 <= List.length (Editor.run (num := num) uuid0 ts))%nat
  /\ List.length (Editor.run (num := num) uuid0 []) = 1%nat
  /\ (forall (fields : list (LineItem num)) (index : nat),
        List.length fields = 1%nat ->
        Editor.step fields (Editor.Remove index) = fields)
  /\ (forall (fields : list (LineItem num)) (index : nat),
        Editor.removeButtonRendered fields index = true ->
        S (List.length (Editor.step fields (Editor.Remove index)))
        = List.length fields).
Proof.
  split; [|split; [|split]].
  - unfold Editor.run. apply fold_step_nonempty. simpl. lia.
  - reflexivity.
  - intros fields index Hone. simpl. unfold Editor.removeButtonRendered.
    rewrite Hone. simpl. now rewrite andb_false_r.
  - intros fields index Hshown. simpl. rewrite Hshown.
    unfold Editor.removeButtonRendered in Hshown.
    apply andb_true_iff in Hshown. destruct Hshown as [Hin _].
    apply Nat.ltb_lt in Hin.
    unfold Editor.remove. rewrite length_app, length_firstn, length_skipn. lia.
Qed.

Lemma editor_never_empty_witness :
  (1 <= List.length
          (Editor.run (num := spec_float) "u0"
             [Editor.Remove 0; Editor.Add "u1"; Editor.Remove 0; Editor.Remove 0]))%nat
  /\ Editor.step (Editor.initialLineItems (num := spec_float) "u0") (Editor.Remove 0)
     = Editor.initialLineItems "u0"
  /\ S (List.length
          (Editor.step
             (Editor.addLineItem (num := spec_float) "u1" (Editor.initialLineItems "u0"))
             (Editor.Remove 1)))
     = List.length
         (Editor.addLineItem (num := spec_float) "u1" (Editor.initialLineItems "u0")).
Proof.
  split; [|split].
  - apply (editor_never_empty (num := spec_float) "u0").
  - apply (editor_never_empty (num := spec_float) "u0" []). reflexivity.
  - apply (editor_never_empty (num := spec_float) "u0" []). reflexivity.
Defined.

(** C8: for every list of line items, Add yields a list one longer, whose
    earlier items are the old ones in the same order and whose last item
    carries the freshly generated identifier and the default values:
    empty description, quantity 1, unit price 0, VAT rate 22, no VAT nature. *)
Theorem addLineItem_appends_default {num : Type} `{JsNumber num}
    (uuid : string) (fields : list (LineItem num)) :
  List.length (Editor.addLineItem uuid fields) = S (List.length fields)
  /\ firstn (List.length fields) (Editor.addLineItem uuid fields) = fields
  /\ (forall i item, nth_error fields i = Some item ->
        nth_error (Editor.addLineItem uuid fields) i = Some item)
  /\ nth_error (Editor.addLineItem uuid fields) (List.length fields)
     = Some {| id := uuid;
               description := EmptyString;
               quantity := JsNum (num_of_Z 1);
               unitPrice := JsNum (num_of_Z 0);
               vatRate := JsNum (num_of_Z 22);
               vatNature := None |}
  /\ Editor.step fields (Editor.Add uuid) = Editor.addLineItem uuid fields.
Proof.
  unfold Editor.addLineItem, Editor.append.
  split; [|split; [|split; [|split]]].
  - rewrite length_app. simpl. lia.
  - rewrite firstn_app, Nat.sub_diag, firstn_all. simpl. apply app_nil_r.
  - intros i item Hi. rewrite nth_error_app1; [assumption|].
    apply nth_error_Some. congruence.
  - rewrite nth_error_app2 by lia. rewrite Nat.sub_diag. reflexivity.
  - reflexivity.
Qed.

Lemma addLineItem_appends_default_witness :
  nth_error (Editor.initialLineItems (num := spec_float) "u0") 0
  = Some (defaultLineItem "u0")
  /\ nth_error (Editor.addLineItem "u1" (Editor.initialLineItems (num := spec_float) "u0")) 0
     = Some (defaultLineItem "u0").
Proof.
  split; [reflexivity|].
  apply (addLineItem_appends_default (num := spec_float) "u1"
           (Editor.initialLineItems "u0")).
  reflexivity.
Defined.

(** ** The totals calculator *)

Section TotalsGeneric.

Context {num : Type} `{JsNumber num}.

Lemma totals_step_amounts (acc : Totals num) (item : LineItem num) :
  totals_step acc item
  = {| subtotal := num_add (subtotal acc) (lineTotal item);
       vatTotal := num_add (vatTotal acc) (vatAmount item);
       total := num_add (total acc) (num_add (lineTotal item) (vatAmount item)) |}.
Proof. reflexivity. Qed.

Lemma or_zero_fill_missing (v : jsval num) :
  or_zero (fill_missing v) = or_zero v.
Proof.
  destruct v; simpl; try reflexivity.
  destruct (num_truthy (num_of_Z 0)); reflexivity.
Qed.

Lemma totals_step_fill_missing (acc : Totals num) (item : LineItem num) :
  totals_step acc (fill_missing_item item) = totals_step acc item.
Proof.
  unfold totals_step, fill_missing_item, priced. cbn [quantity unitPrice vatRate].
  now rewrite !or_zero_fill_missing.
Qed.

Lemma fold_totals_step_map (g : LineItem num -> LineItem num)
    (items : list (LineItem num)) (acc : Totals num) :
  (forall a item, totals_step a (g item) = totals_step a item) ->
  fold_left totals_step (map g items) acc = fold_left totals_step items acc.
Proof.
  intros Hg. revert acc. induction items as [|item items IH]; intros acc; simpl.
  - reflexivity.
  - now rewrite Hg, IH.
Qed.

(** Each of the three sums is accumulated on its own, from left to right. *)
Lemma fold_totals_components (items : list (LineItem num)) (acc : Totals num) :
  subtotal (fold_left totals_step items acc)
  = fold_left num_add (map lineTotal items) (subtotal acc)
  /\ vatTotal (fold_left totals_step items acc)
     = fold_left num_add (map vatAmount items) (vatTotal acc)
  /\ total (fold_left totals_step items acc)
     = fold_left num_add
         (map (fun item => num_add (lineTotal item) (vatAmount item)) items)
         (total acc).
Proof.
  revert acc. induction items as [|item items IH]; intros acc.
  - simpl. auto.
  - cbn [fold_left map]. destruct (IH (totals_step acc item)) as [Hs [Hv Ht]].
    rewrite Hs, Hv, Ht, totals_step_amounts. cbn [subtotal vatTotal total]. auto.
Qed.

End TotalsGeneric.

(** C5: on the empty sequence of line items the totals calculator returns
    subtotal 0, vatTotal 0 and total 0, in binary64 as in exact arithmetic;
    it does so although validation refuses a record without line items. *)
Theorem totals_empty :
  totals (@nil (LineItem spec_float))
  = {| subtotal := S754_zero false; vatTotal := S754_zero false;
       total := S754_zero false |}
  /\ totals (@nil (LineItem Q)) = {| subtotal := 0; vatTotal := 0; total := 0 |}
  /\ errors_at [Key "lineItems"] (invoiceSchema (sampleInvoice None []))
     = fail too_small (Some "At least one line item is required"%string)
  /\ accepted (sampleInvoice None []) = false.
Proof. vm_compute. auto. Qed.

(** C6: for every sequence of line items, the totals are those of the same
    sequence in which every missing (undefined) quantity, unit price or VAT
    rate has been replaced by 0. *)
Theorem totals_missing_as_zero {num : Type} `{JsNumber num}
    (items : list (LineItem num)) :
  totals items = totals (map fill_missing_item items).
Proof.
  unfold totals. symmetry.
  apply fold_totals_step_map. intros a item. apply totals_step_fill_missing.
Qed.

(** *** Exact arithmetic *)

Section TotalsExact.

Local Open Scope Q_scope.

Lemma or_zero_exact (v : jsval Q) : or_zero v == field_value v.
Proof.
  destruct v as [| |x]; simpl; try reflexivity.
  destruct (Qeq_bool x 0) eqn:E; simpl.
  - apply Qeq_bool_iff in E. now rewrite E.
  - reflexivity.
Qed.

Lemma lineTotal_exact (item : LineItem Q) :
  lineTotal item == field_value (quantity item) * field_value (unitPrice item).
Proof.
  unfold lineTotal. cbn [num_mul exact_number]. now rewrite !or_zero_exact.
Qed.

Lemma vatAmount_exact (item : LineItem Q) :
  vatAmount item
  == field_value (quantity item) * field_value (unitPrice item)
     * field_value (vatRate item) / 100.
Proof.
  unfold vatAmount. cbn [num_mul num_div num_of_Z exact_number].
  rewrite lineTotal_exact, or_zero_exact.
  change (inject_Z 100) with 100. field.
Qed.

(** The reduction started from any accumulator adds the sums of the line
    amounts to it. *)
Lemma fold_totals_exact (items : list (LineItem Q)) (acc : Totals Q) :
  subtotal (fold_left totals_step items acc)
  == subtotal acc + sigma lineTotal items
  /\ vatTotal (fold_left totals_step items acc)
     == vatTotal acc + sigma vatAmount items
  /\ total (fold_left totals_step items acc)
     == total acc + (sigma lineTotal items + sigma vatAmount items).
Proof.
  revert acc. induction items as [|item items IH]; intros acc.
  - simpl. repeat split; ring.
  - cbn [fold_left sigma fold_right].
    destruct (IH (totals_step acc item)) as [Hs [Hv Ht]].
    rewrite Hs, Hv, Ht, totals_step_amounts. cbn [subtotal vatTotal total].
    fold (sigma lineTotal items). fold (sigma vatAmount items).
    cbn [num_add exact_number]. repeat split; ring.
Qed.

Lemma sigma_ext (f g : LineItem Q -> Q) (items : list (LineItem Q)) :
  (forall item, f item == g item) -> sigma f items == sigma g items.
Proof.
  intros Hfg. induction items as [|item items IH]; simpl.
  - reflexivity.
  - now rewrite Hfg, IH.
Qed.

End TotalsExact.

(** *** Binary64: where NaN can come from *)

Section Rounding.

Variables prec emax : Z.

Lemma iter_pos_invariant (A : Type) (P : A -> Prop) (f : A -> A) :
  (forall x, P x -> P (f x)) ->
  forall (n : positive) (x : A), P x -> P (iter_pos f n x).
Proof.
  intros Hf. induction n as [n IH|n IH|]; intros x Hx; simpl; auto.
Qed.

Lemma shr_1_nonneg (mrs : shr_record) :
  (0 <= shr_m mrs)%Z -> (0 <= shr_m (shr_1 mrs))%Z.
Proof.
  destruct mrs as [m r s]. simpl.
  destruct m as [|p|p]; simpl; try lia; destruct p; simpl; lia.
Qed.

Lemma shr_fexp_nonneg (m e : Z) (l : location) :
  (0 <= m)%Z -> (0 <= shr_m (fst (shr_fexp prec emax m e l)))%Z.
Proof.
  intros Hm. unfold shr_fexp, shr.
  assert (H0 : (0 <= shr_m (shr_record_of_loc m l))%Z)
    by (destruct l as [|[| |]]; exact Hm).
  destruct (fexp prec emax (Zdigits2 m + e) - e)%Z; simpl; auto.
  now apply (iter_pos_invariant (fun mrs => 0 <= shr_m mrs)%Z shr_1 shr_1_nonneg).
Qed.

Lemma round_nearest_even_nonneg (m : Z) (l : location) :
  (0 <= m)%Z -> (0 <= round_nearest_even m l)%Z.
Proof.
  intros Hm. destruct l as [|[| |]]; simpl; try lia.
  destruct (Z.even m); lia.
Qed.

(** Rounding a non-negative mantissa gives a zero, a finite number or an
    infinity. *)
Lemma binary_round_aux_not_nan (s : bool) (m e : Z) (l : location) :
  (0 <= m)%Z -> binary_round_aux prec emax s m e l <> S754_nan.
Proof.
  intros Hm. unfold binary_round_aux.
  pose proof (shr_fexp_nonneg e l Hm) as H1.
  destruct (shr_fexp prec emax m e l) as [mrs' e']. simpl in H1.
  pose proof (shr_fexp_nonneg e' loc_Exact
                (round_nearest_even_nonneg (loc_of_shr_record mrs') H1)) as H2.
  destruct (shr_fexp prec emax
              (round_nearest_even (shr_m mrs') (loc_of_shr_record mrs')) e' loc_Exact)
    as [mrs'' e'']. simpl in H2.
  destruct (shr_m mrs'') as [|p|p]; try discriminate; [|lia].
  destruct (e'' <=? emax - prec)%Z; discriminate.
Qed.

Lemma binary_normalize_not_nan (m e : Z) (szero : bool) :
  binary_normalize prec emax m e szero <> S754_nan.
Proof.
  destruct m as [|p|p]; simpl; try discriminate;
    unfold binary_round;
    destruct (shl_align p e (fexp prec emax (Z.pos (digits2_pos p) + e)));
    apply binary_round_aux_not_nan; lia.
Qed.

End Rounding.

Section NaNFree.

Lemma not_nan_is_nan (x : spec_float) :
  x <> S754_nan -> Binary64.is_nan x = false.
Proof. destruct x; simpl; congruence. Qed.

(** Adding a finite number to a number never gives NaN. *)
Lemma add_not_nan (x y : spec_float) :
  Binary64.is_nan x = false -> Binary64.is_finite y = true ->
  Binary64.is_nan (Binary64.add x y) = false.
Proof.
  intros Hx Hy.
  destruct x as [sx|sx| |sx mx ex], y as [sy|sy| |sy my ey];
    try discriminate; try reflexivity;
    try (destruct sx, sy; reflexivity).
  apply not_nan_is_nan, binary_normalize_not_nan.
Qed.

Lemma or_zero_drop_invalid (v : jsval spec_float) :
  or_zero (drop_invalid v) = or_zero v.
Proof.
  destruct v as [| |x]; try reflexivity.
  destruct x; reflexivity.
Qed.

Lemma totals_step_drop_invalid (acc : Totals spec_float) (item : LineItem spec_float) :
  totals_step acc (drop_invalid_item item) = totals_step acc item.
Proof.
  unfold totals_step, drop_invalid_item, priced. cbn [quantity unitPrice vatRate].
  now rewrite !or_zero_drop_invalid.
Qed.

(** The reduction keeps its three sums free of NaN as long as the amounts
    of each line are finite. *)
Lemma fold_totals_not_nan (items : list (LineItem spec_float)) (acc : Totals spec_float) :
  Forall (fun item => line_in_range item = true) items ->
  Binary64.is_nan (subtotal acc) = false ->
  Binary64.is_nan (vatTotal acc) = false ->
  Binary64.is_nan (total acc) = false ->
  Binary64.is_nan (subtotal (fold_left totals_step items acc)) = false
  /\ Binary64.is_nan (vatTotal (fold_left totals_step items acc)) = false
  /\ Binary64.is_nan (total (fold_left totals_step items acc)) = false.
Proof.
  intros Hall. revert acc.
  induction Hall as [|item items Hitem _ IH]; intros acc Hs Hv Ht.
  - simpl. auto.
  - cbn [fold_left]. unfold line_in_range in Hitem.
    apply andb_true_iff in Hitem. destruct Hitem as [Hitem Hsum].
    apply andb_true_iff in Hitem. destruct Hitem as [Hline Hvat].
    apply IH; rewrite totals_step_amounts; cbn [subtotal vatTotal total];
      now apply add_not_nan.
Qed.

End NaNFree.

(** C9, as the code has it: a quantity, unit price or VAT rate that is NaN
    or null counts as a missing field, so that it contributes 0 to every
    sum; and for every sequence in which the amounts of each line (its line
    total, its VAT amount and their sum) are finite, that is, have not
    overflowed, the returned subtotal, vatTotal and total are never NaN. *)
Theorem totals_invalid_as_missing (items : list (LineItem spec_float)) :
  totals items = totals (map drop_invalid_item items)
  /\ (Forall (fun item => line_in_range item = true) items ->
      Binary64.is_nan (subtotal (totals items)) = false
      /\ Binary64.is_nan (vatTotal (totals items)) = false
      /\ Binary64.is_nan (total (totals items)) = false).
Proof.
  split.
  - unfold totals. symmetry.
    apply fold_totals_step_map. intros a item. apply totals_step_drop_invalid.
  - intros Hall. unfold totals.
    apply fold_totals_not_nan; [exact Hall| | |]; reflexivity.
Qed.

Lemma totals_invalid_as_missing_witness :
  Forall (fun item => line_in_range item = true)
    [consulenza; priced consulenza (JsNum S754_nan) JsNull (vatRate consulenza)]
  /\ (Binary64.is_nan
        (subtotal
           (totals
              [consulenza;
               priced consulenza (JsNum S754_nan) JsNull (vatRate consulenza)]))
      = false
      /\ Binary64.is_nan
           (vatTotal
              (totals
                 [consulenza;
                  priced consulenza (JsNum S754_nan) JsNull (vatRate consulenza)]))
         = false
      /\ Binary64.is_nan
           (total
              (totals
                 [consulenza;
                  priced consulenza (JsNum S754_nan) JsNull (vatRate consulenza)]))
         = false).
Proof.
  assert (Hall : Forall (fun item => line_in_range item = true)
            [consulenza;
             priced consulenza (JsNum S754_nan) JsNull (vatRate consulenza)])
    by (repeat constructor).
  split; [exact Hall|].
  apply (totals_invalid_as_missing
           [consulenza;
            priced consulenza (JsNum S754_nan) JsNull (vatRate consulenza)]).
  exact Hall.
Defined.

(** C9, as the claim words it, fails: the line item with quantity 1e308,
    unit price 1e308 and VAT rate 0 has three finite fields and passes
    validation, yet its line total overflows to +Infinity and the returned
    vatTotal and total are NaN. *)
Lemma totals_nan_from_finite_fields :
  finite_field (JsNum (Binary64.decimal 1 308)) = true
  /\ finite_field (JsNum (Binary64.of_Z 0)) = true
  /\ accepted
       (sampleInvoice None
          [priced consulenza (JsNum (Binary64.decimal 1 308))
             (JsNum (Binary64.decimal 1 308)) (JsNum (Binary64.of_Z 0))]) = true
  /\ totals
       [priced consulenza (JsNum (Binary64.decimal 1 308))
          (JsNum (Binary64.decimal 1 308)) (JsNum (Binary64.of_Z 0))]
     = {| subtotal := S754_infinity false;
          vatTotal := S754_nan;
          total := S754_nan |}.
Proof. vm_compute. auto. Qed.

(** ** The rules of the schema, one by one *)

Section Rules.

(** A text that is not empty has a [length] of at least 1. *)
Lemma utf16_length_nonempty (s : string) :
  (1 <= Utf16.length s)%nat <-> (1 <= String.length s)%nat.
Proof.
  unfold Utf16.length. destruct s as [|c s]; cbn [Utf16.length_from String.length];
    [split; lia|].
  split; [lia|]. intros _.
  assert (Hlead : (1 <= fst (Utf16.lead c))%nat).
  { unfold Utf16.lead.
    repeat match goal with
    | |- context [if ?b then _ else _] => destruct b
    end; simpl; lia. }
  lia.
Qed.

Lemma length_at_least_one (v : option string) :
  length_at_least 1 v <-> text_at_least 1 v.
Proof.
  unfold length_at_least, text_at_least.
  split; intros [s [Hs Hlen]]; exists s; split; auto;
    now apply utf16_length_nonempty.
Qed.

Lemma z_string_min_ok (n : nat) (msg : string) (v : option string) :
  z_string [SMin n msg] v = [] <-> length_at_least n v.
Proof.
  unfold z_string, length_at_least. destruct v as [s|].
  - cbn [flat_map run_string_check]. rewrite app_nil_r.
    destruct (Nat.ltb_spec (Utf16.length s) n) as [Hlt|Hge]; split.
    + discriminate.
    + intros [s' [Hs Hle]]. injection Hs as <-. lia.
    + intros _. exists s. auto.
    + reflexivity.
  - split; [discriminate|]. intros [s [Hs _]]. discriminate.
Qed.

Lemma z_string_min1_ok (msg : string) (v : option string) :
  z_string [SMin 1 msg] v = [] <-> text_at_least 1 v.
Proof. rewrite z_string_min_ok. apply length_at_least_one. Qed.

Lemma z_string_min_short (n : nat) (msg : string) (s : string) :
  (Utf16.length s < n)%nat ->
  z_string [SMin n msg] (Some s) = fail too_small (Some msg).
Proof.
  intros Hlt. unfold z_string. cbn [flat_map run_string_check].
  apply Nat.ltb_lt in Hlt. now rewrite Hlt.
Qed.

Lemma z_string_length_ok (n : nat) (msg : string) (v : option string) :
  z_string [SLength n msg] v = [] <-> text_of_length n v.
Proof.
  unfold z_string, text_of_length. destruct v as [s|].
  - cbn [flat_map run_string_check]. rewrite app_nil_r.
    destruct (Nat.ltb_spec n (Utf16.length s)) as [Hlong|Hnot];
      [|destruct (Nat.ltb_spec (Utf16.length s) n) as [Hshort|Hnot']]; split;
      try discriminate; try reflexivity.
    + intros [s' [Hs Hlen]]. injection Hs as <-. lia.
    + intros [s' [Hs Hlen]]. injection Hs as <-. lia.
    + intros _. exists s. split; [reflexivity|lia].
  - split; [discriminate|]. intros [s [Hs _]]. discriminate.
Qed.

Lemma z_string_length_long (n : nat) (msg : string) (s : string) :
  (n < Utf16.length s)%nat ->
  z_string [SLength n msg] (Some s) = fail too_big (Some msg).
Proof.
  intros Hlt. unfold z_string. cbn [flat_map run_string_check].
  apply Nat.ltb_lt in Hlt. now rewrite Hlt.
Qed.

Lemma z_string_length_short (n : nat) (msg : string) (s : string) :
  (Utf16.length s < n)%nat ->
  z_string [SLength n msg] (Some s) = fail too_small (Some msg).
Proof.
  intros Hlt. unfold z_string. cbn [flat_map run_string_check].
  replace (n <? Utf16.length s)%nat with false
    by (symmetry; apply Nat.ltb_ge; lia).
  apply Nat.ltb_lt in Hlt. now rewrite Hlt.
Qed.

Lemma z_enum_ok (codes : list string) (v : option string) :
  z_enum codes v = [] <-> one_of_codes codes v.
Proof.
  unfold z_enum, one_of_codes. destruct v as [s|].
  - destruct (existsb (String.eqb s) codes) eqn:E.
    + split; [|reflexivity]. intros _. exists s. split; [reflexivity|].
      apply existsb_exists in E. destruct E as [c [Hin Heq]].
      apply String.eqb_eq in Heq. now subst.
    + split; [discriminate|]. intros [s' [Hs Hin]]. injection Hs as <-.
      assert (existsb (String.eqb s) codes = true).
      { apply existsb_exists. exists s. split; [assumption|apply String.eqb_refl]. }
      congruence.
  - split; [discriminate|]. intros [s [Hs _]]. discriminate.
Qed.

Lemma free_text_ok (v : option string) : optional (z_string []) v = [].
Proof. destruct v; reflexivity. Qed.

Lemma default_text_ok (d : string) (v : option string) : default d (z_string []) v = [].
Proof. destruct v; reflexivity. Qed.

Lemma pecDestinatarioSchema_ok (v : option string) :
  pecDestinatarioSchema v = []
  <-> v = None \/ exists s, v = Some s /\ Regex.matches emailRegex s = true.
Proof.
  unfold pecDestinatarioSchema, optional, z_string. destruct v as [s|].
  - cbn [flat_map run_string_check]. rewrite app_nil_r.
    destruct (Regex.matches emailRegex s) eqn:E; split;
      try discriminate; try reflexivity.
    + intros _. right. exists s. auto.
    + intros [Hnone|[s' [Hs Hm]]]; [discriminate|]. injection Hs as <-. congruence.
  - split; auto.
Qed.

(** A number rule with a lower bound. *)
Lemma z_number_min_ok (bound : spec_float) (msg : option string) (v : jsval spec_float) :
  Binary64.is_nan bound = false ->
  z_number [NMin bound msg] v = [] <-> number_from bound v.
Proof.
  intros Hb. unfold z_number, number_from. destruct v as [| |x].
  - split; [discriminate|]. intros [x [Hx _]]. discriminate.
  - split; [discriminate|]. intros [x [Hx _]]. discriminate.
  - destruct (Binary64.is_nan x) eqn:Hnan.
    + split; [discriminate|]. intros [x' [Hx Hge]]. injection Hx as <-.
      apply geb_number in Hge. congruence.
    + cbn [flat_map run_number_check]. rewrite app_nil_r.
      pose proof (ltb_false_geb x bound Hnan Hb) as Hiff.
      destruct (Binary64.ltb x bound); split.
      * discriminate.
      * intros [x' [Hx Hge]]. injection Hx as <-.
        apply Hiff in Hge. discriminate.
      * intros _. exists x. split; [reflexivity|]. now apply Hiff.
      * reflexivity.
Qed.

(** A number rule with a lower and an upper bound. *)
Lemma z_number_range_ok (lo hi : spec_float) (mlo mhi : option string)
    (v : jsval spec_float) :
  Binary64.is_nan lo = false -> Binary64.is_nan hi = false ->
  z_number [NMin lo mlo; NMax hi mhi] v = [] <-> number_between lo hi v.
Proof.
  intros Hlo Hhi. unfold z_number, number_between. destruct v as [| |x].
  - split; [discriminate|]. intros [x [Hx _]]. discriminate.
  - split; [discriminate|]. intros [x [Hx _]]. discriminate.
  - destruct (Binary64.is_nan x) eqn:Hnan.
    + split; [discriminate|]. intros [x' [Hx [Hge _]]]. injection Hx as <-.
      apply geb_number in Hge. congruence.
    + cbn [flat_map run_number_check]. rewrite app_nil_r.
      pose proof (ltb_false_geb x lo Hnan Hlo) as Hiff_lo.
      pose proof (ltb_false_geb hi x Hhi Hnan) as Hiff_hi.
      change (Binary64.geb hi x) with (Binary64.leb x hi) in Hiff_hi.
      change (Binary64.ltb hi x) with (Binary64.gtb x hi) in Hiff_hi.
      destruct (Binary64.ltb x lo) eqn:E1; destruct (Binary64.gtb x hi) eqn:E2;
        split; try discriminate; try reflexivity;
        try (intros [x' [Hx [Hge Hle]]]; injection Hx as <-;
             apply Hiff_lo in Hge; apply Hiff_hi in Hle; congruence).
      intros _. exists x. split; [reflexivity|].
      split; [now apply Hiff_lo | now apply Hiff_hi].
Qed.

End Rules.

(** ** The rules at their place in the record *)

Lemma rows_no_key (k : string) (xs : list (LineItem spec_float)) (k0 : nat) :
  errors_at [Key k] (z_array_from lineItemSchema [Key "lineItems"] k0 xs) = [].
Proof.
  revert k0. induction xs as [|x xs IH]; intros k0; simpl; auto.
  rewrite errors_at_app, IH, app_nil_r.
  apply (@errors_at_other_length 3); [|simpl; lia].
  unfold lineItemSchema.
  repeat (apply Forall_app; split);
    apply (prop_length [Key "lineItems"; Index k0]).
Qed.

(** The failures reported under the key [k] of the record. *)
Lemma invoiceSchema_key (r : InvoiceFormData) (k : string) :
  errors_at [Key k] (invoiceSchema r)
  = errors_at [Key k] (headerSchema r)
    ++ (if String.eqb "lineItems" k
        then if (List.length (lineItems r) <? 1)%nat
             then fail too_small (Some "At least one line item is required"%string)
             else []
        else []).
Proof.
  unfold invoiceSchema, lineItemsSchema, z_array_min.
  rewrite !errors_at_app, errors_at_at_path, rows_no_key, app_nil_r.
  cbn [path_eqb path_elem_eqb]. now rewrite andb_true_r.
Qed.

(** Evaluates the comparisons of paths that are written out in the goal. *)
Ltac eval_paths :=
  repeat match goal with
  | |- context [path_eqb ?p ?q] =>
      let b := eval vm_compute in (path_eqb p q) in
      change (path_eqb p q) with b
  | |- context [String.eqb ?a ?b] =>
      let c := eval vm_compute in (String.eqb a b) in
      change (String.eqb a b) with c
  end.

(** Reduces the failures under a key of the record to the rule of that key. *)
Ltac header_key :=
  rewrite invoiceSchema_key;
  unfold headerSchema, prop; cbv zeta;
  rewrite !errors_at_app, !errors_at_at_path;
  eval_paths; cbv iota; cbn [app]; rewrite ?app_nil_r.

(** X1: each of the seven required texts (progressivoInvio, supplierAddress,
    supplierCity, customerAddress, customerCity, documentDate,
    documentNumber) raises no error exactly when it is present and not
    empty. *)
Theorem required_text_rules (r : InvoiceFormData) :
  (errors_at [Key "progressivoInvio"] (invoiceSchema r) = []
   <-> text_at_least 1 (progressivoInvio r))
  /\ (errors_at [Key "supplierAddress"] (invoiceSchema r) = []
      <-> text_at_least 1 (supplierAddress r))
  /\ (errors_at [Key "supplierCity"] (invoiceSchema r) = []
      <-> text_at_least 1 (supplierCity r))
  /\ (errors_at [Key "customerAddress"] (invoiceSchema r) = []
      <-> text_at_least 1 (customerAddress r))
  /\ (errors_at [Key "customerCity"] (invoiceSchema r) = []
      <-> text_at_least 1 (customerCity r))
  /\ (errors_at [Key "documentDate"] (invoiceSchema r) = []
      <-> text_at_least 1 (documentDate r))
  /\ (errors_at [Key "documentNumber"] (invoiceSchema r) = []
      <-> text_at_least 1 (documentNumber r)).
Proof.
  repeat split; header_key; intros Hrule;
    first [now apply z_string_min1_ok | now apply z_string_min1_ok in Hrule].
Qed.

Lemma required_text_rules_witness :
  errors_at [Key "progressivoInvio"] (invoiceSchema (sampleInvoice None [consulenza])) = []
  /\ text_at_least 1 (documentNumber (sampleInvoice None [consulenza])).
Proof.
  split.
  - apply (required_text_rules (sampleInvoice None [consulenza])).
    exists "00001"%string. split; [reflexivity|simpl; lia].
  - apply (required_text_rules (sampleInvoice None [consulenza])).
    vm_compute. reflexivity.
Defined.

(** X2: each of the three country codes (supplierCountry,
    supplierCountryCode, customerCountryCode) raises no error exactly when it
    is present and its length, counted in UTF-16 code units as JavaScript
    does, is exactly 2; a supplierCountry that is longer, such as a
    three-letter code, is reported as too big, and one that is shorter as too
    small, with the message of the rule, and the record is refused.  A
    one-letter accented code has length 1 and is refused; a two-letter
    accented code has length 2 and passes. *)
Theorem country_code_rules (r : InvoiceFormData) :
  (errors_at [Key "supplierCountry"] (invoiceSchema r) = []
   <-> text_of_length 2 (supplierCountry r))
  /\ (errors_at [Key "supplierCountryCode"] (invoiceSchema r) = []
      <-> text_of_length 2 (supplierCountryCode r))
  /\ (errors_at [Key "customerCountryCode"] (invoiceSchema r) = []
      <-> text_of_length 2 (customerCountryCode r))
  /\ (forall s, supplierCountry r = Some s -> (2 < Utf16.length s)%nat ->
        errors_at [Key "supplierCountry"] (invoiceSchema r)
        = fail too_big (Some "Country code must be 2 characters"%string)
        /\ accepted r = false)
  /\ (forall s, supplierCountry r = Some s -> (Utf16.length s < 2)%nat ->
        errors_at [Key "supplierCountry"] (invoiceSchema r)
        = fail too_small (Some "Country code must be 2 characters"%string)
        /\ accepted r = false).
Proof.
  split; [|split; [|split; [|split]]].
  - header_key. apply z_string_length_ok.
  - header_key. apply z_string_length_ok.
  - header_key. apply z_string_length_ok.
  - intros s Hs Hlong.
    assert (Herr : errors_at [Key "supplierCountry"] (invoiceSchema r)
                   = fail too_big (Some "Country code must be 2 characters"%string))
      by (header_key; rewrite Hs; now apply z_string_length_long).
    split; [exact Herr|].
    apply (errors_not_accepted r [Key "supplierCountry"]). rewrite Herr. discriminate.
  - intros s Hs Hshort.
    assert (Herr : errors_at [Key "supplierCountry"] (invoiceSchema r)
                   = fail too_small (Some "Country code must be 2 characters"%string))
      by (header_key; rewrite Hs; now apply z_string_length_short).
    split; [exact Herr|].
    apply (errors_not_accepted r [Key "supplierCountry"]). rewrite Herr. discriminate.
Qed.

Lemma country_code_rules_witness :
  ((2 < Utf16.length "ITA")%nat
   /\ errors_at [Key "supplierCountry"]
        (invoiceSchema
           (withSupplierCountry (Some "ITA"%string) (sampleInvoice None [consulenza])))
      = fail too_big (Some "Country code must be 2 characters"%string)
   /\ accepted
        (withSupplierCountry (Some "ITA"%string) (sampleInvoice None [consulenza]))
      = false)
  /\ ((Utf16.length "È" < 2)%nat
      /\ errors_at [Key "supplierCountry"]
           (invoiceSchema
              (withSupplierCountry (Some "È"%string) (sampleInvoice None [consulenza])))
         = fail too_small (Some "Country code must be 2 characters"%string)
      /\ accepted
           (withSupplierCountry (Some "È"%string) (sampleInvoice None [consulenza]))
         = false)
  /\ (text_of_length 2
        (supplierCountry
           (withSupplierCountry (Some "ÀÈ"%string) (sampleInvoice None [consulenza])))
      /\ errors_at [Key "supplierCountry"]
           (invoiceSchema
              (withSupplierCountry (Some "ÀÈ"%string) (sampleInvoice None [consulenza])))
         = [])
  /\ (text_of_length 2 (supplierCountry (sampleInvoice None [consulenza]))
      /\ errors_at [Key "supplierCountry"]
           (invoiceSchema (sampleInvoice None [consulenza])) = []).
Proof.
  split; [|split; [|split]].
  - assert (Hlen : (2 < Utf16.length "ITA")%nat) by (vm_compute; lia).
    split; [exact Hlen|].
    apply (country_code_rules
             (withSupplierCountry (Some "ITA"%string) (sampleInvoice None [consulenza]))
           ) with (s := "ITA"%string); [reflexivity|exact Hlen].
  - assert (Hlen : (Utf16.length "È" < 2)%nat) by (vm_compute; lia).
    split; [exact Hlen|].
    apply (country_code_rules
             (withSupplierCountry (Some "È"%string) (sampleInvoice None [consulenza]))
           ) with (s := "È"%string); [reflexivity|exact Hlen].
  - assert (Hlen : text_of_length 2
                     (supplierCountry
                        (withSupplierCountry (Some "ÀÈ"%string)
                           (sampleInvoice None [consulenza]))))
      by (exists "ÀÈ"%string; split; reflexivity).
    split; [exact Hlen|].
    apply (country_code_rules
             (withSupplierCountry (Some "ÀÈ"%string) (sampleInvoice None [consulenza]))).
    exact Hlen.
  - assert (Hlen : text_of_length 2 (supplierCountry (sampleInvoice None [consulenza])))
      by (exists "IT"%string; split; reflexivity).
    split; [exact Hlen|].
    apply (country_code_rules (sampleInvoice None [consulenza])). exact Hlen.
Defined.

(** X3: supplierVatNumber raises no error exactly when it is present and its
    length, counted in UTF-16 code units as JavaScript does, is at least 11,
    and each of the two postal codes exactly when it is present and its
    length is at least 5; a shorter value is reported as too small with the
    message of the rule, and the record is refused.  A postal code of three
    accented letters has length 3 and is refused. *)
Theorem min_length_rules (r : InvoiceFormData) :
  (errors_at [Key "supplierVatNumber"] (invoiceSchema r) = []
   <-> length_at_least 11 (supplierVatNumber r))
  /\ (errors_at [Key "supplierPostalCode"] (invoiceSchema r) = []
      <-> length_at_least 5 (supplierPostalCode r))
  /\ (errors_at [Key "customerPostalCode"] (invoiceSchema r) = []
      <-> length_at_least 5 (customerPostalCode r))
  /\ (forall s, customerPostalCode r = Some s -> (Utf16.length s < 5)%nat ->
        errors_at [Key "customerPostalCode"] (invoiceSchema r)
        = fail too_small (Some "Postal code is required"%string)
        /\ accepted r = false).
Proof.
  split; [|split; [|split]].
  - header_key. apply z_string_min_ok.
  - header_key. apply z_string_min_ok.
  - header_key. apply z_string_min_ok.
  - intros s Hs Hshort.
    assert (Herr : errors_at [Key "customerPostalCode"] (invoiceSchema r)
                   = fail too_small (Some "Postal code is required"%string))
      by (header_key; rewrite Hs; now apply z_string_min_short).
    split; [exact Herr|].
    apply (errors_not_accepted r [Key "customerPostalCode"]). rewrite Herr.
    discriminate.
Qed.

Lemma min_length_rules_witness :
  (length_at_least 11 (supplierVatNumber (sampleInvoice None [consulenza]))
   /\ errors_at [Key "supplierVatNumber"]
        (invoiceSchema (sampleInvoice None [consulenza])) = [])
  /\ ((Utf16.length "èèè" < 5)%nat
      /\ errors_at [Key "customerPostalCode"]
           (invoiceSchema
              (withCustomerPostalCode (Some "èèè"%string)
                 (sampleInvoice None [consulenza])))
         = fail too_small (Some "Postal code is required"%string)
      /\ accepted
           (withCustomerPostalCode (Some "èèè"%string)
              (sampleInvoice None [consulenza])) = false).
Proof.
  split.
  - assert (Hlen : length_at_least 11
                     (supplierVatNumber (sampleInvoice None [consulenza])))
      by (exists "01234567890"%string; split; [reflexivity|vm_compute; lia]).
    split; [exact Hlen|].
    apply (min_length_rules (sampleInvoice None [consulenza])). exact Hlen.
  - assert (Hlen : (Utf16.length "èèè" < 5)%nat) by (vm_compute; lia).
    split; [exact Hlen|].
    apply (min_length_rules
             (withCustomerPostalCode (Some "èèè"%string)
                (sampleInvoice None [consulenza]))) with (s := "èèè"%string);
      [reflexivity|exact Hlen].
Defined.

(** X4: supplierRegime raises no error exactly when it is present and is one
    of the 18 regime codes of the schema, and documentType exactly when it is
    present and is one of TD07, TD08, TD09. *)
Theorem enum_rules (r : InvoiceFormData) :
  (errors_at [Key "supplierRegime"] (invoiceSchema r) = []
   <-> one_of_codes regimeCodes (supplierRegime r))
  /\ (errors_at [Key "documentType"] (invoiceSchema r) = []
      <-> one_of_codes documentTypeCodes (documentType r))
  /\ List.length regimeCodes = 18%nat
  /\ documentTypeCodes = ["TD07"; "TD08"; "TD09"]%string.
Proof.
  split; [|split; [|split]]; try reflexivity.
  - header_key. apply z_enum_ok.
  - header_key. apply z_enum_ok.
Qed.

Lemma enum_rules_witness :
  one_of_codes documentTypeCodes (documentType (sampleInvoice None [consulenza]))
  /\ errors_at [Key "documentType"]
       (invoiceSchema (sampleInvoice None [consulenza])) = [].
Proof.
  assert (Hin : one_of_codes documentTypeCodes
                  (documentType (sampleInvoice None [consulenza])))
    by (exists "TD07"%string; split; [reflexivity|simpl; auto]).
  split; [exact Hin|].
  apply (enum_rules (sampleInvoice None [consulenza])). exact Hin.
Defined.

(** X5: the optional texts (codiceDestinatario, the fiscal codes, the
    company and personal names, the civic numbers, the provinces) and the
    currency never raise an error, whatever they hold and also when they are
    left out. *)
Theorem optional_fields_never_fail (r : InvoiceFormData) :
  Forall (fun k => errors_at [Key k] (invoiceSchema r) = [])
    ["codiceDestinatario"; "supplierFiscalCode"; "supplierCompanyName";
     "supplierFirstName"; "supplierLastName"; "supplierCivicNumber";
     "supplierProvince"; "customerFiscalCode"; "customerCompanyName";
     "customerFirstName"; "customerLastName"; "customerCivicNumber";
     "customerProvince"; "currency"]%string.
Proof.
  repeat constructor; header_key;
    first [apply free_text_ok | apply default_text_ok].
Qed.

(** ** The rules of a line item *)

Lemma row_unitPrice (item : LineItem spec_float) :
  errors_at [Key "unitPrice"] (lineItemSchema [] item)
  = unitPriceSchema (unitPrice item).
Proof.
  unfold lineItemSchema, prop.
  rewrite !errors_at_app, !errors_at_at_path. eval_paths. cbv iota.
  cbn [app]. now rewrite app_nil_r.
Qed.

Lemma row_vatRate (item : LineItem spec_float) :
  errors_at [Key "vatRate"] (lineItemSchema [] item)
  = vatRateSchema (vatRate item).
Proof.
  unfold lineItemSchema, prop.
  rewrite !errors_at_app, !errors_at_at_path. eval_paths. cbv iota.
  cbn [app]. now rewrite app_nil_r.
Qed.

Lemma row_description (item : LineItem spec_float) :
  errors_at [Key "description"] (lineItemSchema [] item)
  = z_string [SMin 1 "Description is required"] (Some (description item)).
Proof.
  unfold lineItemSchema, prop.
  rewrite !errors_at_app, !errors_at_at_path. eval_paths. cbv iota.
  cbn [app]. now rewrite app_nil_r.
Qed.

Lemma row_id (item : LineItem spec_float) :
  errors_at [Key "id"] (lineItemSchema [] item) = [].
Proof.
  unfold lineItemSchema, prop.
  rewrite !errors_at_app, !errors_at_at_path. eval_paths. reflexivity.
Qed.

Lemma quantitySchema_ok (v : jsval spec_float) :
  quantitySchema v = [] <-> number_from (Binary64.decimal 1 (-2)) v.
Proof. apply z_number_min_ok. vm_compute. reflexivity. Qed.

Lemma unitPriceSchema_ok (v : jsval spec_float) :
  unitPriceSchema v = [] <-> number_from (Binary64.of_Z 0) v.
Proof. apply z_number_min_ok. reflexivity. Qed.

Lemma vatRateSchema_ok (v : jsval spec_float) :
  vatRateSchema v = [] <-> number_between (Binary64.of_Z 0) (Binary64.of_Z 100) v.
Proof. apply z_number_range_ok; reflexivity. Qed.

(** Anything below zero is not above a positive number. *)
Lemma ltb_zero_not_gtb_pos (x : spec_float) (m : positive) (e : Z) :
  Binary64.ltb x (Binary64.of_Z 0) = true ->
  Binary64.gtb x (S754_finite false m e) = false.
Proof.
  unfold Binary64.ltb, Binary64.gtb, SFltb.
  destruct x as [s|s| |s mx ex]; simpl; try discriminate; auto;
    destruct s; simpl; auto; discriminate.
Qed.

(** X6: for every line item of a candidate record, the unit price raises no
    error exactly when it is a number greater than or equal to 0, so that a
    unit price of 0 passes although the message of the rule reads "must be
    positive"; a negative unit price is reported with that message. *)
Theorem unitPrice_rule
    (r : InvoiceFormData) (i : nat) (item : LineItem spec_float) :
  nth_error (lineItems r) i = Some item ->
  (errors_at [Key "lineItems"; Index i; Key "unitPrice"] (invoiceSchema r) = []
   <-> number_from (Binary64.of_Z 0) (unitPrice item))
  /\ (unitPrice item = JsNum (S754_zero false) \/ unitPrice item = JsNum (S754_zero true) ->
      errors_at [Key "lineItems"; Index i; Key "unitPrice"] (invoiceSchema r) = [])
  /\ (forall p, unitPrice item = JsNum p ->
        Binary64.ltb p (Binary64.of_Z 0) = true ->
        errors_at [Key "lineItems"; Index i; Key "unitPrice"] (invoiceSchema r)
        = fail too_small (Some "Unit price must be positive"%string)).
Proof.
  intros Hitem. rewrite invoiceSchema_row, Hitem, row_unitPrice.
  split; [apply unitPriceSchema_ok|]. split.
  - intros [-> | ->]; reflexivity.
  - intros p -> Hneg. unfold unitPriceSchema, z_number.
    assert (Hnan : Binary64.is_nan p = false)
      by (destruct p; simpl in *; auto; discriminate).
    rewrite Hnan. cbn [flat_map run_number_check]. now rewrite Hneg.
Qed.

Lemma unitPrice_rule_witness :
  nth_error (lineItems (sampleInvoice None [consulenza])) 0 = Some consulenza
  /\ (errors_at [Key "lineItems"; Index 0; Key "unitPrice"]
        (invoiceSchema (sampleInvoice None [consulenza])) = []
      <-> number_from (Binary64.of_Z 0) (unitPrice (consulenza (num := spec_float)))).
Proof.
  split; [reflexivity|].
  apply (unitPrice_rule (sampleInvoice None [consulenza]) 0). reflexivity.
Defined.

(** X7: for every line item of a candidate record, the VAT rate raises no
    error exactly when it is a number between 0 and 100, both included; a
    rate below 0 is reported as too small and a rate above 100 as too big,
    the latter with the message of the rule. *)
Theorem vatRate_rule
    (r : InvoiceFormData) (i : nat) (item : LineItem spec_float) :
  nth_error (lineItems r) i = Some item ->
  (errors_at [Key "lineItems"; Index i; Key "vatRate"] (invoiceSchema r) = []
   <-> number_between (Binary64.of_Z 0) (Binary64.of_Z 100) (vatRate item))
  /\ (forall v, vatRate item = JsNum v ->
        Binary64.ltb v (Binary64.of_Z 0) = true ->
        errors_at [Key "lineItems"; Index i; Key "vatRate"] (invoiceSchema r)
        = fail too_small None)
  /\ (forall v, vatRate item = JsNum v ->
        Binary64.gtb v (Binary64.of_Z 100) = true ->
        errors_at [Key "lineItems"; Index i; Key "vatRate"] (invoiceSchema r)
        = fail too_big (Some "VAT rate must be between 0 and 100"%string)).
Proof.
  intros Hitem. rewrite invoiceSchema_row, Hitem, row_vatRate.
  split; [apply vatRateSchema_ok|]. split.
  - intros v -> Hneg. unfold vatRateSchema, z_number.
    assert (Hnan : Binary64.is_nan v = false)
      by (destruct v; simpl in *; auto; discriminate).
    rewrite Hnan. cbn [flat_map run_number_check]. rewrite Hneg.
    change (Binary64.of_Z 100) with (S754_finite false 7036874417766400 (-46)).
    now rewrite (ltb_zero_not_gtb_pos v _ _ Hneg).
  - intros v -> Hbig. unfold vatRateSchema, z_number.
    assert (Hnan : Binary64.is_nan v = false)
      by (destruct v; simpl in *; auto; discriminate).
    rewrite Hnan. cbn [flat_map run_number_check]. rewrite Hbig.
    assert (Hlow : Binary64.ltb v (Binary64.of_Z 0) = false).
    { destruct (Binary64.ltb v (Binary64.of_Z 0)) eqn:E; auto.
      change (Binary64.of_Z 100) with (S754_finite false 7036874417766400 (-46)) in Hbig.
      rewrite (ltb_zero_not_gtb_pos v _ _ E) in Hbig. discriminate. }
    now rewrite Hlow.
Qed.

Lemma vatRate_rule_witness :
  nth_error (lineItems (sampleInvoice None [consulenza])) 0 = Some consulenza
  /\ (errors_at [Key "lineItems"; Index 0; Key "vatRate"]
        (invoiceSchema (sampleInvoice None [consulenza])) = []
      <-> number_between (Binary64.of_Z 0) (Binary64.of_Z 100)
            (vatRate (consulenza (num := spec_float)))).
Proof.
  split; [reflexivity|].
  apply (vatRate_rule (sampleInvoice None [consulenza]) 0). reflexivity.
Defined.

(** X8: for every line item of a candidate record, the description raises no
    error exactly when it is not empty, an empty one being reported with the
    message of the rule; the identifier of the item never raises an error. *)
Theorem description_rule
    (r : InvoiceFormData) (i : nat) (item : LineItem spec_float) :
  nth_error (lineItems r) i = Some item ->
  (errors_at [Key "lineItems"; Index i; Key "description"] (invoiceSchema r) = []
   <-> description item <> EmptyString)
  /\ (description item = EmptyString ->
      errors_at [Key "lineItems"; Index i; Key "description"] (invoiceSchema r)
      = fail too_small (Some "Description is required"%string))
  /\ errors_at [Key "lineItems"; Index i; Key "id"] (invoiceSchema r) = [].
Proof.
  intros Hitem. rewrite !invoiceSchema_row, Hitem, row_description, row_id.
  split; [|split; [|reflexivity]].
  - rewrite z_string_min1_ok. unfold text_at_least. split.
    + intros [s [Hs Hlen]] Hempty. injection Hs as <-. rewrite Hempty in Hlen.
      simpl in Hlen. lia.
    + intros Hne. exists (description item). split; [reflexivity|].
      destruct (description item); [congruence|simpl; lia].
  - intros ->. reflexivity.
Qed.

Lemma description_rule_witness :
  nth_error (lineItems (sampleInvoice None [defaultLineItem "u0"])) 0
  = Some (defaultLineItem "u0")
  /\ description (defaultLineItem (num := spec_float) "u0") = EmptyString
  /\ errors_at [Key "lineItems"; Index 0; Key "description"]
       (invoiceSchema (sampleInvoice None [defaultLineItem "u0"]))
     = fail too_small (Some "Description is required"%string).
Proof.
  split; [reflexivity|]. split; [reflexivity|].
  apply (description_rule (sampleInvoice None [defaultLineItem "u0"]) 0
           (item := defaultLineItem "u0")); reflexivity.
Defined.

(** X9: the list of line items raises an error of its own exactly when it
    is empty, in which case the record is refused; and no error is ever
    reported for a row that the list does not have. *)
Theorem lineItems_nonempty_rule (r : InvoiceFormData) :
  (errors_at [Key "lineItems"] (invoiceSchema r) = [] <-> lineItems r <> [])
  /\ (lineItems r = [] ->
      errors_at [Key "lineItems"] (invoiceSchema r)
      = fail too_small (Some "At least one line item is required"%string)
      /\ accepted r = false)
  /\ (forall i k, (List.length (lineItems r) <= i)%nat ->
        errors_at [Key "lineItems"; Index i; Key k] (invoiceSchema r) = []).
Proof.
  assert (Hkey : errors_at [Key "lineItems"] (invoiceSchema r)
                 = if (List.length (lineItems r) <? 1)%nat
                   then fail too_small (Some "At least one line item is required"%string)
                   else []).
  { header_key. reflexivity. }
  split; [|split].
  - rewrite Hkey. unfold fail.
    destruct (lineItems r) as [|x xs]; simpl; split; congruence.
  - intros Hnil.
    assert (Herr : errors_at [Key "lineItems"] (invoiceSchema r)
                   = fail too_small (Some "At least one line item is required"%string))
      by (rewrite Hkey, Hnil; reflexivity).
    split; [exact Herr|].
    apply (errors_not_accepted r [Key "lineItems"]). rewrite Herr. discriminate.
  - intros i k Hout. rewrite invoiceSchema_row.
    apply nth_error_None in Hout. now rewrite Hout.
Qed.

Lemma lineItems_nonempty_rule_witness :
  lineItems (sampleInvoice None []) = []
  /\ errors_at [Key "lineItems"] (invoiceSchema (sampleInvoice None []))
     = fail too_small (Some "At least one line item is required"%string)
  /\ accepted (sampleInvoice None []) = false.
Proof.
  split; [reflexivity|].
  apply (lineItems_nonempty_rule (sampleInvoice None [])). reflexivity.
Defined.

(** ** When a record is accepted *)

Lemma app_nil_iff (A : Type) (xs ys : list A) :
  xs ++ ys = [] <-> xs = [] /\ ys = [].
Proof.
  split; [apply app_eq_nil|]. intros [-> ->]. reflexivity.
Qed.

Lemma prop_nil_iff (p : list path_elem) (k : string) (fs : list failure) :
  prop p k fs = [] <-> fs = [].
Proof.
  unfold prop, at_path. destruct fs; simpl; split; congruence.
Qed.

Lemma accepted_nil (r : InvoiceFormData) :
  accepted r = true <-> invoiceSchema r = [].
Proof.
  unfold accepted. destruct (invoiceSchema r); split; congruence.
Qed.

Lemma headerSchema_ok (r : InvoiceFormData) :
  headerSchema r = [] <-> header_ok r.
Proof.
  unfold headerSchema, header_ok. cbv zeta.
  rewrite !app_nil_iff, !prop_nil_iff.
  rewrite !z_string_min1_ok, !z_string_min_ok, !z_string_length_ok, !z_enum_ok,
    pecDestinatarioSchema_ok.
  rewrite !free_text_ok, default_text_ok.
  intuition auto.
Qed.

Lemma lineItemSchema_ok (p : list path_elem) (item : LineItem spec_float) :
  lineItemSchema p item = [] <-> line_ok item.
Proof.
  unfold lineItemSchema, line_ok.
  rewrite !app_nil_iff, !prop_nil_iff.
  rewrite z_string_min1_ok, quantitySchema_ok, unitPriceSchema_ok, vatRateSchema_ok,
    vatNatureSchema_spec.
  assert (Hdesc : text_at_least 1 (Some (description item))
                  <-> (1 <= String.length (description item))%nat).
  { unfold text_at_least. split.
    - intros [s [Hs Hlen]]. now injection Hs as <-.
    - intros Hlen. eauto. }
  rewrite Hdesc. intuition auto.
Qed.

Lemma z_array_from_ok (p : list path_elem) (xs : list (LineItem spec_float)) (k0 : nat) :
  z_array_from lineItemSchema p k0 xs = [] <-> Forall line_ok xs.
Proof.
  revert k0. induction xs as [|x xs IH]; intros k0; simpl.
  - split; auto.
  - rewrite app_nil_iff, lineItemSchema_ok, IH. split.
    + intros [Hx Hxs]. now constructor.
    + intros Hall. inversion Hall. auto.
Qed.

(** X10: a candidate record is accepted if and only if every required text
    is present and not empty, the country codes have a length of exactly 2,
    the VAT number a length of at least 11 and the postal codes a length of
    at least 5, lengths being counted in UTF-16 code units as JavaScript
    counts them, the regime and the document type are codes of their lists,
    the certified e-mail address is left out or matches the e-mail pattern,
    there is at least one line item, and every line item has a description,
    a quantity of at least 0.01, a unit price of at least 0, a VAT rate
    between 0 and 100 and a VAT nature that is left out or one of N1..N7. *)
Theorem accepted_iff (r : InvoiceFormData) :
  accepted r = true
  <-> header_ok r /\ lineItems r <> [] /\ Forall line_ok (lineItems r).
Proof.
  rewrite accepted_nil. unfold invoiceSchema, lineItemsSchema, z_array_min.
  rewrite !app_nil_iff, headerSchema_ok, z_array_from_ok.
  assert (Hmin : at_path [Key "lineItems"]
                   (if (List.length (lineItems r) <? 1)%nat
                    then fail too_small (Some "At least one line item is required"%string)
                    else []) = []
                 <-> lineItems r <> []).
  { destruct (lineItems r); simpl; split; congruence. }
  rewrite Hmin. tauto.
Qed.

Lemma accepted_iff_witness :
  (accepted (sampleInvoice None [consulenza]) = true
   /\ header_ok (sampleInvoice None [consulenza])
   /\ lineItems (sampleInvoice None [consulenza]) <> []
   /\ Forall line_ok (lineItems (sampleInvoice None [consulenza])))
  /\ (accepted (withSupplierCountry (Some "ÀÈ"%string) (sampleInvoice None [consulenza]))
      = true
      /\ header_ok
           (withSupplierCountry (Some "ÀÈ"%string) (sampleInvoice None [consulenza])))
  /\ (accepted (withCustomerPostalCode (Some "èèè"%string) (sampleInvoice None [consulenza]))
      = false
      /\ ~ header_ok
             (withCustomerPostalCode (Some "èèè"%string) (sampleInvoice None [consulenza]))).
Proof.
  assert (Hacc : accepted (sampleInvoice None [consulenza]) = true)
    by (vm_compute; reflexivity).
  assert (Hok : header_ok (sampleInvoice None [consulenza])
                /\ lineItems (sampleInvoice None [consulenza]) <> []
                /\ Forall line_ok (lineItems (sampleInvoice None [consulenza])))
    by (apply (accepted_iff (sampleInvoice None [consulenza])); exact Hacc).
  split; [split; [exact Hacc|exact Hok]|]. split.
  - assert (Hacc2 : accepted (withSupplierCountry (Some "ÀÈ"%string)
                               (sampleInvoice None [consulenza])) = true)
      by (vm_compute; reflexivity).
    split; [exact Hacc2|].
    apply (accepted_iff (withSupplierCountry (Some "ÀÈ"%string)
                           (sampleInvoice None [consulenza]))).
    exact Hacc2.
  - assert (Hrej : accepted (withCustomerPostalCode (Some "èèè"%string)
                              (sampleInvoice None [consulenza])) = false)
      by (vm_compute; reflexivity).
    split; [exact Hrej|]. intros Hhead.
    assert (Hacc3 : accepted (withCustomerPostalCode (Some "èèè"%string)
                                (sampleInvoice None [consulenza])) = true).
    { apply (accepted_iff (withCustomerPostalCode (Some "èèè"%string)
                             (sampleInvoice None [consulenza]))).
      split; [exact Hhead|]. exact (proj2 Hok). }
    rewrite Hrej in Hacc3. discriminate Hacc3.
Defined.

(** ** More on the line-item editor *)

Section EditorMore.

Context {num : Type} `{JsNumber num}.

Lemma remove_length (index : nat) (fields : list (LineItem num)) :
  (index < List.length fields)%nat ->
  S (List.length (Editor.remove index fields)) = List.length fields.
Proof.
  intros Hin. unfold Editor.remove.
  rewrite length_app, length_firstn, length_skipn. lia.
Qed.

Lemma remove_nth_error (index j : nat) (fields : list (LineItem num)) :
  (index < List.length fields)%nat ->
  nth_error (Editor.remove index fields) j
  = if (j <? index)%nat then nth_error fields j else nth_error fields (S j).
Proof.
  intros Hin. unfold Editor.remove.
  destruct (Nat.ltb_spec j index) as [Hlt|Hge].
  - rewrite nth_error_app1 by (rewrite length_firstn; lia).
    now rewrite nth_error_firstn, (proj2 (Nat.ltb_lt j index) Hlt).
  - rewrite nth_error_app2 by (rewrite length_firstn; lia).
    rewrite length_firstn, nth_error_skipn.
    f_equal. lia.
Qed.

Lemma remove_out_of_range (index : nat) (fields : list (LineItem num)) :
  (List.length fields <= index)%nat -> Editor.remove index fields = fields.
Proof.
  intros Hout. unfold Editor.remove.
  rewrite firstn_all2 by lia. rewrite skipn_all2 by lia. apply app_nil_r.
Qed.

Lemma remove_ids (index : nat) (fields : list (LineItem num)) :
  map id (Editor.remove index fields)
  = firstn index (map id fields) ++ skipn (S index) (map id fields).
Proof.
  unfold Editor.remove. now rewrite map_app, firstn_map, skipn_map.
Qed.

End EditorMore.

Lemma in_firstn (A : Type) (n : nat) (xs : list A) (x : A) :
  In x (firstn n xs) -> In x xs.
Proof.
  intros Hin. rewrite <- (firstn_skipn n xs). apply in_or_app. now left.
Qed.

Lemma in_skipn (A : Type) (n : nat) (xs : list A) (x : A) :
  In x (skipn n xs) -> In x xs.
Proof.
  intros Hin. rewrite <- (firstn_skipn n xs). apply in_or_app. now right.
Qed.

Lemma NoDup_without (A : Type) (n : nat) (xs : list A) :
  NoDup xs -> NoDup (firstn n xs ++ skipn (S n) xs).
Proof.
  revert n. induction xs as [|x xs IH]; intros n Hnd.
  - rewrite firstn_nil, skipn_nil. constructor.
  - inversion Hnd as [|y ys Hx Hxs]; subst. destruct n as [|n]; simpl.
    + exact Hxs.
    + constructor; [|now apply IH].
      intros Hin. apply Hx. apply in_app_or in Hin. destruct Hin as [Hin|Hin].
      * eapply in_firstn. exact Hin.
      * eapply (in_skipn (S n)). exact Hin.
Qed.

Lemma incl_without (A : Type) (n : nat) (xs seen : list A) :
  incl xs seen -> incl (firstn n xs ++ skipn (S n) xs) seen.
Proof.
  intros Hincl x Hin. apply Hincl. apply in_app_or in Hin. destruct Hin as [Hin|Hin].
  - eapply in_firstn. exact Hin.
  - eapply in_skipn. exact Hin.
Qed.

Lemma fold_step_ids {num : Type} `{JsNumber num}
    (ts : list Editor.transition) (fields : list (LineItem num)) (seen : list string) :
  NoDup (seen ++ issued ts) ->
  incl (map id fields) seen ->
  NoDup (map id fields) ->
  NoDup (map id (fold_left Editor.step ts fields)).
Proof.
  revert fields seen. induction ts as [|t ts IH]; intros fields seen Hfresh Hincl Hnd.
  - exact Hnd.
  - destruct t as [uuid|index]; cbn [fold_left issued] in *.
    + assert (Hnew : ~ In uuid seen).
      { apply NoDup_remove_2 in Hfresh. intros Hin. apply Hfresh.
        apply in_or_app. now left. }
      apply (IH _ (seen ++ [uuid])).
      * now rewrite <- app_assoc.
      * unfold Editor.step, Editor.addLineItem, Editor.append.
        rewrite map_app. simpl. apply incl_app.
        -- apply incl_appl. exact Hincl.
        -- apply incl_appr. apply incl_refl.
      * unfold Editor.step, Editor.addLineItem, Editor.append.
        rewrite map_app. simpl.
        apply NoDup_app; [exact Hnd | repeat constructor; simpl; tauto |].
        intros x Hx [<-|[]]. apply Hnew. now apply Hincl.
    + apply (IH _ seen); [exact Hfresh| |]; unfold Editor.step;
        destruct (Editor.removeButtonRendered fields index); auto;
        rewrite remove_ids.
      * now apply incl_without.
      * now apply NoDup_without.
Qed.

(** X11: where the remove button of a row is rendered, clicking it takes
    that row away and nothing else: the rows before it are unchanged, the
    rows after it move up by one, and the list is one shorter. *)
Theorem remove_deletes_one_row {num : Type} `{JsNumber num}
    (fields : list (LineItem num)) (index : nat) :
  Editor.removeButtonRendered fields index = true ->
  S (List.length (Editor.step fields (Editor.Remove index))) = List.length fields
  /\ (forall j, (j < index)%nat ->
        nth_error (Editor.step fields (Editor.Remove index)) j = nth_error fields j)
  /\ (forall j, (index <= j)%nat ->
        nth_error (Editor.step fields (Editor.Remove index)) j
        = nth_error fields (S j)).
Proof.
  intros Hshown. cbn [Editor.step]. rewrite Hshown.
  unfold Editor.removeButtonRendered in Hshown.
  apply andb_true_iff in Hshown. destruct Hshown as [Hin _].
  apply Nat.ltb_lt in Hin.
  split; [now apply remove_length|]. split; intros j Hj;
    rewrite (remove_nth_error j fields Hin).
  - now rewrite (proj2 (Nat.ltb_lt j index) Hj).
  - now rewrite (proj2 (Nat.ltb_ge j index) Hj).
Qed.

Lemma remove_deletes_one_row_witness :
  Editor.removeButtonRendered
    (Editor.addLineItem (num := spec_float) "u1" (Editor.initialLineItems "u0")) 0 = true
  /\ nth_error
       (Editor.step
          (Editor.addLineItem (num := spec_float) "u1" (Editor.initialLineItems "u0"))
          (Editor.Remove 0)) 0
     = nth_error
         (Editor.addLineItem (num := spec_float) "u1" (Editor.initialLineItems "u0")) 1.
Proof.
  split; [reflexivity|].
  apply (remove_deletes_one_row
           (Editor.addLineItem (num := spec_float) "u1" (Editor.initialLineItems "u0")) 0);
    [reflexivity|lia].
Defined.

(** X12: on a list that is not empty, Add followed by Remove of the row
    just added gives the list back. *)
Theorem add_then_remove_last {num : Type} `{JsNumber num}
    (uuid : string) (fields : list (LineItem num)) :
  (1 <= List.length fields)%nat ->
  Editor.step (Editor.step fields (Editor.Add uuid))
    (Editor.Remove (List.length fields)) = fields.
Proof.
  intros Hlen. cbn [Editor.step].
  unfold Editor.removeButtonRendered, Editor.addLineItem, Editor.append.
  rewrite length_app. simpl.
  replace (List.length fields <? List.length fields + 1)%nat with true
    by (symmetry; apply Nat.ltb_lt; lia).
  replace (1 <? List.length fields + 1)%nat with true
    by (symmetry; apply Nat.ltb_lt; lia).
  cbn [andb]. unfold Editor.remove.
  rewrite firstn_app, Nat.sub_diag, firstn_all, firstn_O, app_nil_r.
  rewrite skipn_all2 by (rewrite length_app; simpl; lia).
  apply app_nil_r.
Qed.

Lemma add_then_remove_last_witness :
  (1 <= List.length (Editor.initialLineItems (num := spec_float) "u0"))%nat
  /\ Editor.step (Editor.step (Editor.initialLineItems (num := spec_float) "u0")
                    (Editor.Add "u1"))
       (Editor.Remove (List.length (Editor.initialLineItems (num := spec_float) "u0")))
     = Editor.initialLineItems "u0".
Proof.
  split; [simpl; lia|].
  apply (add_then_remove_last "u1" (Editor.initialLineItems (num := spec_float) "u0")).
  simpl. lia.
Defined.

(** X13: if the identifiers the generator hands out are pairwise distinct,
    then in every state the editor can reach the line items have pairwise
    distinct identifiers. *)
Theorem editor_ids_distinct {num : Type} `{JsNumber num}
    (uuid0 : string) (ts : list Editor.transition) :
  NoDup (uuid0 :: issued ts) ->
  NoDup (map id (Editor.run (num := num) uuid0 ts)).
Proof.
  intros Hfresh. unfold Editor.run.
  apply (@fold_step_ids num _ ts (Editor.initialLineItems uuid0) [uuid0]).
  - exact Hfresh.
  - apply incl_refl.
  - simpl. repeat constructor. simpl. tauto.
Qed.

Lemma editor_ids_distinct_witness :
  NoDup ("u0"%string :: issued [Editor.Add "u1"; Editor.Remove 0; Editor.Add "u2"])
  /\ NoDup (map id (Editor.run (num := spec_float) "u0"%string
                      [Editor.Add "u1"; Editor.Remove 0; Editor.Add "u2"])).
Proof.
  assert (Hfresh : NoDup ("u0"%string
                          :: issued [Editor.Add "u1"; Editor.Remove 0; Editor.Add "u2"])).
  { simpl. repeat constructor; simpl; intuition discriminate. }
  split; [exact Hfresh|].
  apply (@editor_ids_distinct spec_float _ "u0"%string
           [Editor.Add "u1"; Editor.Remove 0; Editor.Add "u2"]).
  exact Hfresh.
Defined.

(** ** The editor and the schema together *)

(** X14: in every state the editor can reach, the rule that asks for at
    least one line item raises no error, whatever the rest of the record. *)
Theorem editor_state_has_line_items
    (r : InvoiceFormData) (uuid0 : string) (ts : list Editor.transition) :
  errors_at [Key "lineItems"]
    (invoiceSchema (withLineItems (Editor.run uuid0 ts) r)) = [].
Proof.
  header_key. cbn [lineItems withLineItems].
  pose proof (@fold_step_nonempty spec_float _ ts (Editor.initialLineItems uuid0)) as Hlen.
  unfold Editor.run.
  replace (List.length (fold_left Editor.step ts (Editor.initialLineItems uuid0)) <? 1)%nat
    with false; [reflexivity|].
  symmetry. apply Nat.ltb_ge. apply Hlen. simpl. lia.
Qed.

(** X15: a row that Add has just appended has an empty description, so
    that the record is refused, with the description error on that row,
    until the row is filled in. *)
Theorem added_row_blocks_submission (r : InvoiceFormData) (uuid : string) :
  errors_at [Key "lineItems"; Index (List.length (lineItems r)); Key "description"]
    (invoiceSchema (withLineItems (Editor.addLineItem uuid (lineItems r)) r))
  = fail too_small (Some "Description is required"%string)
  /\ accepted (withLineItems (Editor.addLineItem uuid (lineItems r)) r) = false.
Proof.
  assert (Herr :
    errors_at [Key "lineItems"; Index (List.length (lineItems r)); Key "description"]
      (invoiceSchema (withLineItems (Editor.addLineItem uuid (lineItems r)) r))
    = fail too_small (Some "Description is required"%string)).
  { rewrite invoiceSchema_row. cbn [lineItems withLineItems].
    unfold Editor.addLineItem, Editor.append.
    rewrite nth_error_app2 by lia. rewrite Nat.sub_diag. cbn [nth_error].
    now rewrite row_description. }
  split; [exact Herr|].
  eapply errors_not_accepted. rewrite Herr. discriminate.
Qed.

(** X16: the form as it is first shown is refused, and the errors are those
    of the fields the defaults leave empty: progressivoInvio,
    supplierVatNumber, supplierAddress, supplierPostalCode, supplierCity,
    customerAddress, customerPostalCode, customerCity, documentNumber and the
    description of the one line item; the defaults for the country codes, the
    regime, the document type, the currency and, when the date is not empty,
    the document date pass their rules. *)
Theorem defaultValues_errors (today uuid : string) :
  today <> EmptyString ->
  map path (invoiceSchema (defaultValues today uuid))
  = [[Key "progressivoInvio"]; [Key "supplierVatNumber"]; [Key "supplierAddress"];
     [Key "supplierPostalCode"]; [Key "supplierCity"]; [Key "customerAddress"];
     [Key "customerPostalCode"]; [Key "customerCity"]; [Key "documentNumber"];
     [Key "lineItems"; Index 0; Key "description"]]%string
  /\ accepted (defaultValues today uuid) = false.
Proof.
  intros Htoday.
  assert (Hdate : z_string [SMin 1 "Document date is required"] (Some today) = []).
  { apply z_string_min1_ok. exists today. split; [reflexivity|].
    destruct today; [congruence|simpl; lia]. }
  assert (Hpaths :
    map path (invoiceSchema (defaultValues today uuid))
    = [[Key "progressivoInvio"]; [Key "supplierVatNumber"]; [Key "supplierAddress"];
       [Key "supplierPostalCode"]; [Key "supplierCity"]; [Key "customerAddress"];
       [Key "customerPostalCode"]; [Key "customerCity"]; [Key "documentNumber"];
       [Key "lineItems"; Index 0; Key "description"]]%string).
  { unfold invoiceSchema, headerSchema. cbv zeta.
    change (documentDate (defaultValues today uuid)) with (Some today).
    rewrite Hdate. reflexivity. }
  split; [exact Hpaths|].
  unfold accepted. destruct (invoiceSchema (defaultValues today uuid));
    [discriminate Hpaths|reflexivity].
Qed.

Lemma defaultValues_errors_witness :
  "2024-01-15"%string <> EmptyString
  /\ accepted (defaultValues "2024-01-15" "u0") = false.
Proof.
  assert (Hne : "2024-01-15"%string <> EmptyString) by discriminate.
  split; [exact Hne|].
  apply (@defaultValues_errors "2024-01-15" "u0"). exact Hne.
Defined.

(** ** More on the totals *)

Section TotalsAppend.

Context {num : Type} `{JsNumber num}.

Lemma totals_snoc (items : list (LineItem num)) (item : LineItem num) :
  totals (items ++ [item]) = totals_step (totals items) item.
Proof. unfold totals. now rewrite fold_left_app. Qed.

End TotalsAppend.

Section Binary64Facts.

Lemma SFcompare_refl (x : spec_float) :
  Binary64.is_nan x = false -> SFcompare x x = Some Eq.
Proof.
  destruct x as [s|s| |s m e]; simpl; try discriminate; intros _;
    try (destruct s; reflexivity).
  destruct s; rewrite Z.compare_refl, Pos.compare_cont_refl; reflexivity.
Qed.

(** Adding [+0] to a number leaves its value as it is. *)
Lemma add_zero_same (x : spec_float) :
  same_number (Binary64.add x (S754_zero false)) x = true.
Proof.
  unfold same_number, SFeqb.
  destruct x as [s|s| |s m e]; try reflexivity.
  - destruct s; reflexivity.
  - destruct s; reflexivity.
  - cbn [Binary64.add SFadd Binary64.is_nan andb orb].
    now rewrite SFcompare_refl.
Qed.

Lemma add_zero_eq (x : spec_float) :
  x <> S754_zero true -> Binary64.add x (S754_zero false) = x.
Proof.
  destruct x as [s|s| |s m e]; try reflexivity.
  destruct s; [congruence|reflexivity].
Qed.

(** The value a rounding returns carries the sign it was given. *)
Lemma binary_round_aux_sign (s : bool) (m e : Z) (l : location) :
  nan_or_unsigned (binary_round_aux Binary64.prec Binary64.emax s m e l) = true
  \/ s = true.
Proof.
  destruct s; [now right|left].
  unfold binary_round_aux.
  destruct (shr_fexp Binary64.prec Binary64.emax m e l) as [mrs' e'].
  destruct (shr_fexp Binary64.prec Binary64.emax
              (round_nearest_even (shr_m mrs') (loc_of_shr_record mrs')) e' loc_Exact)
    as [mrs'' e''].
  destruct (shr_m mrs''); try reflexivity.
  destruct (e'' <=? Binary64.emax - Binary64.prec)%Z; reflexivity.
Qed.

Lemma binary_round_aux_unsigned (m e : Z) (l : location) :
  nan_or_unsigned (binary_round_aux Binary64.prec Binary64.emax false m e l) = true.
Proof.
  destruct (binary_round_aux_sign false m e l) as [Hok|Hs]; [exact Hok|discriminate].
Qed.

Lemma mul_unsigned (x y : spec_float) :
  nan_or_unsigned x = true -> nan_or_unsigned y = true ->
  nan_or_unsigned (Binary64.mul x y) = true.
Proof.
  destruct x as [sx|sx| |sx mx ex], y as [sy|sy| |sy my ey]; simpl;
    intros Hx Hy; try reflexivity;
    apply negb_true_iff in Hx; apply negb_true_iff in Hy; subst;
    try reflexivity.
  apply binary_round_aux_unsigned.
Qed.

Lemma div_100_unsigned (x : spec_float) :
  nan_or_unsigned x = true ->
  nan_or_unsigned (Binary64.div x (Binary64.of_Z 100)) = true.
Proof.
  change (Binary64.of_Z 100) with (S754_finite false 7036874417766400 (-46)).
  destruct x as [sx|sx| |sx mx ex]; simpl; intros Hx; try reflexivity;
    apply negb_true_iff in Hx; subst; try reflexivity.
  unfold Binary64.div, SFdiv.
  destruct (SFdiv_core_binary Binary64.prec Binary64.emax
              (Z.pos mx) ex 7036874417766400 (-46)) as [[mz ez] lz].
  apply binary_round_aux_unsigned.
Qed.

Lemma add_unsigned (x y : spec_float) :
  nan_or_unsigned x = true -> nan_or_unsigned y = true ->
  nan_or_unsigned (Binary64.add x y) = true.
Proof.
  destruct x as [sx|sx| |sx mx ex], y as [sy|sy| |sy my ey]; simpl;
    intros Hx Hy; try reflexivity;
    apply negb_true_iff in Hx; apply negb_true_iff in Hy; subst;
    try reflexivity.
  unfold Binary64.add, SFadd, cond_Zopp, binary_normalize.
  cbn [Z.add]. unfold binary_round.
  match goal with
  | |- context [shl_align ?a ?b ?c] => destruct (shl_align a b c) as [mz ez]
  end.
  apply binary_round_aux_unsigned.
Qed.

Lemma unsigned_not_negative (x : spec_float) :
  nan_or_unsigned x = true -> Binary64.ltb x (Binary64.of_Z 0) = false.
Proof.
  destruct x as [s|s| |s m e]; simpl; intros Hx; try reflexivity;
    apply negb_true_iff in Hx; subst; reflexivity.
Qed.

(** What [v || 0] gives for a number that is at least [lo], when [lo] is
    zero or positive. *)
Lemma or_zero_unsigned (lo : spec_float) (v : jsval spec_float) :
  nan_or_unsigned lo = true -> Binary64.is_nan lo = false ->
  number_from lo v -> nan_or_unsigned (or_zero v) = true.
Proof.
  intros Hlo Hnan [x [-> Hge]]. unfold Binary64.geb, SFleb in Hge.
  destruct lo as [sl|sl| |sl ml el]; try discriminate;
    simpl in Hlo; apply negb_true_iff in Hlo; subst;
    destruct x as [s|s| |s m e]; simpl in *; try reflexivity; try discriminate;
    destruct s; simpl in *; try reflexivity; discriminate.
Qed.

End Binary64Facts.

Lemma defaultLineItem_amounts (uuid : string) :
  lineTotal (defaultLineItem (num := spec_float) uuid) = S754_zero false
  /\ vatAmount (defaultLineItem (num := spec_float) uuid) = S754_zero false.
Proof. split; vm_compute; reflexivity. Qed.

(** The calculator gives the same totals for a list and for the list with
    the row of Add appended: the row has unit price 0. *)
Lemma totals_addLineItem (uuid : string) :
  (forall items : list (LineItem spec_float),
     same_number (subtotal (totals (Editor.addLineItem uuid items)))
       (subtotal (totals items)) = true
     /\ same_number (vatTotal (totals (Editor.addLineItem uuid items)))
          (vatTotal (totals items)) = true
     /\ same_number (total (totals (Editor.addLineItem uuid items)))
          (total (totals items)) = true)
  /\ (forall items : list (LineItem Q),
        subtotal (totals (Editor.addLineItem uuid items)) == subtotal (totals items)
        /\ vatTotal (totals (Editor.addLineItem uuid items)) == vatTotal (totals items)
        /\ total (totals (Editor.addLineItem uuid items)) == total (totals items))%Q.
Proof.
  split; intros items; unfold Editor.addLineItem, Editor.append;
    rewrite totals_snoc, totals_step_amounts; cbn [subtotal vatTotal total].
  - destruct (defaultLineItem_amounts uuid) as [-> ->].
    change (num_add (S754_zero false) (S754_zero false)) with (S754_zero false).
    repeat split; apply add_zero_same.
  - assert (Hline : (lineTotal (defaultLineItem (num := Q) uuid) == 0)%Q)
      by (vm_compute; reflexivity).
    assert (Hvat : (vatAmount (defaultLineItem (num := Q) uuid) == 0)%Q)
      by (vm_compute; reflexivity).
    cbn [num_add exact_number]. rewrite Hline, Hvat. repeat split; ring.
Qed.

Lemma accepted_lines (r : InvoiceFormData) :
  accepted r = true -> Forall line_ok (lineItems r).
Proof.
  rewrite accepted_nil. unfold invoiceSchema, lineItemsSchema, z_array_min.
  rewrite !app_nil_iff, z_array_from_ok. tauto.
Qed.

Lemma line_ok_amounts (item : LineItem spec_float) :
  line_ok item ->
  nan_or_unsigned (lineTotal item) = true
  /\ nan_or_unsigned (vatAmount item) = true.
Proof.
  intros [_ [Hq [Hp [[v [Hv [Hge _]]] _]]]].
  assert (Hline : nan_or_unsigned (lineTotal item) = true).
  { unfold lineTotal. apply mul_unsigned.
    - apply (or_zero_unsigned (lo := Binary64.decimal 1 (-2))); auto.
    - apply (or_zero_unsigned (lo := Binary64.of_Z 0)); auto. }
  split; [exact Hline|].
  unfold vatAmount. apply mul_unsigned; [exact Hline|].
  apply div_100_unsigned.
  apply (or_zero_unsigned (lo := Binary64.of_Z 0)); auto.
  exists v. auto.
Qed.

Lemma fold_totals_unsigned (items : list (LineItem spec_float)) (acc : Totals spec_float) :
  Forall line_ok items ->
  nan_or_unsigned (subtotal acc) = true ->
  nan_or_unsigned (vatTotal acc) = true ->
  nan_or_unsigned (total acc) = true ->
  nan_or_unsigned (subtotal (fold_left totals_step items acc)) = true
  /\ nan_or_unsigned (vatTotal (fold_left totals_step items acc)) = true
  /\ nan_or_unsigned (total (fold_left totals_step items acc)) = true.
Proof.
  intros Hall. revert acc.
  induction Hall as [|item items Hitem _ IH]; intros acc Hs Hv Ht.
  - simpl. auto.
  - cbn [fold_left]. destruct (line_ok_amounts Hitem) as [Hline Hvat].
    apply IH; rewrite totals_step_amounts; cbn [subtotal vatTotal total];
      repeat apply add_unsigned; assumption.
Qed.

(** X18: for every record the schema accepts, none of subtotal, vatTotal
    and total is negative: each is NaN, [+0], a positive number or
    [+Infinity]. *)
Theorem accepted_totals_not_negative (r : InvoiceFormData) :
  accepted r = true ->
  (nan_or_unsigned (subtotal (totals (lineItems r))) = true
   /\ nan_or_unsigned (vatTotal (totals (lineItems r))) = true
   /\ nan_or_unsigned (total (totals (lineItems r))) = true)
  /\ (Binary64.ltb (subtotal (totals (lineItems r))) (Binary64.of_Z 0) = false
      /\ Binary64.ltb (vatTotal (totals (lineItems r))) (Binary64.of_Z 0) = false
      /\ Binary64.ltb (total (totals (lineItems r))) (Binary64.of_Z 0) = false).
Proof.
  intros Hacc.
  assert (Hsign : nan_or_unsigned (subtotal (totals (lineItems r))) = true
                  /\ nan_or_unsigned (vatTotal (totals (lineItems r))) = true
                  /\ nan_or_unsigned (total (totals (lineItems r))) = true)
    by (unfold totals; apply fold_totals_unsigned;
        [now apply accepted_lines| | |]; reflexivity).
  split; [exact Hsign|].
  destruct Hsign as [Hs [Hv Ht]].
  repeat split; now apply unsigned_not_negative.
Qed.

Lemma accepted_totals_not_negative_witness :
  accepted (sampleInvoice None [consulenza]) = true
  /\ Binary64.ltb (total (totals (lineItems (sampleInvoice None [consulenza]))))
       (Binary64.of_Z 0) = false.
Proof.
  assert (Hacc : accepted (sampleInvoice None [consulenza]) = true)
    by (vm_compute; reflexivity).
  split; [exact Hacc|].
  apply (@accepted_totals_not_negative (sampleInvoice None [consulenza])).
  exact Hacc.
Defined.

(** *** The order of the line items *)

Lemma sigma_perm (f : LineItem Q -> Q) (items items' : list (LineItem Q)) :
  Permutation items items' -> (sigma f items == sigma f items')%Q.
Proof.
  intros Hperm. induction Hperm as [|x l l' _ IH|x y l|l l' l'' _ IH1 _ IH2]; simpl.
  - reflexivity.
  - now rewrite IH.
  - fold (sigma f l). ring.
  - now rewrite IH1.
Qed.

(** X19: over exact arithmetic the totals do not depend on the order of the
    line items; over binary64 they can: the unit amounts 2^53, 1, 1 add up
    to 9007199254740992 in this order and to 9007199254740994 in the
    opposite one. *)
Theorem totals_order (items items' : list (LineItem Q)) :
  Permutation items items' ->
  (subtotal (totals items) == subtotal (totals items')
   /\ vatTotal (totals items) == vatTotal (totals items')
   /\ total (totals items) == total (totals items'))%Q
  /\ subtotal
       (totals
          [priced consulenza (JsNum (Binary64.of_Z (2 ^ 53)))
             (JsNum (Binary64.of_Z 1)) (JsNum (Binary64.of_Z 0));
           priced consulenza (JsNum (Binary64.of_Z 1))
             (JsNum (Binary64.of_Z 1)) (JsNum (Binary64.of_Z 0));
           priced consulenza (JsNum (Binary64.of_Z 1))
             (JsNum (Binary64.of_Z 1)) (JsNum (Binary64.of_Z 0))])
     = Binary64.of_Z 9007199254740992
  /\ subtotal
       (totals
          [priced consulenza (JsNum (Binary64.of_Z 1))
             (JsNum (Binary64.of_Z 1)) (JsNum (Binary64.of_Z 0));
           priced consulenza (JsNum (Binary64.of_Z 1))
             (JsNum (Binary64.of_Z 1)) (JsNum (Binary64.of_Z 0));
           priced consulenza (JsNum (Binary64.of_Z (2 ^ 53)))
             (JsNum (Binary64.of_Z 1)) (JsNum (Binary64.of_Z 0))])
     = Binary64.of_Z 9007199254740994.
Proof.
  intros Hperm. split; [|split; vm_compute; reflexivity].
  unfold totals.
  destruct (fold_totals_exact items totals_init) as [Hs [Hv Ht]].
  destruct (fold_totals_exact items' totals_init) as [Hs' [Hv' Ht']].
  rewrite Hs, Hv, Ht, Hs', Hv', Ht'.
  rewrite (sigma_perm lineTotal Hperm), (sigma_perm vatAmount Hperm).
  repeat split; reflexivity.
Qed.

Lemma totals_order_witness :
  Permutation
    [consulenza (num := Q); priced consulenza (JsNum 3) (JsNum 5) (JsNum 10)]
    [priced consulenza (JsNum 3) (JsNum 5) (JsNum 10); consulenza (num := Q)]
  /\ (total
        (totals
           [consulenza (num := Q); priced consulenza (JsNum 3) (JsNum 5) (JsNum 10)])
      == total
           (totals
              [priced consulenza (JsNum 3) (JsNum 5) (JsNum 10); consulenza (num := Q)]))%Q.
Proof.
  assert (Hperm : Permutation
            [consulenza (num := Q); priced consulenza (JsNum 3) (JsNum 5) (JsNum 10)]
            [priced consulenza (JsNum 3) (JsNum 5) (JsNum 10); consulenza (num := Q)])
    by apply perm_swap.
  split; [exact Hperm|].
  apply (@totals_order _ _ Hperm).
Defined.

(** *** The row totals *)

Section RowTotals.

Context {num : Type} `{JsNumber num}.


End RowTotals.


(** *** The numeric inputs *)

(** X21: whatever [parseFloat] returns, the value a numeric input hands to
    the form is a number that is neither NaN nor [-0], and the totals guard
    leaves it as it is; when the input is emptied or unreadable (NaN) the
    value is 0, which the quantity rule reports and the unit price and VAT
    rate rules let through. *)
Theorem numberInputChange_stores_number (parsed : spec_float) :
  (exists x, numberInputChange parsed = JsNum x
             /\ Binary64.is_nan x = false
             /\ x <> S754_zero true
             /\ or_zero (JsNum x) = x)
  /\ (Binary64.truthy parsed = true -> numberInputChange parsed = JsNum parsed)
  /\ (Binary64.truthy parsed = false ->
      numberInputChange parsed = JsNum (S754_zero false)
      /\ quantitySchema (numberInputChange parsed)
         = fail too_small (Some "Quantity must be greater than 0"%string)
      /\ unitPriceSchema (numberInputChange parsed) = []
      /\ vatRateSchema (numberInputChange parsed) = []).
Proof.
  split; [|split].
  - unfold numberInputChange. eexists. split; [reflexivity|].
    destruct parsed as [s|s| |s m e]; simpl; repeat split; congruence.
  - intros Htruthy. unfold numberInputChange. cbn [or_zero num_truthy binary64_number].
    now rewrite Htruthy.
  - intros Hfalsy. unfold numberInputChange. cbn [or_zero num_truthy binary64_number].
    rewrite Hfalsy. repeat split; vm_compute; reflexivity.
Qed.

Lemma numberInputChange_stores_number_witness :
  Binary64.truthy S754_nan = false
  /\ numberInputChange S754_nan = JsNum (S754_zero false)
  /\ quantitySchema (numberInputChange S754_nan)
     = fail too_small (Some "Quantity must be greater than 0"%string)
  /\ unitPriceSchema (numberInputChange S754_nan) = []
  /\ vatRateSchema (numberInputChange S754_nan) = [].
Proof.
  split; [reflexivity|].
  apply (numberInputChange_stores_number S754_nan). reflexivity.
Defined.

(** ** Submission *)

Lemma invoiceSchema_parsedData (values : InvoiceFormData) :
  invoiceSchema (parsedData values) = invoiceSchema values.
Proof.
  destruct values as [f1 f2 f3 f4 f5 f6 f7 f8 f9 f10 f11 f12 f13 f14 f15 f16
                      f17 f18 f19 f20 f21 f22 f23 f24 f25 f26 f27 cur f29 f30 items].
  destruct cur; reflexivity.
Qed.

Lemma accepted_parsedData (values : InvoiceFormData) :
  accepted (parsedData values) = accepted values.
Proof. unfold accepted. now rewrite invoiceSchema_parsedData. Qed.

(** X22: a submission does nothing to the outside when the schema refuses
    the record; the caller's handler is only ever called with the parsed
    form of an accepted record, which has a currency and which the schema
    accepts again; and for an accepted record the handler is called when
    there is one, the success message shown when there is none. *)
Theorem submission_effects (customOnSubmit : bool) (values : InvoiceFormData) :
  (accepted values = false -> handleSubmit customOnSubmit values = [])
  /\ (forall data, In (CustomOnSubmit data) (handleSubmit customOnSubmit values) ->
        customOnSubmit = true
        /\ accepted values = true
        /\ data = parsedData values
        /\ accepted data = true
        /\ currency data <> None)
  /\ (accepted values = true ->
      handleSubmit customOnSubmit values
      = if customOnSubmit
        then [ConsoleLog "Invoice data:" (parsedData values);
              CustomOnSubmit (parsedData values)]
        else [ConsoleLog "Invoice data:" (parsedData values);
              ToastSuccess "Fattura generata con successo!"]).
Proof.
  unfold handleSubmit, onSubmit. split; [|split].
  - intros ->. reflexivity.
  - intros data Hin. destruct (accepted values) eqn:Hacc; [|destruct Hin].
    destruct customOnSubmit; simpl in Hin;
      destruct Hin as [Hin|[Hin|[]]]; try discriminate.
    injection Hin as <-. repeat split.
    + now rewrite accepted_parsedData.
    + unfold parsedData. cbn [currency]. destruct (currency values); discriminate.
  - intros ->. destruct customOnSubmit; reflexivity.
Qed.

Lemma submission_effects_witness :
  accepted (sampleInvoice None [consulenza]) = true
  /\ handleSubmit true (sampleInvoice None [consulenza])
     = [ConsoleLog "Invoice data:" (parsedData (sampleInvoice None [consulenza]));
        CustomOnSubmit (parsedData (sampleInvoice None [consulenza]))].
Proof.
  assert (Hacc : accepted (sampleInvoice None [consulenza]) = true)
    by (vm_compute; reflexivity).
  split; [exact Hacc|].
  apply (submission_effects true (sampleInvoice None [consulenza])). exact Hacc.
Defined.

(** ** The selects *)

(** X23: whichever option of a select is chosen, the field it feeds raises
    no error: every option of the regime select is a regime code, every
    option of the document type select a document type code, every option of
    the VAT nature select a VAT nature code.  The document type and VAT
    nature selects offer all the codes of their lists; the regime select
    offers RF01, RF02, RF04, RF19 and RF18 only. *)
Theorem select_options_pass (r : InvoiceFormData) (o : selectOption) :
  (In o fiscalRegimes -> supplierRegime r = Some (value o) ->
   errors_at [Key "supplierRegime"] (invoiceSchema r) = [])
  /\ (In o documentTypes -> documentType r = Some (value o) ->
      errors_at [Key "documentType"] (invoiceSchema r) = [])
  /\ (forall i item, In o vatNatures -> nth_error (lineItems r) i = Some item ->
        vatNature item = Some (value o) ->
        errors_at [Key "lineItems"; Index i; Key "vatNature"] (invoiceSchema r) = [])
  /\ map value documentTypes = documentTypeCodes
  /\ map value vatNatures = vatNatureCodes
  /\ map value fiscalRegimes = ["RF01"; "RF02"; "RF04"; "RF19"; "RF18"]%string.
Proof.
  split; [|split; [|split; [|repeat split]]].
  - intros Hin Hregime. header_key. rewrite Hregime.
    simpl in Hin. decompose [or] Hin; subst; try reflexivity. contradiction.
  - intros Hin Htype. header_key. rewrite Htype.
    simpl in Hin. decompose [or] Hin; subst; try reflexivity. contradiction.
  - intros i item Hin Hitem Hnature.
    rewrite invoiceSchema_row, Hitem, row_vatNature, Hnature.
    simpl in Hin. decompose [or] Hin; subst; try reflexivity. contradiction.
Qed.

Lemma select_options_pass_witness :
  In {| value := "TD07"; label := "Fattura semplificata" |} documentTypes
  /\ documentType (sampleInvoice None [consulenza])
     = Some (value {| value := "TD07"; label := "Fattura semplificata" |})
  /\ errors_at [Key "documentType"]
       (invoiceSchema (sampleInvoice None [consulenza])) = [].
Proof.
  assert (Hin : In {| value := "TD07"; label := "Fattura semplificata" |} documentTypes)
    by (simpl; auto).
  split; [exact Hin|]. split; [reflexivity|].
  apply (select_options_pass (sampleInvoice None [consulenza])
           {| value := "TD07"; label := "Fattura semplificata" |});
    [exact Hin|reflexivity].
Defined.

(** ** The totals the running form shows *)

Section RunningForm.

Lemma render_dep (st : Form.state) :
  Form.memoDep (Form.render st) = Form.arrayId (Form.render st).
Proof.
  unfold Form.render. destruct (Nat.eqb_spec (Form.memoDep st) (Form.arrayId st));
    [assumption|reflexivity].
Qed.

Lemma run_snoc (uuid0 : string) (evs : list Form.event) (ev : Form.event) :
  Form.run uuid0 (evs ++ [ev]) = Form.step (Form.run uuid0 evs) ev.
Proof. unfold Form.run. now rewrite fold_left_app. Qed.

Lemma run_app (uuid0 : string) (evs evs' : list Form.event) :
  Form.run uuid0 (evs ++ evs') = fold_left Form.step evs' (Form.run uuid0 evs).
Proof. unfold Form.run. now rewrite fold_left_app. Qed.

Lemma run_dep (uuid0 : string) (evs : list Form.event) :
  Form.memoDep (Form.run uuid0 evs) = Form.arrayId (Form.run uuid0 evs).
Proof.
  induction evs as [|ev evs _] using rev_ind; [reflexivity|].
  rewrite run_snoc. apply render_dep.
Qed.

Lemma step_replaces_fresh (st : Form.state) (ev : Form.event) :
  Form.memoDep st = Form.arrayId st -> Form.replaces st ev = true ->
  Form.fresh (Form.step st ev).
Proof.
  intros Hdep Hrep. unfold Form.fresh, Form.step, Form.shownTotals.
  destruct ev as [index i|uuid|index]; simpl in Hrep; try discriminate;
    cbn [Form.apply]; rewrite ?Hrep; unfold Form.render;
    cbn [Form.memoDep Form.arrayId Form.rows Form.memoValue];
    rewrite Hdep;
    replace (Form.arrayId st =? S (Form.arrayId st))%nat with false
      by (symmetry; apply Nat.eqb_neq; lia);
    reflexivity.
Qed.


Lemma step_edit_shown (st : Form.state) (index : nat) (i : Form.input) :
  Form.memoDep st = Form.arrayId st ->
  Form.shownTotals (Form.step st (Form.Edit index i)) = Form.shownTotals st
  /\ Form.memoDep (Form.step st (Form.Edit index i))
     = Form.arrayId (Form.step st (Form.Edit index i)).
Proof.
  intros Hdep. unfold Form.step. cbn [Form.apply]. unfold Form.render.
  cbn [Form.memoDep Form.arrayId]. rewrite Hdep, Nat.eqb_refl.
  split; reflexivity.
Qed.


Lemma fold_edits_shown (evs : list Form.event) (st : Form.state) :
  Form.memoDep st = Form.arrayId st ->
  Forall (fun ev => Form.is_edit ev = true) evs ->
  Form.shownTotals (fold_left Form.step evs st) = Form.shownTotals st.
Proof.
  intros Hdep Hall. revert st Hdep.
  induction Hall as [|ev evs Hev _ IH]; intros st Hdep; [reflexivity|].
  cbn [fold_left]. destruct ev as [index i|uuid|index]; try discriminate.
  destruct (@step_edit_shown st index i Hdep) as [Hshown Hdep'].
  now rewrite IH.
Qed.


End RunningForm.

(** X17: in the running form, Add makes the summary show the totals of the
    rows as they stand after it, whatever it showed before; these are, as
    numbers, the calculator's totals of the rows as they stood before the Add,
    because the appended row has unit price 0. *)
Theorem add_shows_current_totals
    (uuid0 : string) (evs : list Form.event) (uuid : string) :
  Form.rows (Form.run uuid0 (evs ++ [Form.ClickAdd uuid]))
  = Editor.addLineItem uuid (Form.rows (Form.run uuid0 evs))
  /\ Form.shownTotals (Form.run uuid0 (evs ++ [Form.ClickAdd uuid]))
     = totals (Form.rows (Form.run uuid0 (evs ++ [Form.ClickAdd uuid])))
  /\ same_number
       (subtotal (Form.shownTotals (Form.run uuid0 (evs ++ [Form.ClickAdd uuid]))))
       (subtotal (totals (Form.rows (Form.run uuid0 evs)))) = true
  /\ same_number
       (vatTotal (Form.shownTotals (Form.run uuid0 (evs ++ [Form.ClickAdd uuid]))))
       (vatTotal (totals (Form.rows (Form.run uuid0 evs)))) = true
  /\ same_number
       (total (Form.shownTotals (Form.run uuid0 (evs ++ [Form.ClickAdd uuid]))))
       (total (totals (Form.rows (Form.run uuid0 evs)))) = true.
Proof.
  assert (Hrows : Form.rows (Form.run uuid0 (evs ++ [Form.ClickAdd uuid]))
                  = Editor.addLineItem uuid (Form.rows (Form.run uuid0 evs))).
  { rewrite run_snoc. unfold Form.step, Form.render. cbn [Form.apply].
    cbn [Form.memoDep Form.arrayId].
    destruct (Form.memoDep (Form.run uuid0 evs) =? S (Form.arrayId (Form.run uuid0 evs)))%nat;
      reflexivity. }
  assert (Hfresh : Form.fresh (Form.run uuid0 (evs ++ [Form.ClickAdd uuid])))
    by (rewrite run_snoc; apply step_replaces_fresh; [apply run_dep|reflexivity]).
  split; [exact Hrows|]. split; [exact Hfresh|].
  rewrite Hfresh, Hrows.
  apply (totals_addLineItem uuid).
Qed.



(** X24: in the running form a field edit never changes the totals shown:
    after any number of edits they are still the calculator's totals of the
    rows as they stood right after the list was last replaced (first render,
    Add, or Remove where its button is rendered), not those of the rows as
    they stand.  With 59.97 typed as the unit price of the first row the
    summary still shows 0, 0, 0, and shows 59.97 once a row is added. *)
Theorem edits_do_not_refresh_totals (uuid0 : string) :
  (forall edits,
     Forall (fun ev => Form.is_edit ev = true) edits ->
     Form.shownTotals (Form.run uuid0 edits)
     = totals (Editor.initialLineItems uuid0))
  /\ (forall before ev edits,
        Form.replaces (Form.run uuid0 before) ev = true ->
        Forall (fun ev' => Form.is_edit ev' = true) edits ->
        Form.shownTotals (Form.run uuid0 (before ++ ev :: edits))
        = totals (Form.rows (Form.run uuid0 (before ++ [ev]))))
  /\ (Form.shownTotals
        (Form.run uuid0 [Form.Edit 0 (Form.UnitPrice (Binary64.decimal 5997 (-2)))])
      = {| subtotal := S754_zero false; vatTotal := S754_zero false;
           total := S754_zero false |}
      /\ subtotal
           (totals
              (Form.rows
                 (Form.run uuid0
                    [Form.Edit 0 (Form.UnitPrice (Binary64.decimal 5997 (-2)))])))
         = Binary64.decimal 5997 (-2)
      /\ subtotal
           (Form.shownTotals
              (Form.run uuid0
                 [Form.Edit 0 (Form.UnitPrice (Binary64.decimal 5997 (-2)));
                  Form.ClickAdd uuid0]))
         = Binary64.decimal 5997 (-2)).
Proof.
  split; [|split].
  - intros edits Hall. unfold Form.run.
    rewrite fold_edits_shown; [reflexivity|reflexivity|exact Hall].
  - intros before ev edits Hrep Hall.
    change (before ++ ev :: edits) with (before ++ [ev] ++ edits).
    rewrite app_assoc, run_app.
    rewrite fold_edits_shown; [|apply run_dep|exact Hall].
    rewrite run_snoc. apply step_replaces_fresh; [apply run_dep|exact Hrep].
  - repeat split; vm_compute; reflexivity.
Qed.

Lemma edits_do_not_refresh_totals_witness :
  Forall (fun ev => Form.is_edit ev = true)
    [Form.Edit 0 (Form.Quantity (Binary64.of_Z 3));
     Form.Edit 0 (Form.UnitPrice (Binary64.decimal 5997 (-2)))]
  /\ Form.shownTotals
       (Form.run "u0"
          [Form.Edit 0 (Form.Quantity (Binary64.of_Z 3));
           Form.Edit 0 (Form.UnitPrice (Binary64.decimal 5997 (-2)))])
     = totals (Editor.initialLineItems "u0").
Proof.
  assert (Hall : Forall (fun ev => Form.is_edit ev = true)
            [Form.Edit 0 (Form.Quantity (Binary64.of_Z 3));
             Form.Edit 0 (Form.UnitPrice (Binary64.decimal 5997 (-2)))])
    by (repeat constructor).
  split; [exact Hall|].
  apply (proj1 (edits_do_not_refresh_totals "u0")). exact Hall.
Defined.

(** ** The rounding of the binary64 operations *)

Lemma pow2_pos (e : Z) : 0 < pow2 e.
Proof. apply Qpower_0_lt. reflexivity. Qed.

Lemma pow2_add (a b : Z) : pow2 (a + b) == pow2 a * pow2 b.
Proof. apply Qpower_plus. discriminate. Qed.

Lemma pow2_le (a b : Z) : (a <= b)%Z -> pow2 a <= pow2 b.
Proof. intros H. apply Qpower_le_compat_l; [exact H|]. discriminate. Qed.

Lemma pow2_Z (n : Z) : (0 <= n)%Z -> pow2 n == inject_Z (2 ^ n).
Proof. intros H. unfold pow2. now rewrite Zpower_Qpower. Qed.

Lemma pow2_0 : pow2 0 == 1.
Proof. reflexivity. Qed.

Lemma pow2_1 : pow2 1 == 2.
Proof. reflexivity. Qed.

Lemma pow2_succ (a : Z) : pow2 (a + 1) == 2 * pow2 a.
Proof. rewrite pow2_add, pow2_1. ring. Qed.

Lemma represents_eq (X Y : Q) (mrs : shr_record) :
  X == Y -> represents X mrs -> represents Y mrs.
Proof.
  intros HXY [Hm [t [H0 [H1 [HX [Hs0 Hs1]]]]]].
  split; [exact Hm|]. exists t. repeat split; auto. now rewrite <- HXY.
Qed.

Lemma inject_Z_xO (p : positive) : inject_Z (Zpos p~0) == 2 * inject_Z (Zpos p).
Proof. rewrite Pos2Z.inj_xO, inject_Z_mult. reflexivity. Qed.

Lemma inject_Z_xI (p : positive) : inject_Z (Zpos p~1) == 2 * inject_Z (Zpos p) + 1.
Proof. rewrite Pos2Z.inj_xI, inject_Z_plus, inject_Z_mult. reflexivity. Qed.

Lemma shr_1_represents (X : Q) (mrs : shr_record) :
  represents X mrs -> represents (X * (1 # 2)) (shr_1 mrs).
Proof.
  destruct mrs as [m r s]. intros [Hm [t [H0 [H1 [HX [Hs0 Hs1]]]]]].
  cbn [shr_m shr_r shr_s] in *.
  assert (Hsticky :
    (orb r s = false -> half_if r * (1 # 2) + t * (1 # 2) == 0)
    /\ (orb r s = true -> 0 < half_if r * (1 # 2) + t * (1 # 2))).
  { split; intros Hrs.
    - apply orb_false_iff in Hrs. destruct Hrs as [-> ->].
      rewrite (Hs0 eq_refl). unfold half_if. ring.
    - destruct r; unfold half_if; cbv iota.
      + lra.
      + simpl in Hrs. specialize (Hs1 Hrs). lra. }
  destruct Hsticky as [Hst0 Hst1].
  assert (Hhalf : 0 <= half_if r /\ half_if r <= 1 # 2)
    by (destruct r; unfold half_if; cbv iota; split; lra).
  assert (Hhf : half_if false == 0) by reflexivity.
  assert (Hht : half_if true == 1 # 2) by reflexivity.
  destruct m as [|p|p]; [| |lia].
  - split; [simpl; lia|].
    exists (half_if r * (1 # 2) + t * (1 # 2)).
    cbn [shr_1 shr_m shr_r shr_s]. repeat split; auto; try lra.
    rewrite HX, Hhf. change (inject_Z 0) with 0. lra.
  - destruct p as [p|p|].
    + split; [simpl; lia|].
      exists (half_if r * (1 # 2) + t * (1 # 2)).
      cbn [shr_1 shr_m shr_r shr_s]. repeat split; auto; try lra.
      rewrite HX, inject_Z_xI, Hht. lra.
    + split; [simpl; lia|].
      exists (half_if r * (1 # 2) + t * (1 # 2)).
      cbn [shr_1 shr_m shr_r shr_s]. repeat split; auto; try lra.
      rewrite HX, inject_Z_xO, Hhf. lra.
    + split; [simpl; lia|].
      exists (half_if r * (1 # 2) + t * (1 # 2)).
      cbn [shr_1 shr_m shr_r shr_s]. repeat split; auto; try lra.
      rewrite HX, Hht. change (inject_Z 1) with 1. change (inject_Z 0) with 0. lra.
Qed.

Lemma iter_pos_represents (p : positive) :
  forall (X : Q) (mrs : shr_record),
  represents X mrs -> represents (X / pow2 (Zpos p)) (iter_pos shr_1 p mrs).
Proof.
  induction p as [p IH|p IH|]; intros X mrs Hrep; cbn [iter_pos].
  - apply (represents_eq (X := X * (1 # 2) / pow2 (Zpos p) / pow2 (Zpos p))).
    + rewrite Pos2Z.inj_xI.
      replace (2 * Z.pos p + 1)%Z with (Z.pos p + Z.pos p + 1)%Z by lia.
      rewrite pow2_succ, pow2_add.
      pose proof (pow2_pos (Z.pos p)). field. lra.
    + apply IH, IH. now apply shr_1_represents.
  - apply (represents_eq (X := X / pow2 (Zpos p) / pow2 (Zpos p))).
    + rewrite Pos2Z.inj_xO.
      replace (2 * Z.pos p)%Z with (Z.pos p + Z.pos p)%Z by lia.
      rewrite pow2_add.
      pose proof (pow2_pos (Z.pos p)). field. lra.
    + apply IH, IH. exact Hrep.
  - apply (represents_eq (X := X * (1 # 2))).
    + rewrite pow2_1. field.
    + now apply shr_1_represents.
Qed.

(** Rounding to nearest, ties to even, moves the whole part by at most a
    half. *)
Lemma round_nearest_even_represents (X : Q) (mrs : shr_record) :
  represents X mrs ->
  (shr_m mrs <= round_nearest_even (shr_m mrs) (loc_of_shr_record mrs)
   <= shr_m mrs + 1)%Z
  /\ Qabs (inject_Z (round_nearest_even (shr_m mrs) (loc_of_shr_record mrs)) - X)
     <= 1 # 2.
Proof.
  destruct mrs as [m r s]. intros [Hm [t [H0 [H1 [HX [Hs0 Hs1]]]]]].
  cbn [shr_m shr_r shr_s] in *.
  assert (Hhf : half_if false == 0) by reflexivity.
  assert (Hht : half_if true == 1 # 2) by reflexivity.
  assert (Hsucc : inject_Z (m + 1) == inject_Z m + 1)
    by (rewrite inject_Z_plus; reflexivity).
  destruct r, s; cbn [loc_of_shr_record round_nearest_even];
    try (destruct (Z.even m));
    (split; [lia|]); apply Qabs_Qle_condition;
    rewrite ?Hsucc, HX, ?Hhf, ?Hht;
    try specialize (Hs0 eq_refl); try specialize (Hs1 eq_refl);
    split; lra.
Qed.

(** *** The number of digits of a mantissa *)

Lemma digits2_pos_size (p : positive) : digits2_pos p = Pos.size p.
Proof. induction p as [p IH|p IH|]; simpl; congruence. Qed.

Lemma Zdigits2_log2 (m : Z) : (0 < m)%Z -> Zdigits2 m = (Z.log2 m + 1)%Z.
Proof.
  destruct m as [|p|p]; try lia. intros _. simpl.
  destruct p as [p|p|]; simpl; rewrite ?digits2_pos_size; lia.
Qed.

Lemma Zdigits2_nonneg (m : Z) : (0 <= Zdigits2 m)%Z.
Proof. destruct m; simpl; lia. Qed.

Lemma Zdigits2_upper (m : Z) : (0 <= m)%Z -> (m < 2 ^ Zdigits2 m)%Z.
Proof.
  intros Hm. destruct (Z.eq_dec m 0) as [->|Hne]; [reflexivity|].
  rewrite Zdigits2_log2 by lia. apply Z.log2_spec. lia.
Qed.

Lemma Zdigits2_lower (m : Z) : (0 < m)%Z -> (2 ^ (Zdigits2 m - 1) <= m)%Z.
Proof.
  intros Hm. rewrite Zdigits2_log2 by lia.
  replace (Z.log2 m + 1 - 1)%Z with (Z.log2 m) by lia.
  apply Z.log2_spec. lia.
Qed.

Lemma Zdigits2_pos (m : Z) : (0 < Zdigits2 m)%Z -> (0 <= m)%Z -> (0 < m)%Z.
Proof. destruct m; simpl; lia. Qed.

Lemma fexp_eq (z : Z) :
  fexp Binary64.prec Binary64.emax z = Z.max (z - 53) (-1074).
Proof. reflexivity. Qed.

Lemma represents_nonneg (X : Q) (mrs : shr_record) : represents X mrs -> 0 <= X.
Proof.
  intros [Hm [t [H0 [H1 [HX _]]]]]. rewrite HX.
  assert (0 <= inject_Z (shr_m mrs)) by (change 0 with (inject_Z 0); now rewrite <- Zle_Qle).
  assert (0 <= half_if (shr_r mrs)) by (destruct (shr_r mrs); unfold half_if; lra).
  lra.
Qed.

Lemma represents_bounds (X : Q) (mrs : shr_record) :
  represents X mrs ->
  inject_Z (shr_m mrs) <= X /\ X < inject_Z (shr_m mrs) + 1.
Proof.
  intros [Hm [t [H0 [H1 [HX _]]]]]. rewrite HX.
  destruct (shr_r mrs); unfold half_if; split; lra.
Qed.

Lemma represents_of_loc_exact (m : Z) (X : Q) :
  represents X (shr_record_of_loc m loc_Exact) -> X == inject_Z m.
Proof.
  intros [Hm [t [H0 [H1 [HX [Hs0 _]]]]]]. cbn in *.
  rewrite HX, (Hs0 eq_refl). unfold half_if. ring.
Qed.

Lemma shr_m_of_loc (m : Z) (l : location) : shr_m (shr_record_of_loc m l) = m.
Proof. destruct l as [|[| |]]; reflexivity. Qed.

Lemma pow2_sub (a b : Z) : pow2 (a - b) == pow2 a / pow2 b.
Proof. apply Qpower_minus. discriminate. Qed.

Lemma inject_Z_nonneg (m : Z) : (0 <= m)%Z -> 0 <= inject_Z m.
Proof. intros H. change 0 with (inject_Z 0). now rewrite <- Zle_Qle. Qed.

(** The first shift of a rounding: what is left stands for the same number
    at the exponent of the format, has at most 53 digits, and either nothing
    was cut off, or the exponent is the least one, or the mantissa is a full
    53 digits long. *)
Lemma first_shift (m e : Z) (l : location) (X : Q) :
  represents X (shr_record_of_loc m l) ->
  (l = loc_Exact \/ (e <= fexp Binary64.prec Binary64.emax (Zdigits2 m + e))%Z) ->
  exists (mrs' : shr_record) (e' : Z) (X' : Q),
    shr_fexp Binary64.prec Binary64.emax m e l = (mrs', e')
    /\ represents X' mrs'
    /\ X' * pow2 e' == X * pow2 e
    /\ (shr_m mrs' < 2 ^ 53)%Z
    /\ (-1074 <= e')%Z
    /\ ((shr_r mrs' = false /\ shr_s mrs' = false /\ X' == inject_Z (shr_m mrs'))
        \/ e' = (-1074)%Z
        \/ pow2 52 <= X').
Proof.
  intros Hrep Hloc.
  assert (Hm : (0 <= m)%Z) by (destruct Hrep as [Hm _]; now rewrite shr_m_of_loc in Hm).
  pose proof (Zdigits2_upper Hm) as Hup.
  pose proof (Zdigits2_nonneg m) as Hd0.
  pose proof (represents_bounds Hrep) as [HXlo HXhi]. rewrite shr_m_of_loc in HXlo, HXhi.
  unfold shr_fexp, shr. rewrite fexp_eq in *.
  set (d := Zdigits2 m) in *.
  assert (Hnoshift :
    (Z.max (d + e - 53) (-1074) - e <= 0)%Z ->
    (shr_m (shr_record_of_loc m l) < 2 ^ 53)%Z
    /\ (-1074 <= e)%Z
    /\ ((shr_r (shr_record_of_loc m l) = false
         /\ shr_s (shr_record_of_loc m l) = false
         /\ X == inject_Z (shr_m (shr_record_of_loc m l)))
        \/ e = (-1074)%Z \/ pow2 52 <= X)).
  { intros Hn. rewrite shr_m_of_loc.
    assert (Hd : (d <= 53)%Z) by lia.
    split; [|split; [lia|]].
    - pose proof (Z.pow_le_mono_r 2 d 53 ltac:(lia) Hd). lia.
    - destruct Hloc as [->|He].
      + left. repeat split; try reflexivity. now apply represents_of_loc_exact.
      + destruct (Z.eq_dec e (-1074)) as [->|Hne]; [right; left; reflexivity|].
        right; right.
        assert (Hd53 : d = 53%Z) by lia.
        assert (Hmpos : (0 < m)%Z) by (apply Zdigits2_pos; fold d; lia).
        pose proof (Zdigits2_lower Hmpos) as Hlow. fold d in Hlow.
        rewrite Hd53 in Hlow. change (53 - 1)%Z with 52%Z in Hlow.
        rewrite (@pow2_Z 52) by lia.
        apply Qle_trans with (inject_Z m); [now rewrite <- Zle_Qle|exact HXlo]. }
  destruct (Z.max (d + e - 53) (-1074) - e)%Z as [|p|p] eqn:Hn.
  - exists (shr_record_of_loc m l), e, X.
    split; [reflexivity|]. split; [exact Hrep|]. split; [reflexivity|].
    apply Hnoshift. lia.
  - exists (iter_pos shr_1 p (shr_record_of_loc m l)), (e + Z.pos p)%Z, (X / pow2 (Z.pos p)).
    pose proof (pow2_pos (Z.pos p)) as Hpp.
    pose proof (iter_pos_represents p Hrep) as Hrep'.
    pose proof (represents_bounds Hrep') as [Hlo' Hhi'].
    split; [reflexivity|]. split; [exact Hrep'|].
    split; [rewrite pow2_add; field; lra|].
    assert (HXd : X < pow2 d).
    { rewrite (pow2_Z Hd0).
      apply Qlt_le_trans with (inject_Z m + 1); [exact HXhi|].
      change 1 with (inject_Z 1). rewrite <- inject_Z_plus, <- Zle_Qle. lia. }
    split; [|split; [lia|]].
    + assert (HX53 : X / pow2 (Z.pos p) < pow2 53).
      { apply Qlt_shift_div_r; [exact Hpp|].
        apply Qlt_le_trans with (pow2 d); [exact HXd|].
        rewrite <- pow2_add. apply pow2_le. lia. }
      rewrite (@pow2_Z 53) in HX53 by lia.
      rewrite Zlt_Qlt. apply Qle_lt_trans with (X / pow2 (Z.pos p)); assumption.
    + destruct (Z.eq_dec (e + Z.pos p) (-1074)) as [Heq|Hne]; [right; left; exact Heq|].
      right; right.
      assert (Hp : Z.pos p = (d - 53)%Z) by lia.
      assert (Hmpos : (0 < m)%Z) by (apply Zdigits2_pos; fold d; lia).
      pose proof (Zdigits2_lower Hmpos) as Hlow. fold d in Hlow.
      apply Qle_shift_div_l; [exact Hpp|].
      rewrite <- pow2_add. replace (52 + Z.pos p)%Z with (d - 1)%Z by lia.
      rewrite (@pow2_Z (d - 1)) by lia.
      apply Qle_trans with (inject_Z m); [now rewrite <- Zle_Qle|exact HXlo].
  - exists (shr_record_of_loc m l), e, X.
    split; [reflexivity|]. split; [exact Hrep|]. split; [reflexivity|].
    apply Hnoshift. lia.
Qed.

(** The second shift of a rounding only acts when the rounding carried into
    a 54th digit, and then it cuts off a zero. *)
Lemma second_shift (m1 e' : Z) :
  (0 <= m1 <= 2 ^ 53)%Z -> (-1074 <= e')%Z ->
  exists (mrs'' : shr_record) (e'' : Z),
    shr_fexp Binary64.prec Binary64.emax m1 e' loc_Exact = (mrs'', e'')
    /\ (0 <= shr_m mrs'')%Z
    /\ inject_Z (shr_m mrs'') * pow2 e'' == inject_Z m1 * pow2 e'.
Proof.
  intros Hm1 He'. unfold shr_fexp, shr. rewrite fexp_eq.
  destruct (Z.max (Zdigits2 m1 + e' - 53) (-1074) - e')%Z as [|p|p] eqn:Hn.
  - exists (shr_record_of_loc m1 loc_Exact), e'. cbn. repeat split; try lia.
  - assert (Hd : (54 <= Zdigits2 m1)%Z) by lia.
    assert (Hpos : (0 < m1)%Z) by (apply Zdigits2_pos; lia).
    pose proof (Zdigits2_lower Hpos) as Hlow.
    pose proof (Z.pow_le_mono_r 2 53 (Zdigits2 m1 - 1) ltac:(lia) ltac:(lia)) as Hpow.
    assert (Hm : m1 = (2 ^ 53)%Z) by lia.
    subst m1. change (Zdigits2 (2 ^ 53)) with 54%Z in Hn.
    assert (Hp : p = 1%positive) by lia. subst p.
    eexists. eexists. split; [reflexivity|].
    cbn [iter_pos shr_1 shr_record_of_loc shr_m]. split; [cbn; lia|].
    rewrite pow2_succ. cbn. ring.
  - exists (shr_record_of_loc m1 loc_Exact), e'. cbn. repeat split; try lia.
Qed.

Lemma rounding_error (a X' P eta : Q) :
  0 < P -> 0 <= X' -> 0 <= eta ->
  Qabs (a - X') <= 1 # 2 ->
  (a == X' \/ (1 # 2) * P == eta \/ pow2 52 <= X') ->
  Qabs (a * P - X' * P) <= (1 # 9007199254740992) * (X' * P) + eta.
Proof.
  intros HP HX Heta Habs Hcase.
  apply Qabs_Qle_condition in Habs. destruct Habs as [Hlo Hhi].
  assert (HXP : 0 <= X' * P) by nra.
  apply Qabs_Qle_condition.
  destruct Hcase as [Heq|[Hmin|Hbig]].
  - rewrite Heq. split; lra.
  - split; nra.
  - rewrite (@pow2_Z 52) in Hbig by lia.
    change (inject_Z (2 ^ 52)) with (4503599627370496 # 1) in Hbig.
    split; nra.
Qed.


(** What [binary_round_aux] returns for a number [X * 2^e] that the
    mantissa [m] and the location [l] stand for: the number it returns, if it
    does not overflow, is within the rounding error of [X * 2^e]. *)
Lemma binary_round_aux_spec (s : bool) (m e : Z) (l : location) (X : Q) :
  represents X (shr_record_of_loc m l) ->
  (l = loc_Exact \/ (e <= fexp Binary64.prec Binary64.emax (Zdigits2 m + e))%Z) ->
  exists m1 e1 : Z,
    (0 <= m1)%Z
    /\ binary_round_aux Binary64.prec Binary64.emax s m e l
       = match m1 with
         | Z0 => S754_zero s
         | Zpos p =>
             if (e1 <=? Binary64.emax - Binary64.prec)%Z
             then S754_finite s p e1 else S754_infinity s
         | Zneg _ => S754_nan
         end
    /\ Qabs (inject_Z m1 * pow2 e1 - X * pow2 e) <= eps * (X * pow2 e) + eta.
Proof.
  intros Hrep Hloc.
  destruct (@first_shift m e l X Hrep Hloc)
    as [mrs' [e' [X' [Hsh [Hrep' [Hval [Hm53 [He' Herr]]]]]]]].
  pose proof (round_nearest_even_represents Hrep') as [[Hlo Hhi] Habs].
  assert (Hm0 : (0 <= shr_m mrs')%Z) by (destruct Hrep' as [Hm0 _]; exact Hm0).
  set (m1 := round_nearest_even (shr_m mrs') (loc_of_shr_record mrs')) in *.
  destruct (@second_shift m1 e' ltac:(lia) He') as [mrs'' [e'' [Hsh2 [Hm2 Hval2]]]].
  exists (shr_m mrs''), e''. split; [exact Hm2|]. split.
  - unfold binary_round_aux. rewrite Hsh. fold m1. rewrite Hsh2. reflexivity.
  - rewrite Hval2, <- Hval. unfold eps, eta.
    apply rounding_error.
    + apply pow2_pos.
    + now apply (represents_nonneg Hrep').
    + apply Qlt_le_weak, pow2_pos.
    + exact Habs.
    + destruct Herr as [[Hr [Hs HX']]|[He|Hbig]].
      * left. rewrite HX'. unfold m1.
        destruct mrs' as [m' r' s']. cbn in Hr, Hs. subst r' s'. reflexivity.
      * right; left. subst e'.
        change (-1074)%Z with (-1075 + 1)%Z. rewrite pow2_succ. field.
      * right; right. exact Hbig.
Qed.

Lemma eps_pos : 0 < eps.
Proof. reflexivity. Qed.

Lemma eta_pos : 0 < eta.
Proof. apply pow2_pos. Qed.

Lemma B2Q_finite (s : bool) (m : positive) (e : Z) :
  B2Q (S754_finite s m e) == signed s (inject_Z (Zpos m) * pow2 e).
Proof. destruct s; simpl; ring. Qed.

Lemma signed_abs (s : bool) (x : Q) : Qabs (signed s x) == Qabs x.
Proof. destruct s; simpl; [apply Qabs_opp|reflexivity]. Qed.

Lemma signed_minus (s : bool) (x y : Q) : signed s x - signed s y == signed s (x - y).
Proof. destruct s; simpl; ring. Qed.

Lemma signed_mult (s1 s2 : bool) (x y : Q) :
  signed s1 x * signed s2 y == signed (xorb s1 s2) (x * y).
Proof. destruct s1, s2; simpl; ring. Qed.

Lemma within_refl (x y : Q) : x == y -> within x y.
Proof.
  intros H. unfold within. rewrite H.
  setoid_replace (y - y) with 0 by ring. simpl.
  pose proof (Qabs_nonneg y). pose proof eps_pos. pose proof eta_pos. nra.
Qed.

#[export] Instance within_proper : Proper (Qeq ==> Qeq ==> iff) within.
Proof. intros x x' Hx y y' Hy. unfold within. now rewrite Hx, Hy. Qed.

#[export] Instance signed_proper : Proper (eq ==> Qeq ==> Qeq) signed.
Proof. intros s s' <- x x' Hx. destruct s; simpl; now rewrite Hx. Qed.

Lemma represents_exact (m : Z) :
  (0 <= m)%Z -> represents (inject_Z m) (shr_record_of_loc m loc_Exact).
Proof.
  intros Hm. split; [exact Hm|]. exists 0. cbn.
  repeat split; try lra; try discriminate.
Qed.

(** A rounding that does not overflow returns a number within one rounding
    of the number it was given. *)
Lemma binary_round_aux_within (s : bool) (m e : Z) (l : location) (X : Q) :
  represents X (shr_record_of_loc m l) ->
  (l = loc_Exact \/ (e <= fexp Binary64.prec Binary64.emax (Zdigits2 m + e))%Z) ->
  Binary64.is_finite (binary_round_aux Binary64.prec Binary64.emax s m e l) = true ->
  within (B2Q (binary_round_aux Binary64.prec Binary64.emax s m e l))
    (signed s (X * pow2 e)).
Proof.
  intros Hrep Hloc Hfin.
  pose proof (represents_nonneg Hrep) as HX.
  pose proof (pow2_pos e) as Hp.
  assert (HY : 0 <= X * pow2 e) by nra.
  destruct (@binary_round_aux_spec s m e l X Hrep Hloc) as [m1 [e1 [Hm1 [Heq Hb]]]].
  rewrite Heq in Hfin |- *. unfold within.
  destruct m1 as [|p|p]; [| |lia].
  - cbn [B2Q]. rewrite signed_abs, (Qabs_pos _ HY).
    setoid_replace (0 - signed s (X * pow2 e)) with (signed s (0 - X * pow2 e))
      by (destruct s; simpl; ring).
    rewrite signed_abs.
    setoid_replace (0 - X * pow2 e) with (inject_Z 0 * pow2 e1 - X * pow2 e)
      by (change (inject_Z 0) with 0; ring).
    exact Hb.
  - destruct (e1 <=? Binary64.emax - Binary64.prec)%Z; [|discriminate].
    rewrite B2Q_finite, signed_minus, !signed_abs, (Qabs_pos _ HY). exact Hb.
Qed.

Lemma shl_align_value (mx : positive) (ex ez : Z) :
  inject_Z (Zpos (fst (shl_align mx ex ez))) * pow2 (snd (shl_align mx ex ez))
  == inject_Z (Zpos mx) * pow2 ex.
Proof.
  unfold shl_align. destruct (ez - ex)%Z as [|d|d] eqn:E; cbn [fst snd]; try reflexivity.
  change (Pos.iter xO mx d) with (shift_pos d mx).
  rewrite shift_pos_correct, Z.pow_pos_fold.
  replace ex with (ez + Zpos d)%Z by lia.
  rewrite pow2_add, (@pow2_Z (Zpos d)) by lia.
  rewrite inject_Z_mult. ring.
Qed.

Lemma shl_align_snd (mx : positive) (ex ez : Z) :
  (ez <= ex)%Z -> snd (shl_align mx ex ez) = ez.
Proof.
  intros H. unfold shl_align. destruct (ez - ex)%Z as [|d|d] eqn:E; cbn [snd]; lia.
Qed.

Lemma binary_round_within (s : bool) (m : positive) (e : Z) :
  Binary64.is_finite (binary_round Binary64.prec Binary64.emax s m e) = true ->
  within (B2Q (binary_round Binary64.prec Binary64.emax s m e))
    (signed s (inject_Z (Zpos m) * pow2 e)).
Proof.
  unfold binary_round.
  pose proof (shl_align_value m e
    (fexp Binary64.prec Binary64.emax (Zpos (digits2_pos m) + e))) as Hv.
  destruct (shl_align m e (fexp Binary64.prec Binary64.emax (Zpos (digits2_pos m) + e)))
    as [mz ez]. cbn [fst snd] in Hv.
  intros Hfin. rewrite <- Hv.
  apply binary_round_aux_within; [|left; reflexivity|exact Hfin].
  apply represents_exact. lia.
Qed.

Lemma binary_normalize_within (m e : Z) (szero : bool) :
  Binary64.is_finite (binary_normalize Binary64.prec Binary64.emax m e szero) = true ->
  within (B2Q (binary_normalize Binary64.prec Binary64.emax m e szero))
    (inject_Z m * pow2 e).
Proof.
  destruct m as [|p|p]; cbn [binary_normalize].
  - intros _. apply within_refl. simpl. change (inject_Z 0) with 0. ring.
  - intros Hfin. exact (binary_round_within false p e Hfin).
  - intros Hfin. pose proof (binary_round_within true p e Hfin) as H.
    cbn [signed] in H.
    setoid_replace (inject_Z (Z.neg p) * pow2 e) with (- (inject_Z (Z.pos p) * pow2 e)).
    + exact H.
    + change (Z.neg p) with (- Z.pos p)%Z. rewrite inject_Z_opp. ring.
Qed.

(** ** The three operations *)

Lemma mul_finite (x y : spec_float) :
  Binary64.is_finite (Binary64.mul x y) = true ->
  Binary64.is_finite x = true /\ Binary64.is_finite y = true.
Proof. destruct x, y; simpl; auto; discriminate. Qed.

Lemma add_finite (x y : spec_float) :
  Binary64.is_finite (Binary64.add x y) = true ->
  Binary64.is_finite x = true /\ Binary64.is_finite y = true.
Proof.
  destruct x as [sx|sx| |sx mx ex], y as [sy|sy| |sy my ey]; simpl; auto;
    try discriminate; destruct sx, sy; simpl; auto; discriminate.
Qed.

Lemma div_finite (x : spec_float) (sy : bool) (my : positive) (ey : Z) :
  Binary64.is_finite (Binary64.div x (S754_finite sy my ey)) = true ->
  Binary64.is_finite x = true.
Proof. destruct x; simpl; auto; discriminate. Qed.

Lemma mul_within (x y : spec_float) :
  Binary64.is_finite (Binary64.mul x y) = true ->
  within (B2Q (Binary64.mul x y)) (B2Q x * B2Q y).
Proof.
  destruct x as [sx|sx| |sx mx ex], y as [sy|sy| |sy my ey];
    try (intros H; discriminate H);
    try (intros _; apply within_refl; simpl; ring).
  intros Hfin. unfold Binary64.mul, SFmul in *.
  rewrite !B2Q_finite.
  setoid_replace (signed sx (inject_Z (Z.pos mx) * pow2 ex)
                  * signed sy (inject_Z (Z.pos my) * pow2 ey))
    with (signed (xorb sx sy) (inject_Z (Z.pos (mx * my)) * pow2 (ex + ey))).
  - apply binary_round_aux_within; [|left; reflexivity|exact Hfin].
    apply represents_exact. lia.
  - rewrite signed_mult, pow2_add, Pos2Z.inj_mul, inject_Z_mult.
    destruct (xorb sx sy); simpl; ring.
Qed.

Lemma cond_Zopp_signed (s : bool) (z : Z) :
  inject_Z (cond_Zopp s z) == signed s (inject_Z z).
Proof. destruct s; simpl; [rewrite inject_Z_opp|]; reflexivity. Qed.

Lemma add_within (x y : spec_float) :
  Binary64.is_finite (Binary64.add x y) = true ->
  within (B2Q (Binary64.add x y)) (B2Q x + B2Q y).
Proof.
  destruct x as [sx|sx| |sx mx ex], y as [sy|sy| |sy my ey];
    try (intros H; discriminate H);
    try (intros _; apply within_refl; destruct sx, sy; simpl; ring);
    try (destruct sx, sy; intros H; discriminate H).
  intros Hfin. unfold Binary64.add, SFadd in *.
  set (ez := Z.min ex ey) in *.
  pose proof (shl_align_value mx ex ez) as Hx.
  pose proof (shl_align_value my ey ez) as Hy.
  rewrite shl_align_snd in Hx by lia. rewrite shl_align_snd in Hy by lia.
  setoid_replace (B2Q (S754_finite sx mx ex) + B2Q (S754_finite sy my ey))
    with (inject_Z (cond_Zopp sx (Z.pos (fst (shl_align mx ex ez)))
                    + cond_Zopp sy (Z.pos (fst (shl_align my ey ez)))) * pow2 ez).
  - apply binary_normalize_within. exact Hfin.
  - rewrite !B2Q_finite, inject_Z_plus, !cond_Zopp_signed, <- Hx, <- Hy.
    destruct sx, sy; simpl; ring.
Qed.

Lemma new_location_represents (my r q : Z) :
  (0 < my)%Z -> (0 <= r < my)%Z -> (0 <= q)%Z ->
  represents (inject_Z q + inject_Z r / inject_Z my)
    (shr_record_of_loc q (new_location my r)).
Proof.
  intros Hmy Hr Hq.
  assert (HmyQ : 0 < inject_Z my) by (change 0 with (inject_Z 0); now rewrite <- Zlt_Qlt).
  assert (HrQ : 0 <= inject_Z r) by (apply inject_Z_nonneg; lia).
  assert (Hlt : inject_Z r < inject_Z my) by (rewrite <- Zlt_Qlt; lia).
  set (f := inject_Z r / inject_Z my).
  assert (Hf : f * inject_Z my == inject_Z r) by (unfold f; field; lra).
  assert (Hcmp : forall c, (2 * r ?= my)%Z = c ->
            match c with
            | Lt => 2 * f < 1 | Eq => 2 * f == 1 | Gt => 1 < 2 * f
            end).
  { intros c Hc. destruct c.
    - apply Z.compare_eq in Hc.
      assert (inject_Z my == 2 * inject_Z r)
        by (rewrite <- Hc, inject_Z_mult; reflexivity).
      nra.
    - rewrite Z.compare_lt_iff in Hc. rewrite Zlt_Qlt, inject_Z_mult in Hc.
      change (inject_Z 2) with 2 in Hc. nra.
    - rewrite Z.compare_gt_iff in Hc. rewrite Zlt_Qlt, inject_Z_mult in Hc.
      change (inject_Z 2) with 2 in Hc. nra. }
  assert (Hloc : new_location my r
                 = if (r =? 0)%Z then loc_Exact else loc_Inexact (2 * r ?= my)%Z).
  { unfold new_location, new_location_even, new_location_odd.
    destruct (Z.even my) eqn:Ev; [reflexivity|].
    destruct (r =? 0)%Z; [reflexivity|]. f_equal.
    assert (Hodd : Z.odd my = true) by (rewrite <- Z.negb_even, Ev; reflexivity).
    apply Z.odd_spec in Hodd. destruct Hodd as [k Hk].
    destruct (2 * r + 1 ?= my)%Z eqn:E1; destruct (2 * r ?= my)%Z eqn:E2;
      try reflexivity;
      try apply Z.compare_eq in E1; try apply Z.compare_eq in E2;
      try rewrite Z.compare_lt_iff in E1; try rewrite Z.compare_lt_iff in E2;
      try rewrite Z.compare_gt_iff in E1; try rewrite Z.compare_gt_iff in E2; lia. }
  rewrite Hloc. split; [now rewrite shr_m_of_loc|].
  destruct (r =? 0)%Z eqn:E0.
  - apply Z.eqb_eq in E0. exists 0. cbn. unfold half_if.
    assert (f == 0) by (unfold f; rewrite E0; change (inject_Z 0) with 0; field; lra).
    repeat split; try lra; try discriminate.
  - apply Z.eqb_neq in E0.
    assert (0 < inject_Z r) by (change 0 with (inject_Z 0); rewrite <- Zlt_Qlt; lia).
    assert (0 < f) by nra.
    pose proof (Hcmp _ eq_refl) as Hc.
    destruct (2 * r ?= my)%Z; cbn; unfold half_if.
    + exists 0. repeat split; try lra; try discriminate.
    + exists f. repeat split; try lra; try discriminate.
    + exists (f - (1 # 2)). assert (f < 1) by nra.
      repeat split; try lra; try discriminate.
Qed.

Lemma Zdigits2_ge (q k : Z) : (0 <= k)%Z -> (2 ^ k <= q)%Z -> (k < Zdigits2 q)%Z.
Proof.
  intros Hk Hq. assert (Hq0 : (0 <= q)%Z) by (pose proof (Z.pow_pos_nonneg 2 k); lia).
  pose proof (Zdigits2_upper Hq0) as Hup.
  pose proof (Zdigits2_nonneg q) as Hd.
  destruct (Z_lt_le_dec k (Zdigits2 q)) as [H|H]; [exact H|].
  pose proof (Z.pow_le_mono_r 2 _ _ ltac:(lia) H). lia.
Qed.

Lemma div_core_spec (mx my : positive) (ex ey : Z) :
  exists (q e' : Z) (l : location) (X : Q),
    SFdiv_core_binary Binary64.prec Binary64.emax (Zpos mx) ex (Zpos my) ey = (q, e', l)
    /\ represents X (shr_record_of_loc q l)
    /\ (e' <= fexp Binary64.prec Binary64.emax (Zdigits2 q + e'))%Z
    /\ X * pow2 e' == (inject_Z (Zpos mx) * pow2 ex) / (inject_Z (Zpos my) * pow2 ey).
Proof.
  unfold SFdiv_core_binary.
  set (d1 := Zdigits2 (Zpos mx)). set (d2 := Zdigits2 (Zpos my)).
  set (e' := Z.min (fexp Binary64.prec Binary64.emax (d1 + ex - (d2 + ey))) (ex - ey)).
  set (s := (ex - ey - e')%Z).
  assert (Hs : (0 <= s)%Z) by (unfold s, e'; lia).
  set (m' := match s with
             | 0%Z => Z.pos mx
             | Z.pos _ => Z.shiftl (Z.pos mx) s
             | Z.neg _ => 0%Z
             end).
  assert (Hm' : m' = (Zpos mx * 2 ^ s)%Z).
  { unfold m'. destruct s as [|p|p] eqn:Es; [simpl; lia| |lia].
    now rewrite Z.shiftl_mul_pow2 by lia. }
  pose proof (Z_div_mod m' (Zpos my) ltac:(lia)) as Hdm.
  destruct (Z.div_eucl m' (Z.pos my)) as [q r]. destruct Hdm as [Hdiv Hr].
  assert (Hpow : (0 < 2 ^ s)%Z) by (apply Z.pow_pos_nonneg; lia).
  assert (Hq : (0 <= q)%Z) by nia.
  exists q, e', (new_location (Zpos my) r),
    (inject_Z q + inject_Z r / inject_Z (Zpos my)).
  split; [reflexivity|]. split; [|split].
  - apply new_location_represents; lia.
  - rewrite fexp_eq. unfold e' at 1. rewrite fexp_eq.
    destruct (Z_le_gt_dec (d1 + ex - (d2 + ey) - 53) (-1074)) as [Hsmall|Hbig]; [lia|].
    assert (Hdq : (d1 - d2 + s <= Zdigits2 q)%Z).
    { pose proof (Zdigits2_nonneg q).
      destruct (Z_le_gt_dec (d1 - d2 + s) 0) as [H0|H0]; [lia|].
      assert (H1 : (2 ^ (d1 - 1) <= Zpos mx)%Z) by (apply Zdigits2_lower; lia).
      assert (H2 : (Zpos my < 2 ^ d2)%Z) by (apply Zdigits2_upper; lia).
      assert (Hd1 : (0 < d1)%Z).
      { unfold d1. rewrite Zdigits2_log2 by lia. pose proof (Z.log2_nonneg (Zpos mx)). lia. }
      assert (Hd2 : (0 < d2)%Z).
      { unfold d2. rewrite Zdigits2_log2 by lia. pose proof (Z.log2_nonneg (Zpos my)). lia. }
      assert (H3 : (2 ^ (d1 - d2 + s - 1) <= q)%Z).
      { assert (Hsplit : (2 ^ (d1 - 1) * 2 ^ s = 2 ^ (d1 - d2 + s - 1) * 2 ^ d2)%Z).
        { rewrite <- !Z.pow_add_r by lia. f_equal. lia. }
        assert (Hk : (0 < 2 ^ (d1 - d2 + s - 1))%Z) by (apply Z.pow_pos_nonneg; lia).
        destruct (Z_le_gt_dec (2 ^ (d1 - d2 + s - 1)) q) as [Hle|Hgt]; [exact Hle|].
        exfalso.
        assert ((q + 1) * Zpos my <= 2 ^ (d1 - d2 + s - 1) * Zpos my)%Z by nia.
        assert (2 ^ (d1 - d2 + s - 1) * Zpos my < 2 ^ (d1 - d2 + s - 1) * 2 ^ d2)%Z by nia.
        nia. }
      pose proof (@Zdigits2_ge q (d1 - d2 + s - 1) ltac:(lia) H3). lia. }
    unfold s in Hdq. lia.
  - assert (HmyQ : 0 < inject_Z (Zpos my)) by reflexivity.
    assert (HQ : inject_Z (Zpos mx) * pow2 s
                 == inject_Z (Zpos my) * inject_Z q + inject_Z r).
    { rewrite (@pow2_Z s) by lia. rewrite <- !inject_Z_mult, <- inject_Z_plus.
      rewrite <- Hdiv, Hm'. reflexivity. }
    assert (He : pow2 ex == pow2 s * pow2 e' * pow2 ey).
    { rewrite <- !pow2_add. replace (s + e' + ey)%Z with ex by (unfold s; lia). reflexivity. }
    pose proof (pow2_pos ey). pose proof (pow2_pos e'). pose proof (pow2_pos s).
    rewrite He.
    setoid_replace (inject_Z (Z.pos mx) * (pow2 s * pow2 e' * pow2 ey)
                    / (inject_Z (Z.pos my) * pow2 ey))
      with ((inject_Z (Z.pos mx) * pow2 s) / inject_Z (Z.pos my) * pow2 e')
      by (field; split; lra).
    rewrite HQ. field. lra.
Qed.

Lemma signed_div (s1 s2 : bool) (x y : Q) :
  ~ y == 0 -> signed s1 x / signed s2 y == signed (xorb s1 s2) (x / y).
Proof. intros Hy. destruct s1, s2; simpl; field; exact Hy. Qed.

Lemma div_within (x : spec_float) (sy : bool) (my : positive) (ey : Z) :
  Binary64.is_finite (Binary64.div x (S754_finite sy my ey)) = true ->
  within (B2Q (Binary64.div x (S754_finite sy my ey)))
    (B2Q x / B2Q (S754_finite sy my ey)).
Proof.
  destruct x as [sx|sx| |sx mx ex];
    try (intros H; discriminate H).
  - intros _. apply within_refl. simpl. unfold Qdiv. ring.
  - unfold Binary64.div, SFdiv.
    destruct (div_core_spec mx my ex ey) as [q [e' [l [X [Hcore [Hrep [Hexp Hval]]]]]]].
    rewrite Hcore. intros Hfin.
    assert (Hy : ~ inject_Z (Zpos my) * pow2 ey == 0).
    { pose proof (pow2_pos ey). assert (0 < inject_Z (Zpos my)) by reflexivity. nra. }
    rewrite !B2Q_finite, signed_div by exact Hy. rewrite <- Hval.
    apply binary_round_aux_within; [exact Hrep|right; exact Hexp|exact Hfin].
Qed.

Lemma gamma_0 : gamma 0 == 0.
Proof. reflexivity. Qed.

Lemma gamma_S (k : nat) : gamma (S k) == (1 + eps) * gamma k + eps.
Proof.
  unfold gamma. rewrite Nat2Z.inj_succ. unfold Z.succ.
  rewrite Qpower_plus by discriminate.
  change ((1 + eps) ^ 1) with (1 + eps). ring.
Qed.

Lemma gamma_nonneg (k : nat) : 0 <= gamma k.
Proof.
  induction k as [|k IH]; [rewrite gamma_0; lra|].
  rewrite gamma_S. pose proof eps_pos. nra.
Qed.

Lemma gamma_add (a b : nat) : (1 + gamma a) * (1 + gamma b) == 1 + gamma (a + b).
Proof.
  unfold gamma. rewrite Nat2Z.inj_add, Qpower_plus by discriminate. ring.
Qed.

Lemma eta_eps_tiny : eta == eps * tiny.
Proof.
  unfold eta, tiny. change (-1075)%Z with (-53 + -1022)%Z.
  rewrite pow2_add. reflexivity.
Qed.

Lemma Qabs_le_of (x b : Q) : - b <= x -> x <= b -> Qabs x <= b.
Proof. intros H1 H2. apply Qabs_Qle_condition. split; assumption. Qed.

Lemma Qabs_bounds (x : Q) : - Qabs x <= x /\ x <= Qabs x.
Proof. apply Qabs_Qle_condition. apply Qle_refl. Qed.

Lemma Qabs_le_elim (x b : Q) : Qabs x <= b -> - b <= x /\ x <= b.
Proof. apply Qabs_Qle_condition. Qed.

Lemma sum_of_nonneg (T : Type) (f : T -> Q) (items : list T) :
  (forall item, 0 <= f item) -> 0 <= sum_of f items.
Proof.
  intros Hf. induction items as [|item items IH]; simpl; [lra|].
  specialize (Hf item). lra.
Qed.

Lemma sum_of_map (T U : Type) (g : T -> U) (f : U -> Q) (items : list T) :
  sum_of f (map g items) = sum_of (fun item => f (g item)) items.
Proof. induction items as [|item items IH]; simpl; [reflexivity|now rewrite IH]. Qed.

Lemma Qmult_le_nonneg_l (x y z : Q) : 0 <= z -> x <= y -> z * x <= z * y.
Proof. intros Hz Hxy. nra. Qed.

Lemma Qmult_nonneg (x y : Q) : 0 <= x -> 0 <= y -> 0 <= x * y.
Proof. intros Hx Hy. nra. Qed.

Lemma sum_step (F a' A X SX M g : Q) :
  0 <= g -> 0 <= M ->
  Qabs (F - (a' + SX)) <= g * (Qabs a' + M + tiny) ->
  within a' (A + X) ->
  Qabs (F - (A + (X + SX))) <= ((1 + eps) * g + eps) * (Qabs A + (Qabs X + M) + tiny).
Proof.
  intros Hg HM Hb Hw. unfold within in Hw.
  pose proof eps_pos as He. pose proof eta_eps_tiny as Het.
  assert (Ht : 0 < tiny) by apply pow2_pos.
  pose proof (Qabs_triangle A X) as Htri.
  pose proof (Qabs_nonneg (A + X)) as Hs0.
  pose proof (Qabs_nonneg A) as HA0. pose proof (Qabs_nonneg X) as HX0.
  assert (Ha' : Qabs a' <= (1 + eps) * Qabs (A + X) + eta).
  { setoid_replace a' with ((a' - (A + X)) + (A + X)) at 1 by ring.
    pose proof (Qabs_triangle (a' - (A + X)) (A + X)). clear Hb. lra. }
  pose proof (Qabs_nonneg a') as Ha0.
  apply Qabs_le_elim in Hb. apply Qabs_le_elim in Hw.
  remember (Qabs (A + X)) as s. remember (Qabs A) as P. remember (Qabs X) as PX.
  remember (Qabs a') as aa. remember eta as et. remember tiny as t. remember eps as e.
  assert (H1 : g * aa <= g * ((1 + e) * s + et))
    by (apply Qmult_le_nonneg_l; assumption).
  assert (H2 : 0 <= ((1 + e) * g + e) * (P + PX - s))
    by (apply Qmult_nonneg; [apply Qlt_le_weak in He; pose proof (Qmult_nonneg He Hg)|]; lra).
  assert (H3 : 0 <= (e * g + e) * M)
    by (apply Qmult_nonneg; [apply Qlt_le_weak in He; pose proof (Qmult_nonneg He Hg)|]; lra).
  assert (H4 : 0 <= g * e) by (apply Qmult_nonneg; lra).
  clear Heqs HeqP HeqPX Heqaa Heqet Heqt Heqe.
  apply Qabs_le_of; nra.
Qed.

(** The sum [fold_left] accumulates from left to right, when it is finite,
    has been built from finite numbers only and is off the exact sum by at
    most [gamma n] times the magnitudes added up. *)
Lemma fold_add_within (xs : list spec_float) (a : spec_float) :
  Binary64.is_finite (fold_left Binary64.add xs a) = true ->
  Binary64.is_finite a = true
  /\ Forall (fun x => Binary64.is_finite x = true) xs
  /\ Qabs (B2Q (fold_left Binary64.add xs a) - (B2Q a + sum_of B2Q xs))
     <= gamma (List.length xs) * (Qabs (B2Q a) + sum_of (fun x => Qabs (B2Q x)) xs + tiny).
Proof.
  revert a. induction xs as [|x xs IH]; intros a Hfin.
  - cbn [fold_left List.length sum_of fold_right] in *. repeat split; auto.
    rewrite gamma_0.
    setoid_replace (B2Q a - (B2Q a + 0)) with 0 by ring.
    apply Qabs_le_of; lra.
  - cbn [fold_left List.length sum_of fold_right] in *.
    destruct (IH _ Hfin) as [Hfa [Hall Hb]].
    destruct (add_finite _ _ Hfa) as [Ha Hx].
    pose proof (add_within _ _ Hfa) as Hw.
    repeat split; auto.
    rewrite gamma_S.
    apply sum_step with (a' := B2Q (Binary64.add a x)); auto.
    + apply gamma_nonneg.
    + apply sum_of_nonneg; intros; apply Qabs_nonneg.
Qed.

(** ** The rounding of the line amounts and of their sums *)

Section TotalsRounding.

Lemma Qmult_le_compat_nonneg (x X y Y : Q) :
  0 <= x -> x <= X -> 0 <= y -> y <= Y -> x * y <= X * Y.
Proof. intros Hx HxX Hy HyY. nra. Qed.

Lemma Qabs_minus_le (x y : Q) : Qabs x <= Qabs (x - y) + Qabs y.
Proof.
  setoid_replace x with ((x - y) + y) at 1 by ring. apply Qabs_triangle.
Qed.

Lemma gamma_1 : gamma 1 == eps.
Proof. reflexivity. Qed.

Lemma gamma_3 : gamma 3 == eps * (3 + 3 * eps + eps * eps).
Proof. reflexivity. Qed.

Lemma eta_le_half : eta <= 1 # 2.
Proof.
  unfold eta. setoid_replace (1 # 2) with (pow2 (-1)) by reflexivity.
  apply pow2_le. lia.
Qed.

(** The product of two rounded numbers, rounded: three roundings in all. *)
Lemma product_error (L a D b V : Q) :
  within L a -> within D b -> within V (L * D) ->
  Qabs (V - a * b)
  <= gamma 3 * Qabs (a * b) + 2 * eta * (Qabs a + Qabs b + 1).
Proof.
  unfold within. intros HL HD HV.
  rewrite gamma_3, !Qabs_Qmult in *.
  pose proof (Qabs_minus_le L a) as Hl. pose proof (Qabs_minus_le D b) as Hd.
  pose proof (Qabs_nonneg (L - a)) as Hu0. pose proof (Qabs_nonneg (D - b)) as Hw0.
  pose proof (Qabs_nonneg a) as Ha0. pose proof (Qabs_nonneg b) as Hb0.
  pose proof (Qabs_nonneg L) as Hl0. pose proof (Qabs_nonneg D) as Hd0.
  assert (Hx : Qabs (L * D - a * b) <= Qabs (L - a) * Qabs D + Qabs a * Qabs (D - b)).
  { setoid_replace (L * D - a * b) with ((L - a) * D + a * (D - b)) by ring.
    rewrite <- !Qabs_Qmult. apply Qabs_triangle. }
  assert (Hld : Qabs L * Qabs D <= Qabs a * Qabs b + Qabs (L * D - a * b)).
  { rewrite <- !Qabs_Qmult.
    setoid_replace (L * D) with ((L * D - a * b) + a * b) at 1 by ring.
    rewrite Qplus_comm. apply Qabs_triangle. }
  assert (Hv : Qabs (V - a * b) <= Qabs (V - L * D) + Qabs (L * D - a * b)).
  { setoid_replace (V - a * b) with ((V - L * D) + (L * D - a * b)) by ring.
    apply Qabs_triangle. }
  pose proof eps_pos as He. pose proof eta_pos as Ht. pose proof eta_le_half as Hth.
  assert (He1 : eps <= 1 # 9007199254740992) by (unfold eps; lra).
  remember (Qabs (L * D - a * b)) as x. remember (Qabs (V - a * b)) as y.
  remember (Qabs (V - L * D)) as z.
  remember (Qabs (L - a)) as u. remember (Qabs (D - b)) as w.
  remember (Qabs a) as α. remember (Qabs b) as β.
  remember (Qabs L) as l. remember (Qabs D) as d.
  remember eps as e. remember eta as t.
  clear Heqx Heqy Heqz Hequ Heqw Heqα Heqβ Heql Heqd Heqe Heqt.
  assert (Hdd : d <= (1 + e) * β + t) by lra.
  assert (H1 : u * d <= (e * α + t) * ((1 + e) * β + t))
    by (apply Qmult_le_compat_nonneg; lra).
  assert (H2 : α * w <= α * (e * β + t))
    by (apply Qmult_le_nonneg_l; lra).
  assert (H3 : y <= e * (α * β) + (1 + e) * x + t) by nra.
  assert (H4 : x <= (e * α + t) * ((1 + e) * β + t) + α * (e * β + t)) by lra.
  assert (H5 : (1 + e) * x
               <= (1 + e) * ((e * α + t) * ((1 + e) * β + t) + α * (e * β + t)))
    by (apply Qmult_le_nonneg_l; lra).
  assert (H6 : 0 <= α * β) by (apply Qmult_nonneg; lra).
  assert (H7 : (1 + e) * (1 + e) <= 2) by nra.
  assert (H8 : (1 + e) * (1 + e) * (t * (α + β)) <= 2 * (t * (α + β))).
  { apply Qmult_le_compat_r; [exact H7|]. apply Qmult_nonneg; lra. }
  assert (H9 : (1 + e) * t * t <= 1 * t).
  { apply Qmult_le_compat_r; [|lra]. nra. }
  nra.
Qed.

Lemma or_zero_B2Q (v : jsval spec_float) :
  B2Q (or_zero v) == field_value (exact_field v).
Proof.
  destruct v as [| |x]; try reflexivity.
  destruct x; reflexivity.
Qed.

Lemma lineTotal_within (item : LineItem spec_float) :
  Binary64.is_finite (lineTotal item) = true ->
  within (B2Q (lineTotal item)) (exact_lineTotal (exact_item item)).
Proof.
  intros Hfin. unfold exact_lineTotal, exact_item. cbn [quantity unitPrice].
  rewrite <- !or_zero_B2Q. exact (mul_within _ _ Hfin).
Qed.

Lemma hundred_finite :
  Binary64.of_Z 100 = S754_finite false 7036874417766400 (-46).
Proof. reflexivity. Qed.

Lemma vatAmount_within (item : LineItem spec_float) :
  Binary64.is_finite (vatAmount item) = true ->
  Qabs (B2Q (vatAmount item) - exact_vatAmount (exact_item item))
  <= gamma 3 * Qabs (exact_vatAmount (exact_item item))
     + underflow_slack (exact_item item).
Proof.
  intros Hfin. unfold vatAmount in *. cbn [num_mul num_div num_of_Z binary64_number] in *.
  destruct (mul_finite _ _ Hfin) as [HL HD].
  pose proof (mul_within _ _ Hfin) as HV.
  pose proof (lineTotal_within item HL) as HLw.
  rewrite hundred_finite in *.
  pose proof (@div_within _ _ _ _ HD) as HDw.
  setoid_replace (B2Q (S754_finite false 7036874417766400 (-46))) with 100 in HDw
    by reflexivity.
  rewrite or_zero_B2Q in HDw.
  pose proof (product_error HLw HDw HV) as H.
  unfold underflow_slack, exact_vatAmount.
  unfold exact_lineTotal in H at 1 2.
  setoid_replace (field_value (quantity (exact_item item))
                  * field_value (unitPrice (exact_item item))
                  * field_value (vatRate (exact_item item)) / 100)
    with (field_value (quantity (exact_item item))
          * field_value (unitPrice (exact_item item))
          * (field_value (exact_field (vatRate item)) / 100))
    by (cbn [vatRate exact_item]; field).
  exact H.
Qed.

Lemma sum_of_ext (T : Type) (f g : T -> Q) (items : list T) :
  (forall item, f item == g item) -> sum_of f items == sum_of g items.
Proof.
  intros Hfg. induction items as [|item items IH]; simpl; [reflexivity|].
  now rewrite Hfg, IH.
Qed.

Lemma sum_of_plus (T : Type) (f g : T -> Q) (items : list T) :
  sum_of (fun item => f item + g item) items == sum_of f items + sum_of g items.
Proof.
  induction items as [|item items IH]; simpl; [ring|]. rewrite IH. ring.
Qed.

Lemma sum_of_const (T : Type) (c : Q) (items : list T) :
  sum_of (fun _ => c) items == inject_Z (Z.of_nat (List.length items)) * c.
Proof.
  induction items as [|item items IH].
  - simpl. ring.
  - cbn [sum_of fold_right List.length]. fold (sum_of (fun _ : T => c) items).
    rewrite IH, Nat2Z.inj_succ. unfold Z.succ. rewrite inject_Z_plus.
    change (inject_Z 1) with 1. ring.
Qed.

Lemma sigma_sum_of (f : LineItem Q -> Q) (items : list (LineItem Q)) :
  sigma f items = sum_of f items.
Proof. reflexivity. Qed.

(** Amounts that are each within [k] roundings and a slack of their exact
    value stay so when added up. *)
Lemma sum_of_within (T : Type) (f : T -> spec_float) (A S : T -> Q) (k : nat)
    (items : list T) :
  (forall item, Binary64.is_finite (f item) = true ->
                Qabs (B2Q (f item) - A item) <= gamma k * Qabs (A item) + S item) ->
  Forall (fun x => Binary64.is_finite x = true) (map f items) ->
  Qabs (sum_of B2Q (map f items) - sum_of A items)
  <= gamma k * sum_of (fun item => Qabs (A item)) items + sum_of S items
  /\ sum_of (fun x => Qabs (B2Q x)) (map f items)
     <= (1 + gamma k) * sum_of (fun item => Qabs (A item)) items + sum_of S items.
Proof.
  intros Hf Hall. induction items as [|item items IH].
  - cbn [map sum_of fold_right]. split; [apply Qabs_le_of|]; lra.
  - cbn [map] in Hall. inversion Hall as [|x xs Hx Hxs]; subst.
    destruct (IH Hxs) as [IH1 IH2]. specialize (Hf item Hx).
    cbn [map sum_of fold_right].
    fold (sum_of B2Q (map f items)). fold (sum_of A items).
    fold (sum_of (fun item => Qabs (A item)) items). fold (sum_of S items).
    fold (sum_of (fun x => Qabs (B2Q x)) (map f items)).
    pose proof (Qabs_minus_le (B2Q (f item)) (A item)) as Hm.
    split.
    + setoid_replace (B2Q (f item) + sum_of B2Q (map f items) - (A item + sum_of A items))
        with ((B2Q (f item) - A item) + (sum_of B2Q (map f items) - sum_of A items))
        by ring.
      pose proof (Qabs_triangle (B2Q (f item) - A item)
                    (sum_of B2Q (map f items) - sum_of A items)).
      lra.
    + lra.
Qed.

(** A binary64 sum of amounts that are each within [k] roundings and a
    slack of their exact value is within the tolerance of the exact sum. *)
Lemma fold_add_tolerance (T : Type) (f : T -> spec_float) (A S : T -> Q) (k : nat)
    (items : list T) :
  (forall item, Binary64.is_finite (f item) = true ->
                Qabs (B2Q (f item) - A item) <= gamma k * Qabs (A item) + S item) ->
  (forall item, 0 <= S item) ->
  Binary64.is_finite (fold_left Binary64.add (map f items) (S754_zero false)) = true ->
  Qabs (B2Q (fold_left Binary64.add (map f items) (S754_zero false)) - sum_of A items)
  <= tolerance k (List.length items) (sum_of (fun item => Qabs (A item)) items)
       (sum_of S items).
Proof.
  intros Hf HS Hfin.
  destruct (fold_add_within _ _ Hfin) as [_ [Hall Hb]].
  destruct (@sum_of_within T f A S k items Hf Hall) as [H1 H2].
  rewrite length_map in Hb. cbn [B2Q] in Hb.
  unfold tolerance.
  assert (Hadd : gamma (List.length items + k)
                 == gamma (List.length items) + gamma k
                    + gamma (List.length items) * gamma k).
  { pose proof (gamma_add (List.length items) k) as Hadd.
    setoid_replace (gamma (List.length items + k))
      with ((1 + gamma (List.length items + k)) - 1) by ring.
    rewrite <- Hadd. ring. }
  rewrite Hadd.
  pose proof (gamma_nonneg (List.length items)) as Hg.
  pose proof (gamma_nonneg k) as Hk.
  assert (HM : 0 <= sum_of (fun item => Qabs (A item)) items)
    by (apply sum_of_nonneg; intros; apply Qabs_nonneg).
  assert (HSS : 0 <= sum_of S items) by (apply sum_of_nonneg; exact HS).
  remember (B2Q (fold_left Binary64.add (map f items) (S754_zero false))) as F.
  remember (sum_of B2Q (map f items)) as SX.
  remember (sum_of (fun x => Qabs (B2Q x)) (map f items)) as MX.
  remember (sum_of A items) as SA.
  remember (sum_of (fun item => Qabs (A item)) items) as M.
  remember (sum_of S items) as SS.
  remember (gamma (List.length items)) as g. remember (gamma k) as gk.
  remember tiny as t.
  clear HeqF HeqSX HeqMX HeqSA HeqM HeqSS Heqg Heqgk Heqt Hf HS Hfin Hall.
  assert (Hv : Qabs (F - SA) <= Qabs (F - (0 + SX)) + Qabs (SX - SA)).
  { setoid_replace (F - SA) with ((F - (0 + SX)) + (SX - SA)) by ring.
    apply Qabs_triangle. }
  assert (H3 : g * (Qabs 0 + MX + t) <= g * (0 + ((1 + gk) * M + SS) + t)).
  { apply Qmult_le_nonneg_l; [exact Hg|]. simpl (Qabs 0). lra. }
  nra.
Qed.

End TotalsRounding.

(** ** The totals within their tolerance *)

Section TotalsTolerance.

Lemma totals_binary64_components (items : list (LineItem spec_float)) :
  subtotal (totals items)
  = fold_left Binary64.add (map lineTotal items) (S754_zero false)
  /\ vatTotal (totals items)
     = fold_left Binary64.add (map vatAmount items) (S754_zero false)
  /\ total (totals items)
     = fold_left Binary64.add
         (map (fun item => Binary64.add (lineTotal item) (vatAmount item)) items)
         (S754_zero false).
Proof. exact (fold_totals_components items totals_init). Qed.

Lemma underflow_slack_nonneg (item : LineItem Q) : 0 <= underflow_slack item.
Proof.
  unfold underflow_slack. pose proof eta_pos.
  pose proof (Qabs_nonneg (exact_lineTotal item)).
  pose proof (Qabs_nonneg (field_value (vatRate item) / 100)).
  apply Qmult_nonneg; lra.
Qed.

#[export] Instance tolerance_proper :
  Proper (eq ==> eq ==> Qeq ==> Qeq ==> Qeq) tolerance.
Proof.
  intros k k' <- n n' <- M M' HM S S' HS. unfold tolerance. now rewrite HM, HS.
Qed.

Lemma tolerance_mono (k n : nat) (M M' S : Q) :
  M <= M' -> tolerance k n M S <= tolerance k n M' S.
Proof.
  intros HM. unfold tolerance.
  pose proof (Qmult_le_nonneg_l (gamma_nonneg (n + k)) HM). lra.
Qed.

Lemma sum_of_le (T : Type) (f g : T -> Q) (items : list T) :
  (forall item, f item <= g item) -> sum_of f items <= sum_of g items.
Proof.
  intros Hfg. induction items as [|item items IH]; cbn [sum_of fold_right].
  - lra.
  - fold (sum_of f items). fold (sum_of g items). specialize (Hfg item). lra.
Qed.

Lemma subtotal_within_tolerance (items : list (LineItem spec_float)) :
  Binary64.is_finite (subtotal (totals items)) = true ->
  Qabs (B2Q (subtotal (totals items)) - sigma exact_lineTotal (map exact_item items))
  <= tolerance 1 (List.length items)
       (sigma (fun item => Qabs (exact_lineTotal item)) (map exact_item items))
       (inject_Z (Z.of_nat (List.length items)) * eta).
Proof.
  destruct (totals_binary64_components items) as [-> _]. intros Hfin.
  change (sigma exact_lineTotal (map exact_item items))
    with (sum_of exact_lineTotal (map exact_item items)).
  change (sigma (fun item => Qabs (exact_lineTotal item)) (map exact_item items))
    with (sum_of (fun item => Qabs (exact_lineTotal item)) (map exact_item items)).
  rewrite !sum_of_map, <- (sum_of_const eta items).
  apply (@fold_add_tolerance _ lineTotal
           (fun item => exact_lineTotal (exact_item item)) (fun _ => eta) 1 items).
  - intros item Hitem. rewrite gamma_1. exact (lineTotal_within item Hitem).
  - intros _. apply Qlt_le_weak, eta_pos.
  - exact Hfin.
Qed.

Lemma vatTotal_within_tolerance (items : list (LineItem spec_float)) :
  Binary64.is_finite (vatTotal (totals items)) = true ->
  Qabs (B2Q (vatTotal (totals items)) - sigma exact_vatAmount (map exact_item items))
  <= tolerance 3 (List.length items)
       (sigma (fun item => Qabs (exact_vatAmount item)) (map exact_item items))
       (sigma underflow_slack (map exact_item items)).
Proof.
  destruct (totals_binary64_components items) as [_ [-> _]]. intros Hfin.
  change (sigma exact_vatAmount (map exact_item items))
    with (sum_of exact_vatAmount (map exact_item items)).
  change (sigma (fun item => Qabs (exact_vatAmount item)) (map exact_item items))
    with (sum_of (fun item => Qabs (exact_vatAmount item)) (map exact_item items)).
  change (sigma underflow_slack (map exact_item items))
    with (sum_of underflow_slack (map exact_item items)).
  rewrite !sum_of_map.
  apply (@fold_add_tolerance _ vatAmount
           (fun item => exact_vatAmount (exact_item item))
           (fun item => underflow_slack (exact_item item)) 3 items).
  - intros item Hitem. exact (vatAmount_within item Hitem).
  - intros item. apply underflow_slack_nonneg.
  - exact Hfin.
Qed.

Lemma total_within_tolerance (items : list (LineItem spec_float)) :
  Binary64.is_finite (subtotal (totals items)) = true ->
  Binary64.is_finite (vatTotal (totals items)) = true ->
  Binary64.is_finite (total (totals items)) = true ->
  Qabs (B2Q (total (totals items))
        - (B2Q (subtotal (totals items)) + B2Q (vatTotal (totals items))))
  <= tolerance 1 (List.length items) (amounts_magnitude items)
       (inject_Z (Z.of_nat (List.length items)) * eta)
     + gamma (List.length items) * (amounts_magnitude items + 2 * tiny).
Proof.
  destruct (totals_binary64_components items) as [-> [-> ->]].
  intros Hs Hv Ht.
  destruct (fold_add_within _ _ Hs) as [_ [_ Hsb]].
  destruct (fold_add_within _ _ Hv) as [_ [_ Hvb]].
  rewrite length_map, sum_of_map, sum_of_map in Hsb, Hvb. cbn [B2Q] in Hsb, Hvb.
  pose proof (@fold_add_tolerance _
                (fun item => Binary64.add (lineTotal item) (vatAmount item))
                (fun item => B2Q (lineTotal item) + B2Q (vatAmount item))
                (fun _ => eta) 1 items) as Htb.
  rewrite (sum_of_const eta items) in Htb.
  assert (Hmag : sum_of (fun item => Qabs (B2Q (lineTotal item) + B2Q (vatAmount item)))
                   items
                 <= amounts_magnitude items).
  { unfold amounts_magnitude. apply sum_of_le. intros item. apply Qabs_triangle. }
  assert (Hsplit : amounts_magnitude items
                   == sum_of (fun item => Qabs (B2Q (lineTotal item))) items
                      + sum_of (fun item => Qabs (B2Q (vatAmount item))) items).
  { unfold amounts_magnitude. apply sum_of_plus. }
  pose proof (sum_of_plus (fun item => B2Q (lineTotal item))
                (fun item => B2Q (vatAmount item)) items) as Hsum.
  assert (Htb' : Qabs (B2Q (fold_left Binary64.add
                              (map (fun item => Binary64.add (lineTotal item) (vatAmount item))
                                 items) (S754_zero false))
                       - sum_of (fun item => B2Q (lineTotal item) + B2Q (vatAmount item))
                           items)
                 <= tolerance 1 (List.length items) (amounts_magnitude items)
                      (inject_Z (Z.of_nat (List.length items)) * eta)).
  { eapply Qle_trans; [|apply tolerance_mono; exact Hmag].
    apply Htb.
    - intros item Hitem. rewrite gamma_1. exact (add_within _ _ Hitem).
    - intros _. apply Qlt_le_weak, eta_pos.
    - exact Ht. }
  clear Htb.
  rewrite Hsum in Htb'.
  pose proof (gamma_nonneg (List.length items)) as Hg.
  remember (tolerance 1 (List.length items) (amounts_magnitude items)
              (inject_Z (Z.of_nat (List.length items)) * eta)) as tol.
  remember (B2Q (fold_left Binary64.add
                   (map (fun item => Binary64.add (lineTotal item) (vatAmount item)) items)
                   (S754_zero false))) as T.
  remember (B2Q (fold_left Binary64.add (map lineTotal items) (S754_zero false))) as Sb.
  remember (B2Q (fold_left Binary64.add (map vatAmount items) (S754_zero false))) as Vt.
  remember (sum_of (fun item => B2Q (lineTotal item)) items) as SL.
  remember (sum_of (fun item => B2Q (vatAmount item)) items) as SV.
  remember (sum_of (fun item => Qabs (B2Q (lineTotal item))) items) as ML.
  remember (sum_of (fun item => Qabs (B2Q (vatAmount item))) items) as MV.
  remember (amounts_magnitude items) as M.
  remember (gamma (List.length items)) as g. remember tiny as t.
  clear Heqtol HeqT HeqSb HeqVt HeqSL HeqSV HeqML HeqMV HeqM Heqg Heqt Hmag Hsum Hs Hv Ht.
  simpl (Qabs 0) in Hsb, Hvb.
  apply Qabs_le_elim in Hsb. apply Qabs_le_elim in Hvb. apply Qabs_le_elim in Htb'.
  assert (Hexp : g * (M + 2 * t) == g * (0 + ML + t) + g * (0 + MV + t))
    by (rewrite Hsplit; ring).
  rewrite Hexp.
  apply Qabs_le_of; lra.
Qed.

Lemma gamma_bound (n : nat) :
  (1 + gamma n) * (1 - inject_Z (Z.of_nat n) * eps) <= 1.
Proof.
  induction n as [|n IH].
  - rewrite gamma_0. change (inject_Z (Z.of_nat 0)) with 0. lra.
  - rewrite gamma_S, Nat2Z.inj_succ. unfold Z.succ. rewrite inject_Z_plus.
    change (inject_Z 1) with 1.
    pose proof (gamma_nonneg n) as Hg. pose proof eps_pos as He.
    assert (Hn : 0 <= inject_Z (Z.of_nat n)) by (apply inject_Z_nonneg; lia).
    remember (gamma n) as g. remember (inject_Z (Z.of_nat n)) as k. remember eps as e.
    clear Heqg Heqk Heqe.
    assert (H1 : 0 <= (1 + g) * e * (k * e + e)).
    { apply Qmult_nonneg; [apply Qmult_nonneg; lra|].
      pose proof (Qmult_nonneg Hn (Qlt_le_weak _ _ He)). lra. }
    nra.
Qed.

Lemma gamma_le (n : nat) :
  inject_Z (Z.of_nat n) * eps <= 1 # 2 ->
  gamma n <= 2 * (inject_Z (Z.of_nat n) * eps).
Proof.
  intros Hn. pose proof (gamma_bound n) as Hb. pose proof (gamma_nonneg n) as Hg.
  assert (H0 : 0 <= inject_Z (Z.of_nat n) * eps).
  { apply Qmult_nonneg; [apply inject_Z_nonneg; lia|apply Qlt_le_weak, eps_pos]. }
  remember (inject_Z (Z.of_nat n) * eps) as a. remember (gamma n) as g.
  clear Heqa Heqg. nra.
Qed.

End TotalsTolerance.

(** C1, as the claim words it, fails over binary64: the total need not be
    near subtotal + vatTotal.  For the two lines of [overflowing], which
    validation accepts, the total is +Infinity while subtotal + vatTotal is
    the largest finite number.  For the two lines of [cancelling] the total
    is 0 while subtotal + vatTotal is 1, off by the whole of the sum. *)
Lemma total_differs_from_subtotal_plus_vatTotal :
  (accepted (sampleInvoice None overflowing) = true
   /\ total (totals overflowing) = S754_infinity false
   /\ Binary64.add (subtotal (totals overflowing)) (vatTotal (totals overflowing))
      = S754_finite false 9007199254740991 971)
  /\ (total (totals cancelling) = S754_zero false
      /\ Binary64.add (subtotal (totals cancelling)) (vatTotal (totals cancelling))
         = Binary64.of_Z 1
      /\ Qabs (B2Q (total (totals cancelling))
               - (B2Q (subtotal (totals cancelling)) + B2Q (vatTotal (totals cancelling))))
         == Qabs (B2Q (subtotal (totals cancelling)) + B2Q (vatTotal (totals cancelling)))
      /\ B2Q (subtotal (totals cancelling)) + B2Q (vatTotal (totals cancelling)) == 1).
Proof. vm_compute. repeat split; reflexivity. Qed.

(** C1, as the code has it: for every sequence of line items the totals
    calculator returns subtotal = sum of quantity * unitPrice, vatTotal =
    sum of quantity * unitPrice * vatRate / 100 and total = subtotal +
    vatTotal, exactly over exact arithmetic.  Over binary64, whenever the
    three totals it returns are finite, subtotal and vatTotal are within a
    tolerance of these sums taken over the values of the fields, and total
    is within a tolerance of subtotal + vatTotal.  The tolerance is relative
    to the sum of the magnitudes of the line amounts, not to the result: for
    n lines whose amounts take k roundings each it is gamma (n + k), at most
    2 * (n + k) * 2^-53, times that sum, plus what underflow can add.  For
    the single item with quantity 2, unit price 100 and VAT rate 22 the
    calculator returns 200, 44 and 244, in exact arithmetic and in binary64
    alike.  The statement is about the reduction on the sequence it is run
    on; on which rows the running form has run it is the matter of X17, X20
    and X24. *)
Theorem totals_are_sums :
  (forall items : list (LineItem Q),
     subtotal (totals items) == sigma exact_lineTotal items
     /\ vatTotal (totals items) == sigma exact_vatAmount items
     /\ total (totals items) == subtotal (totals items) + vatTotal (totals items))
  /\ (forall items : list (LineItem spec_float),
        Binary64.is_finite (subtotal (totals items)) = true ->
        Binary64.is_finite (vatTotal (totals items)) = true ->
        Binary64.is_finite (total (totals items)) = true ->
        Qabs (B2Q (subtotal (totals items))
              - sigma exact_lineTotal (map exact_item items))
        <= tolerance 1 (List.length items)
             (sigma (fun item => Qabs (exact_lineTotal item)) (map exact_item items))
             (inject_Z (Z.of_nat (List.length items)) * eta)
        /\ Qabs (B2Q (vatTotal (totals items))
                 - sigma exact_vatAmount (map exact_item items))
           <= tolerance 3 (List.length items)
                (sigma (fun item => Qabs (exact_vatAmount item)) (map exact_item items))
                (sigma underflow_slack (map exact_item items))
        /\ Qabs (B2Q (total (totals items))
                 - (B2Q (subtotal (totals items)) + B2Q (vatTotal (totals items))))
           <= tolerance 1 (List.length items) (amounts_magnitude items)
                (inject_Z (Z.of_nat (List.length items)) * eta)
              + gamma (List.length items) * (amounts_magnitude items + 2 * tiny))
  /\ (forall k : nat,
        inject_Z (Z.of_nat k) * eps <= 1 # 2 ->
        gamma k <= 2 * (inject_Z (Z.of_nat k) * eps))
  /\ (subtotal (totals [consulenza (num := Q)]) == 200
      /\ vatTotal (totals [consulenza (num := Q)]) == 44
      /\ total (totals [consulenza (num := Q)]) == 244)
  /\ totals [consulenza (num := spec_float)]
     = {| subtotal := Binary64.of_Z 200;
          vatTotal := Binary64.of_Z 44;
          total := Binary64.of_Z 244 |}.
Proof.
  split; [|split; [|split; [|split]]].
  - intros items. unfold totals.
    destruct (fold_totals_exact items totals_init) as [Hs [Hv Ht]].
    rewrite Hs, Hv, Ht. cbn [totals_init subtotal vatTotal total].
    change (num_of_Z 0) with 0%Q.
    rewrite (sigma_ext lineTotal exact_lineTotal items lineTotal_exact).
    rewrite (sigma_ext vatAmount exact_vatAmount items vatAmount_exact).
    repeat split; ring.
  - intros items Hs Hv Ht. split; [|split].
    + exact (subtotal_within_tolerance items Hs).
    + exact (vatTotal_within_tolerance items Hv).
    + exact (total_within_tolerance items Hs Hv Ht).
  - exact gamma_le.
  - vm_compute. repeat split; reflexivity.
  - vm_compute. reflexivity.
Qed.

Lemma totals_are_sums_witness :
  (Binary64.is_finite (subtotal (totals twoLines)) = true
   /\ Binary64.is_finite (vatTotal (totals twoLines)) = true
   /\ Binary64.is_finite (total (totals twoLines)) = true)
  /\ (Qabs (B2Q (subtotal (totals twoLines))
            - sigma exact_lineTotal (map exact_item twoLines))
      <= tolerance 1 2
           (sigma (fun item => Qabs (exact_lineTotal item)) (map exact_item twoLines))
           (inject_Z 2 * eta)
      /\ Qabs (B2Q (vatTotal (totals twoLines))
               - sigma exact_vatAmount (map exact_item twoLines))
         <= tolerance 3 2
              (sigma (fun item => Qabs (exact_vatAmount item)) (map exact_item twoLines))
              (sigma underflow_slack (map exact_item twoLines))
      /\ Qabs (B2Q (total (totals twoLines))
               - (B2Q (subtotal (totals twoLines)) + B2Q (vatTotal (totals twoLines))))
         <= tolerance 1 2 (amounts_magnitude twoLines) (inject_Z 2 * eta)
            + gamma 2 * (amounts_magnitude twoLines + 2 * tiny))
  /\ (tolerance 1 2
        (sigma (fun item => Qabs (exact_lineTotal item)) (map exact_item twoLines))
        (inject_Z 2 * eta) < 1 # 1000000000000
      /\ tolerance 3 2
           (sigma (fun item => Qabs (exact_vatAmount item)) (map exact_item twoLines))
           (sigma underflow_slack (map exact_item twoLines)) < 1 # 1000000000000
      /\ tolerance 1 2 (amounts_magnitude twoLines) (inject_Z 2 * eta)
         + gamma 2 * (amounts_magnitude twoLines + 2 * tiny) < 1 # 1000000000000)
  /\ (inject_Z (Z.of_nat 5) * eps <= 1 # 2
      /\ gamma 5 <= 2 * (inject_Z (Z.of_nat 5) * eps)).
Proof.
  assert (Hs : Binary64.is_finite (subtotal (totals twoLines)) = true) by reflexivity.
  assert (Hv : Binary64.is_finite (vatTotal (totals twoLines)) = true) by reflexivity.
  assert (Ht : Binary64.is_finite (total (totals twoLines)) = true) by reflexivity.
  assert (Hk : inject_Z (Z.of_nat 5) * eps <= 1 # 2) by (vm_compute; discriminate).
  split; [auto|]. split; [|split].
  - exact (proj1 (proj2 totals_are_sums) twoLines Hs Hv Ht).
  - repeat split; vm_compute; reflexivity.
  - split; [exact Hk|]. exact (proj1 (proj2 (proj2 totals_are_sums)) 5%nat Hk).
Defined.
